(** * Sentry API serializers: issue groups and plugins

    A shallow embedding of
    [src/sentry/api/serializers/models/group.py] and
    [src/sentry/api/serializers/models/plugin.py].

    Python dictionaries with string keys are [gmap string value]; the ORM
    tables the serializers query are lists of rows held in a [Store];
    exceptions are the [Raise] results of a small error monad. *)

From Stdlib Require Import Ascii.
From stdpp Require Import gmap strings list fin_maps pretty.

Set Warnings "-register-all".

Local Open Scope Z_scope.
Local Open Scope string_scope.

(** ** Python values and exceptions *)

(** The JSON-ready values the serializers build.  [VDate] stands for a
    [datetime], carried as a timestamp.  [VStr] is a string given by its
    bytes: a Python 2 [str], and also a [unicode] object of ASCII
    characters, which compares equal to the [str] of the same bytes; a
    [unicode] object with other characters is not represented. *)
Inductive value :=
| VNone
| VBool (b : bool)
| VInt (z : Z)
| VStr (s : string)
| VDate (t : Z)
| VList (l : list value)
| VDict (m : gmap string value).

Inductive exn :=
| KeyError (k : string)
| TypeError
| AttributeError
| UnicodeDecodeError.

Inductive result (A : Type) :=
| Ok (a : A)
| Raise (e : exn).
Arguments Ok {A} a.
Arguments Raise {A} e.

#[global] Instance result_ret : MRet result := fun A a => Ok a.
#[global] Instance result_bind : MBind result := fun A B f m =>
  match m with
  | Ok a => f a
  | Raise e => Raise e
  end.

(** Python truthiness: what [if v], [v or w] and [bool(v)] test. *)
Definition truthy (v : value) : bool :=
  match v with
  | VNone => false
  | VBool b => b
  | VInt z => negb (Z.eqb z 0)
  | VStr s => negb (String.eqb s "")
  | VDate _ => true
  | VList l => negb (Nat.eqb (length l) 0)
  | VDict m => negb (Nat.eqb (size m) 0)
  end.

(** Truthiness of a nullable integer column. *)
Definition truthy_int (o : option Z) : bool :=
  match o with
  | Some z => negb (Z.eqb z 0)
  | None => false
  end.

Definition of_option_int (o : option Z) : value :=
  match o with Some z => VInt z | None => VNone end.

Definition of_option_date (o : option Z) : value :=
  match o with Some t => VDate t | None => VNone end.

Definition of_option_str (o : option string) : value :=
  match o with Some s => VStr s | None => VNone end.

Definition of_option (o : option value) : value :=
  match o with Some v => v | None => VNone end.

(** [d[k]]: a missing key raises [KeyError]. *)
Definition getitem {A} (d : gmap string A) (k : string) : result A :=
  match d !! k with
  | Some v => Ok v
  | None => Raise (KeyError k)
  end.

(** [d.get(k, dflt)]. *)
Definition dict_get (d : gmap string value) (k : string) (dflt : value) : value :=
  default dflt (d !! k).

(** [v == s] for a string literal [s]. *)
Definition eq_str (v : value) (s : string) : bool :=
  match v with
  | VStr t => bool_decide (t = s)
  | _ => false
  end.

(** ** String methods used on field names (ASCII) *)

Definition is_lower (c : ascii) : bool :=
  let n := nat_of_ascii c in (97 <=? n)%nat && (n <=? 122)%nat.

Definition is_upper (c : ascii) : bool :=
  let n := nat_of_ascii c in (65 <=? n)%nat && (n <=? 90)%nat.

Definition to_upper (c : ascii) : ascii :=
  if is_lower c then ascii_of_nat (nat_of_ascii c - 32) else c.

Definition to_lower (c : ascii) : ascii :=
  if is_upper c then ascii_of_nat (nat_of_ascii c + 32) else c.

(** [str.title()]: the first cased character of every run of letters is
    upper-cased, the following ones are lower-cased. *)
Fixpoint title_from (previous_is_cased : bool) (s : string) : string :=
  match s with
  | EmptyString => EmptyString
  | String c rest =>
      if is_lower c then
        String (if previous_is_cased then c else to_upper c) (title_from true rest)
      else if is_upper c then
        String (if previous_is_cased then to_lower c else c) (title_from true rest)
      else String c (title_from false rest)
  end.

Definition title (s : string) : string := title_from false s.

(** [s.replace(a, b)] for single characters. *)
Fixpoint replace (a b : ascii) (s : string) : string :=
  match s with
  | EmptyString => EmptyString
  | String c rest => String (if Ascii.eqb c a then b else c) (replace a b rest)
  end.

(** The ASCII codec accepts the bytes below 128. *)
Definition is_ascii (c : ascii) : bool := (nat_of_ascii c <? 128)%nat.

Fixpoint all_ascii (s : string) : bool :=
  match s with
  | EmptyString => true
  | String c rest => is_ascii c && all_ascii rest
  end.

(** ** Models *)

Record Organization := {
  organization_id : Z;
  organization_slug : string;
}.

Record Project := {
  project_id : Z;
  project_name : string;
  project_slug : string;
  project_organization : Organization;
}.

(** ** plugin.py *)

(** A plugin as [serialize_field] sees it: the stored-option lookup. *)
Record Plugin := {
  get_option : value -> option Project -> value;
}.

Section WithTextType.

(** [six.text_type] on values that are neither text nor atoms. *)
Variable text_of_container : value -> string.

(** [six.text_type] is [unicode]: a byte string is decoded with the ASCII
    codec, which raises at a byte above 127; every other value has a
    text. *)
Definition text_type (v : value) : result string :=
  match v with
  | VStr s => if all_ascii s then Ok s else Raise UnicodeDecodeError
  | VInt z => Ok (pretty z)
  | VNone => Ok "None"
  | VBool true => Ok "True"
  | VBool false => Ok "False"
  | _ => Ok (text_of_container v)
  end.

(** [field['name'].title()]: only text has the method. *)
Definition str_title (v : value) : result string :=
  match v with
  | VStr s => Ok (title s)
  | _ => Raise AttributeError
  end.

(** [six.text_type(field[k]) if field.get(k) else None]. *)
Definition text_or_none (field : gmap string value) (k : string)
    : result value :=
  if truthy (dict_get field k VNone)
  then t ← text_type (dict_get field k VNone); Ok (VStr t)
  else Ok VNone.

Definition serialize_field (project : option Project) (plugin : Plugin)
    (field : gmap string value) : result (gmap string value) :=
  name ← getitem field "name";
  name_text ← text_type name;
  label ← (if truthy (dict_get field "label" VNone)
           then Ok (dict_get field "label" VNone)
           else t ← str_title name; Ok (VStr (replace "_" " " t)));
  label_text ← text_type label;
  help ← text_or_none field "help";
  placeholder ← text_or_none field "placeholder";
  let data : gmap string value :=
    <["value" := VNone]>
    (<["defaultValue" := dict_get field "default" VNone]>
    (<["readonly" := dict_get field "readonly" (VBool false)]>
    (<["choices" := dict_get field "choices" VNone]>
    (<["placeholder" := placeholder]>
    (<["help" := help]>
    (<["required" := dict_get field "required" (VBool true)]>
    (<["type" := dict_get field "type" (VStr "text")]>
    (<["label" := VStr label_text]>
    (<["name" := VStr name_text]> ∅))))))))) in
  if negb (eq_str (dict_get field "type" VNone) "secret") then
    Ok (<["value" := get_option plugin name project]> data)
  else
    Ok (<["prefix" := dict_get field "prefix" (VStr "")]>
        (<["has_saved_value" :=
             VBool (truthy (dict_get field "has_saved_value" (VBool false)))]> data)).

End WithTextType.

(** ** group.py: models and tables *)

(** Modelled from the spec: the [GroupStatus] constants of [sentry.models],
    which the source imports; the spec lists the enumeration as unresolved,
    resolved, ignored, pending_deletion, deletion_in_progress,
    pending_merge. *)
Inductive GroupStatus :=
| UNRESOLVED
| RESOLVED
| IGNORED
| PENDING_DELETION
| DELETION_IN_PROGRESS
| PENDING_MERGE.

#[global] Instance GroupStatus_eq_dec : EqDecision GroupStatus.
Proof. solve_decision. Defined.

(** Modelled from the spec: [GroupResolution.Type], listed as in_next_release,
    in_release and explicit/other. *)
Inductive ResolutionType :=
| in_next_release
| in_release
| other_resolution.

#[global] Instance ResolutionType_eq_dec : EqDecision ResolutionType.
Proof. solve_decision. Defined.

Record User := {
  user_id : Z;
  user_is_active : bool;
}.

(** [request.user]: Django's [AnonymousUser] or a stored user. *)
Inductive Viewer :=
| AnonymousUser
| Authenticated (u : User).

Definition is_authenticated (user : Viewer) : bool :=
  match user with
  | AnonymousUser => false
  | Authenticated _ => true
  end.

Record Group := {
  group_id : Z;
  group_project : Project;
  group_status : GroupStatus;
  times_seen : Z;
  num_comments : Z;
  first_seen : Z;
  last_seen : Z;
  active_at : option Z;
  group_title : string;
  culprit : string;
  logger : string;
  level : Z;
  qualified_short_id : option string;
  event_type : string;
  event_metadata : value;
}.

(** [Group.organization] is the organization of the group's project. *)
Definition organization (obj : Group) : Organization :=
  project_organization (group_project obj).

Record GroupSubscription := {
  subscription_group_id : Z;
  subscription_user_id : Z;
  subscription_is_active : bool;
  subscription_reason : Z;
}.

Record UserOption := {
  option_user_id : Z;
  option_project_id : option Z;
  option_key : string;
  option_value : string;
}.

Record GroupBookmark := {
  bookmark_user_id : Z;
  bookmark_group_id : Z;
}.

Record GroupSeen := {
  seen_user_id : Z;
  seen_group_id : Z;
  seen_last_seen : Z;
}.

Record GroupAssignee := {
  assignee_group_id : Z;
  assignee_user : User;
}.

Record GroupSnooze := {
  snooze_group_id : Z;
  snooze_until : option Z;
  snooze_count : option Z;
  snooze_window : option Z;
  snooze_user_count : option Z;
  snooze_user_window : option Z;
  snooze_state : option (gmap string Z);
  snooze_actor_id : option Z;
}.

Record GroupResolution := {
  resolution_group_id : Z;
  resolution_type : option ResolutionType;
  resolution_release_version : option string;
  resolution_actor_id : option Z;
}.

Record GroupShare := {
  share_group_id : Z;
  share_uuid : string;
}.

(** The rows behind [Model.objects]. *)
Record Store := {
  GroupSubscription_objects : list GroupSubscription;
  UserOption_objects : list UserOption;
  GroupBookmark_objects : list GroupBookmark;
  GroupSeen_objects : list GroupSeen;
  GroupAssignee_objects : list GroupAssignee;
  GroupSnooze_objects : list GroupSnooze;
  GroupResolution_objects : list GroupResolution;
  User_objects : list User;
  GroupShare_objects : list GroupShare;
}.

(** A version-1 plugin's [tags(request, group, tag_list)] hook: the list as
    the call leaves it, whether it returned or raised ([safe_execute]
    discards the outcome). *)
Record PluginV1 := {
  tags : Group -> list value -> list value;
}.

(** A version-2 plugin's [get_annotations(group=...)] hook under
    [safe_execute]: [None] when it raised or returned nothing. *)
Record PluginV2 := {
  get_annotations : Group -> option (list value);
}.

(** What the serializer imports from the rest of the application.
    [serialize_user viewer u] is [serialize(u, viewer)]; [serialize(u)],
    without a viewer, serializes for an anonymous one. *)
Record Env := {
  text_of_container : value -> string;
  all_conversations : string;
  reason_comment : Z;
  reason_assigned : Z;
  reason_bookmark : Z;
  reason_status_change : Z;
  reason_mentioned : Z;
  LOG_LEVELS : gmap Z string;
  is_valid : GroupSnooze -> Group -> bool;
  is_over_resolve_age : Group -> bool;
  get_orgs : User -> list Organization;
  reverse : string -> list value -> string;
  absolute_uri : string -> string;
  serialize_user : Viewer -> User -> value;
  get_group_values_seen : list Z -> string -> gmap Z Z;
  plugins_v1 : Project -> list PluginV1;
  plugins_v2 : Project -> list PluginV2;
}.

(** The entry [_get_subscriptions] keeps per group id: [None] while unknown,
    else [(subscribed, subscription or None)]. *)
Abbreviation subscription_entry := (option (bool * option GroupSubscription)).

(** The attribute bag [get_attrs] builds for one group. *)
Record Attrs := {
  assigned_to : value;
  is_bookmarked : bool;
  subscription : subscription_entry;
  has_seen : bool;
  annotations : list value;
  user_count : Z;
  ignore_until : option GroupSnooze;
  ignore_actor : option value;
  resolution : option (option ResolutionType * option string * option Z);
  resolution_actor : option value;
  share_id : option string;
}.

(** The dict comprehension [{key(x): val(x) for x in rows}], also
    [dict((key(x), val(x)) for x in rows)]: a later row overwrites. *)
Definition dict_of `{Countable K} {A V} (key : A -> K) (val : A -> V)
    (rows : list A) : gmap K V :=
  foldl (fun d x => <[key x := val x]> d) ∅ rows.

(** [project__in=keys]: false for a null project. *)
Definition project_in (keys : gset Z) (p : option Z) : Prop :=
  match p with
  | Some pid => pid ∈ keys
  | None => False
  end.

#[global] Instance project_in_dec keys p : Decision (project_in keys p).
Proof. destruct p; simpl; apply _. Defined.

(** [group__in=item_list]. *)
Definition in_item_list (item_list : list Group) (gid : Z) : Prop :=
  gid ∈ (group_id <$> item_list).

#[global] Instance in_item_list_dec item_list gid :
  Decision (in_item_list item_list gid).
Proof. unfold in_item_list; apply _. Defined.

(** [del d[k]]. *)
Definition delitem {A} (d : gmap string A) (k : string) : result (gmap string A) :=
  match d !! k with
  | Some _ => Ok (delete k d)
  | None => Raise (KeyError k)
  end.

(** ** group.py: [GroupSerializer] *)

Module GroupSerializer.

Section WithEnv.

Variable env : Env.
Variable st : Store.

Definition SUBSCRIPTION_REASON_MAP : gmap Z string :=
  <[reason_mentioned env := "mentioned"]>
  (<[reason_status_change env := "changed_status"]>
  (<[reason_bookmark env := "bookmarked"]>
  (<[reason_assigned env := "assigned"]>
  (<[reason_comment env := "commented"]> ∅)))).

(** The mapping of group ids to [(subscribed, subscription or None)] for
    [user]; [projects] maps a project (by primary key) to the ids of its
    groups that have no subscription row. *)
Definition _get_subscriptions (item_list : list Group) (user : User)
    : gmap Z subscription_entry :=
  let results : gmap Z subscription_entry :=
    dict_of group_id (fun _ => None) item_list in
  let subscriptions :=
    filter (fun s => subscription_group_id s ∈ dom results
                     ∧ subscription_user_id s = user_id user)
           (GroupSubscription_objects st) in
  let results :=
    foldl (fun (r : gmap Z subscription_entry) (s : GroupSubscription) =>
             <[subscription_group_id s := Some (subscription_is_active s, Some s)]> r)
          results subscriptions in
  let projects : gmap Z (gset Z) :=
    foldl (fun (p : gmap Z (gset Z)) (group : Group) =>
             match results !! group_id group with
             | Some None =>
                 let pid := project_id (group_project group) in
                 <[pid := default ∅ (p !! pid) ∪ {[group_id group]}]> p
             | _ => p
             end)
          ∅ item_list in
  if bool_decide (projects = ∅) then results
  else
    let options : gmap (option Z) string :=
      dict_of option_project_id option_value
        (filter (fun o => (project_in (dom projects) (option_project_id o)
                          ∨ option_project_id o = None)
                         ∧ option_user_id o = user_id user
                         ∧ option_key o = "workflow:notifications")
                (UserOption_objects st)) in
    let default_ := default (all_conversations env) (options !! None) in
    foldl (fun (r : gmap Z subscription_entry) '(pid, group_ids) =>
             let is_subscribed :=
               bool_decide (default default_ (options !! Some pid)
                            = all_conversations env) in
             foldl (fun (r : gmap Z subscription_entry) (gid : Z) =>
                      <[gid := Some (is_subscribed, None)]> r)
                   r (elements group_ids))
          results (map_to_list projects).

(** [subscriptions[item.id]] in [get_attrs]: the dictionary of
    [_get_subscriptions], or the [defaultdict] of the other branch. *)
Definition subscriptions_for (item_list : list Group) (user : Viewer)
    : Z -> result subscription_entry :=
  match user with
  | Authenticated u =>
      if negb (Nat.eqb (length item_list) 0) then
        let d := _get_subscriptions item_list u in
        fun gid => match d !! gid with
                   | Some e => Ok e
                   | None => Raise (KeyError (pretty gid))
                   end
      else fun _ => Ok (Some (false, None))
  | AnonymousUser => fun _ => Ok (Some (false, None))
  end.

Definition bookmarks_for (item_list : list Group) (user : Viewer) : gset Z :=
  match user with
  | Authenticated u =>
      if negb (Nat.eqb (length item_list) 0) then
        list_to_set (bookmark_group_id <$>
          filter (fun b => bookmark_user_id b = user_id u
                           ∧ in_item_list item_list (bookmark_group_id b))
                 (GroupBookmark_objects st))
      else ∅
  | AnonymousUser => ∅
  end.

Definition seen_groups_for (item_list : list Group) (user : Viewer) : gmap Z Z :=
  match user with
  | Authenticated u =>
      if negb (Nat.eqb (length item_list) 0) then
        dict_of seen_group_id seen_last_seen
          (filter (fun s => seen_user_id s = user_id u
                            ∧ in_item_list item_list (seen_group_id s))
                  (GroupSeen_objects st))
      else ∅
  | AnonymousUser => ∅
  end.

(** The annotations of one group: the version-1 [tags] hooks, then the
    version-2 [get_annotations] hooks. *)
Definition annotations_for (item : Group) : list value :=
  let annotations :=
    foldl (fun ann plugin => tags plugin item ann) []
          (plugins_v1 env (group_project item)) in
  foldl (fun ann plugin => (ann ++ default [] (get_annotations plugin item))%list)
        annotations (plugins_v2 env (group_project item)).

(** The actors of the batch: the active users among the ids that the
    resolutions and snoozes name, serialized for [user]. *)
Definition actors_for
    (resolutions : gmap Z (option ResolutionType * option string * option Z))
    (ignore_items : gmap Z GroupSnooze) (user : Viewer) : gmap Z value :=
  let actor_ids : gset (option Z) :=
    list_to_set ((fun r => r.2) <$> (snd <$> map_to_list resolutions))
    ∪ list_to_set (snooze_actor_id <$> (snd <$> map_to_list ignore_items)) in
  if bool_decide (actor_ids = ∅) then ∅
  else
    let users :=
      filter (fun u => Some (user_id u) ∈ actor_ids ∧ user_is_active u = true)
             (User_objects st) in
    dict_of (fun ud => user_id ud.1) snd
            (zip users (serialize_user env user <$> users)).

Definition get_attrs (item_list : list Group) (user : Viewer)
    : result (gmap Z Attrs) :=
  let bookmarks := bookmarks_for item_list user in
  let seen_groups := seen_groups_for item_list user in
  let subscriptions := subscriptions_for item_list user in
  let assignees : gmap Z User :=
    dict_of assignee_group_id assignee_user
      (filter (fun a => in_item_list item_list (assignee_group_id a))
              (GroupAssignee_objects st)) in
  let user_counts :=
    get_group_values_seen env (group_id <$> item_list) "sentry:user" in
  let ignore_items : gmap Z GroupSnooze :=
    dict_of snooze_group_id (fun g => g)
      (filter (fun g => in_item_list item_list (snooze_group_id g))
              (GroupSnooze_objects st)) in
  let resolutions :=
    dict_of resolution_group_id
      (fun i => (resolution_type i, resolution_release_version i,
                 resolution_actor_id i))
      (filter (fun i => in_item_list item_list (resolution_group_id i))
              (GroupResolution_objects st)) in
  let actors := actors_for resolutions ignore_items user in
  let share_ids : gmap Z string :=
    dict_of share_group_id share_uuid
      (filter (fun s => in_item_list item_list (share_group_id s))
              (GroupShare_objects st)) in
  foldl (fun acc item =>
           result ← acc;
           attrs ←
             (let active_date := default (first_seen item) (active_at item) in
              let annotations := annotations_for item in
              let resolution := resolutions !! group_id item in
              let resolution_actor :=
                match resolution with
                | Some r => r.2 ≫= (actors !!.)
                | None => None
                end in
              let ignore_item := ignore_items !! group_id item in
              let ignore_actor :=
                match ignore_item with
                | Some s => snooze_actor_id s ≫= (actors !!.)
                | None => None
                end in
              sub ← subscriptions (group_id item);
              Ok {| assigned_to :=
                      of_option (serialize_user env AnonymousUser
                                   <$> assignees !! group_id item);
                    is_bookmarked := bool_decide (group_id item ∈ bookmarks);
                    subscription := sub;
                    has_seen :=
                      Z.ltb active_date
                            (default active_date (seen_groups !! group_id item));
                    annotations := annotations;
                    user_count := default 0 (user_counts !! group_id item);
                    ignore_until := ignore_item;
                    ignore_actor := ignore_actor;
                    resolution := resolution;
                    resolution_actor := resolution_actor;
                    share_id := share_ids !! group_id item |});
           Ok (<[group_id item := attrs]> result))
        (Ok ∅) item_list.

(** [snooze.state[k]]: the snapshot taken when the group was snoozed. *)
Definition state_getitem (snooze : GroupSnooze) (k : string) : result Z :=
  match snooze_state snooze with
  | Some d => getitem d k
  | None => Raise TypeError
  end.

(** The integer behind a nullable column that was just tested truthy. *)
Definition int_of (o : option Z) : Z := default 0 o.

(** [serialize], lines 199-226: the stored status and empty details; for a
    group with a snooze, the details of a valid snooze or the reset of the
    status when the snooze no longer holds. *)
Definition snooze_check (obj : Group) (attrs : Attrs)
    : result (GroupStatus * gmap string value) :=
  let status := group_status obj in
  let status_details : gmap string value := ∅ in
  match ignore_until attrs with
  | Some snooze =>
      if is_valid env snooze obj then
        ignoreCount ←
          (if truthy_int (snooze_count snooze)
              && negb (truthy_int (snooze_window snooze))
           then seen ← state_getitem snooze "times_seen";
                Ok (VInt (int_of (snooze_count snooze) - (times_seen obj - seen)))
           else Ok (of_option_int (snooze_count snooze)));
        ignoreUserCount ←
          (if truthy_int (snooze_user_count snooze)
              && negb (truthy_int (snooze_user_window snooze))
           then seen ← state_getitem snooze "users_seen";
                Ok (VInt (int_of (snooze_user_count snooze)
                          - (user_count attrs - seen)))
           else Ok (of_option_int (snooze_user_count snooze)));
        Ok (status,
            <["actor" := of_option (ignore_actor attrs)]>
            (<["ignoreWindow" := of_option_int (snooze_window snooze)]>
            (<["ignoreUserWindow" := of_option_int (snooze_user_window snooze)]>
            (<["ignoreUserCount" := ignoreUserCount]>
            (<["ignoreUntil" := of_option_date (snooze_until snooze)]>
            (<["ignoreCount" := ignoreCount]> status_details))))))
      else Ok (UNRESOLVED, status_details)
  | None => Ok (status, status_details)
  end.

(** [serialize], lines 227-229. *)
Definition auto_resolve (obj : Group) (s : GroupStatus * gmap string value)
    : GroupStatus * gmap string value :=
  let '(status, status_details) := s in
  if bool_decide (status = UNRESOLVED) && is_over_resolve_age env obj
  then (RESOLVED, <["autoResolved" := VBool true]> status_details)
  else (status, status_details).

(** [serialize], lines 230-246: the label and the resolution details. *)
Definition label_status (attrs : Attrs) (s : GroupStatus * gmap string value)
    : string * gmap string value :=
  let '(status, status_details) := s in
  if bool_decide (status = RESOLVED) then
    ("resolved",
     match resolution attrs with
     | Some (res_type, res_version, _) =>
         let status_details :=
           if bool_decide (res_type = Some in_next_release ∨ res_type = None)
           then <["inNextRelease" := VBool true]> status_details
           else if bool_decide (res_type = Some in_release)
           then <["inRelease" := of_option_str res_version]> status_details
           else status_details in
         <["actor" := of_option (resolution_actor attrs)]> status_details
     | None => status_details
     end)
  else if bool_decide (status = IGNORED) then ("ignored", status_details)
  else if bool_decide (status ∈ [PENDING_DELETION; DELETION_IN_PROGRESS])
  then ("pending_deletion", status_details)
  else if bool_decide (status = PENDING_MERGE)
  then ("pending_merge", status_details)
  else ("unresolved", status_details).

(** [serialize], lines 248-255. *)
Definition permalink_for (obj : Group) (user : Viewer) : value :=
  match user with
  | Authenticated u =>
      if bool_decide (organization_id (organization obj)
                      ∈ (organization_id <$> get_orgs env u))
      then VStr (absolute_uri env
                   (reverse env "sentry-group"
                      [VStr (organization_slug (organization obj));
                       VStr (project_slug (group_project obj));
                       VInt (group_id obj)]))
      else VNone
  | AnonymousUser => VNone
  end.

(** [is_subscribed, subscription = attrs['subscription']]. *)
Definition unpack_subscription (e : subscription_entry)
    : result (bool * option GroupSubscription) :=
  match e with
  | Some p => Ok p
  | None => Raise TypeError
  end.

Definition serialize (obj : Group) (attrs : Attrs) (user : Viewer)
    : result (gmap string value) :=
  s ← snooze_check obj attrs;
  let '(status_label, status_details) :=
    label_status attrs (auto_resolve obj s) in
  let permalink := permalink_for obj user in
  p ← unpack_subscription (subscription attrs);
  let is_subscribed : bool := p.1 in
  let subscription : option GroupSubscription := p.2 in
  let share_id := share_id attrs in
  id ← text_type (text_of_container env) (VInt (group_id obj));
  count ← text_type (text_of_container env) (VInt (times_seen obj));
  Ok (<["annotations" := VList (annotations attrs)]>
      (<["hasSeen" := VBool (has_seen attrs)]>
      (<["subscriptionDetails" :=
           if is_subscribed then
             match subscription with
             | Some sub =>
                 VDict {["reason" :=
                   VStr (default "unknown"
                           (SUBSCRIPTION_REASON_MAP !! subscription_reason sub))]}
             | None => VNone
             end
           else VNone]>
      (<["isSubscribed" := VBool is_subscribed]>
      (<["isBookmarked" := VBool (is_bookmarked attrs)]>
      (<["assignedTo" := assigned_to attrs]>
      (<["numComments" := VInt (num_comments obj)]>
      (<["metadata" := event_metadata obj]>
      (<["type" := VStr (event_type obj)]>
      (<["project" :=
           VDict (<["slug" := VStr (project_slug (group_project obj))]>
                  {["name" := VStr (project_name (group_project obj))]})]>
      (<["isPublic" := VBool (bool_decide (is_Some share_id))]>
      (<["statusDetails" := VDict status_details]>
      (<["status" := VStr status_label]>
      (<["level" := VStr (default "unknown" (LOG_LEVELS env !! level obj))]>
      (<["logger" :=
           if String.eqb (logger obj) "" then VNone else VStr (logger obj)]>
      (<["lastSeen" := VDate (last_seen obj)]>
      (<["firstSeen" := VDate (first_seen obj)]>
      (<["permalink" := permalink]>
      (<["culprit" := VStr (culprit obj)]>
      (<["title" := VStr (group_title obj)]>
      (<["userCount" := VInt (user_count attrs)]>
      (<["count" := VStr count]>
      (<["shortId" := of_option_str (qualified_short_id obj)]>
      (<["shareId" := of_option_str share_id]>
      (<["id" := VStr id]>
       ∅))))))))))))))))))))))))).

End WithEnv.

End GroupSerializer.

(** ** group.py: [SharedGroupSerializer] *)

Module SharedGroupSerializer.

Definition serialize (env : Env) (obj : Group) (attrs : Attrs) (user : Viewer)
    : result (gmap string value) :=
  result ← GroupSerializer.serialize env obj attrs user;
  delitem result "annotations".

End SharedGroupSerializer.

(** ** group.py: [StreamGroupSerializer] *)

Module StreamGroupSerializer.

(** [StatsPeriod(segments, interval)]; the interval in seconds. *)
Record StatsPeriod := {
  segments : Z;
  interval : Z;
}.

Definition STATS_PERIOD_CHOICES : gmap string StatsPeriod :=
  <["24h" := {| segments := 24; interval := 3600 |}]>
  {["14d" := {| segments := 14; interval := 86400 |}]}.

(** The serializer object: what [__init__] stores. *)
Record t := {
  stats_period : option string;
  matching_event_id : value;
}.

(** [__init__]: [None] stands for the [AssertionError] of a period that is
    not among the choices. *)
Definition init (stats_period : option string) (matching_event_id : value)
    : option t :=
  match stats_period with
  | Some period =>
      if bool_decide (period ∈ dom STATS_PERIOD_CHOICES)
      then Some {| stats_period := stats_period;
                   matching_event_id := matching_event_id |}
      else None
  | None => Some {| stats_period := None;
                    matching_event_id := matching_event_id |}
  end.

(** [if self.stats_period]: the period when it is set and not empty. *)
Definition period_of (self : t) : option string :=
  match stats_period self with
  | Some period => if String.eqb period "" then None else Some period
  | None => None
  end.

(** The bag of [GroupSerializer] with the [stats] entry this class adds. *)
Record StreamAttrs := {
  bag : Attrs;
  stats : option value;
}.

(** [tsdb.get_range(model=tsdb.models.group, keys, end, start, rollup)]:
    per key, the series of (timestamp, count). *)
Record Tsdb := {
  get_range : list Z -> Z -> Z -> Z -> gmap Z value;
}.

(** [d[k]] for an integer key. *)
Definition getitem_int {A} (d : gmap Z A) (k : Z) : result A :=
  match d !! k with
  | Some v => Ok v
  | None => Raise (KeyError (pretty k))
  end.

(** [get_attrs]; [now] is [timezone.now()] in seconds. *)
Definition get_attrs (env : Env) (st : Store) (tsdb : Tsdb) (now : Z)
    (self : t) (item_list : list Group) (user : Viewer)
    : result (gmap Z StreamAttrs) :=
  attrs ← GroupSerializer.get_attrs env st item_list user;
  let attrs : gmap Z StreamAttrs :=
    (fun a => {| bag := a; stats := None |}) <$> attrs in
  match period_of self with
  | Some period =>
      let group_ids := group_id <$> item_list in
      choice ← getitem STATS_PERIOD_CHOICES period;
      let stats :=
        get_range tsdb group_ids now
          (now - (segments choice - 1) * interval choice) (interval choice) in
      foldl (fun acc item =>
               attrs ← acc;
               a ← getitem_int attrs (group_id item);
               s ← getitem_int stats (group_id item);
               Ok (<[group_id item := {| bag := bag a; stats := Some s |}]> attrs))
            (Ok attrs) item_list
  | None => Ok attrs
  end.

Definition serialize (env : Env) (self : t) (obj : Group) (attrs : StreamAttrs)
    (user : Viewer) : result (gmap string value) :=
  result ← GroupSerializer.serialize env obj (bag attrs) user;
  result ←
    match period_of self with
    | Some period =>
        match stats attrs with
        | Some s => Ok (<["stats" := VDict {[period := s]}]> result)
        | None => Raise (KeyError "stats")
        end
    | None => Ok result
    end;
  if truthy (matching_event_id self)
  then Ok (<["matchingEventId" := matching_event_id self]> result)
  else Ok result.

End StreamGroupSerializer.

(** ** group.py: [TagBasedStreamGroupSerializer] *)

Module TagBasedStreamGroupSerializer.

(** A tag value row, as far as the serializer reads it. *)
Record TagValue := {
  tag_first_seen : Z;
  tag_last_seen : Z;
}.

Record t := {
  stream : StreamGroupSerializer.t;
  tags : gmap Z TagValue;
}.

Definition serialize (env : Env) (self : t) (obj : Group)
    (attrs : StreamGroupSerializer.StreamAttrs) (user : Viewer)
    : result (gmap string value) :=
  result ← StreamGroupSerializer.serialize env (stream self) obj attrs user;
  last ← StreamGroupSerializer.getitem_int (tags self) (group_id obj);
  let result := <["tagLastSeen" := VDate (tag_last_seen last)]> result in
  first ← StreamGroupSerializer.getitem_int (tags self) (group_id obj);
  Ok (<["tagFirstSeen" := VDate (tag_first_seen first)]> result).

End TagBasedStreamGroupSerializer.

(** ** plugin.py: [PluginSerializer] and [PluginWithConfigSerializer] *)

(** A plugin object.  A capability the plugin may lack ([hasattr]) is an
    option; [get_release_doc_html] answers [None] when it raises
    [NotImplementedError]; [get_custom_contexts] may return nothing, and
    otherwise context classes read through their [type]. *)
Record PluginObject := {
  slug : string;
  get_title : value;
  get_short_title : value;
  get_plugin_type : value;
  can_disable : bool;
  is_testable : option bool;
  get_metadata : value;
  get_custom_contexts : option (option (list string));
  get_status : value;
  asset_key : option string;
  get_assets : list string;
  get_release_doc_html : option (string -> option string);
  is_enabled : Project -> bool;
  get_config : option Project -> Viewer -> list (gmap string value);
  plugin_options : Plugin;
}.

(** What [plugin.py] imports from the rest of the application. *)
Record PluginEnv := {
  plugin_text_of_container : value -> string;
  plugin_absolute_uri : string -> string;
  get_asset_url : string -> string -> string;
  get_value : option Project -> string -> option string;
  _get_webhook_url : option Project -> string -> string -> string;
}.

(** [[f(x) for x in l]] when [f] may raise: the first error ends it. *)
Fixpoint map_result {A B} (f : A -> result B) (l : list A) : result (list B) :=
  match l with
  | [] => Ok []
  | x :: rest => y ← f x; ys ← map_result f rest; Ok (y :: ys)
  end.

Module PluginSerializer.

Definition serialize (penv : PluginEnv) (project : option Project)
    (obj : PluginObject) (user : Viewer) : result (gmap string value) :=
  let doc :=
    match get_value penv project "sentry:release-token" with
    | Some release_token =>
        let webhook_url := _get_webhook_url penv project (slug obj) release_token in
        match get_release_doc_html obj with
        | Some render => default "" (render webhook_url)
        | None => ""
        end
    | None => ""
    end in
  let contexts : list value :=
    match get_custom_contexts obj with
    | Some found => VStr <$> default [] found
    | None => []
    end in
  name ← text_type (plugin_text_of_container penv) (get_title obj);
  shortName ← text_type (plugin_text_of_container penv) (get_short_title obj);
  let d : gmap string value :=
    <["doc" := VStr doc]>
    (<["assets" :=
         VList ((fun asset =>
                   VDict {["url" :=
                     VStr (plugin_absolute_uri penv
                             (get_asset_url penv
                                (match asset_key obj with
                                 | Some k => if String.eqb k "" then slug obj else k
                                 | None => slug obj
                                 end) asset))]})
                <$> get_assets obj)]>
    (<["status" := get_status obj]>
    (<["contexts" := VList contexts]>
    (<["metadata" := get_metadata obj]>
    (<["isTestable" := VBool (default false (is_testable obj))]>
    (<["canDisable" := VBool (can_disable obj)]>
    (<["type" := get_plugin_type obj]>
    (<["shortName" := VStr shortName]>
    (<["name" := VStr name]>
    {["id" := VStr (slug obj)]}))))))))) in
  Ok match project with
     | Some p => <["enabled" := VBool (is_enabled obj p)]> d
     | None => d
     end.

End PluginSerializer.

Module PluginWithConfigSerializer.

Definition serialize (penv : PluginEnv) (project : option Project)
    (obj : PluginObject) (user : Viewer) : result (gmap string value) :=
  d ← PluginSerializer.serialize penv project obj user;
  config ← map_result
             (serialize_field (plugin_text_of_container penv) project
                (plugin_options obj))
             (get_config obj project user);
  Ok (<["config" := VList (VDict <$> config)]> d).

End PluginWithConfigSerializer.

(** * Vocabulary of the properties *)

(** The viewer is logged in and belongs to the organization that owns the
    group. *)
Definition member_of_organization (env : Env) (user : Viewer) (obj : Group)
    : Prop :=
  exists u, user = Authenticated u
            /\ organization_id (organization obj)
               ∈ (organization_id <$> get_orgs env u).

(** The subscription rows of [user] for the group [gid]. *)
Definition subscription_records (st : Store) (user : User) (gid : Z)
    : list GroupSubscription :=
  filter (fun s => subscription_group_id s = gid
                   ∧ subscription_user_id s = user_id user)
         (GroupSubscription_objects st).

(** The stored [workflow:notifications] preference of [user] for a project,
    or for the null project: the value of the row for that scope (the last
    one, should the table hold several). *)
Definition stored_preference (st : Store) (user : User) (project : option Z)
    : option string :=
  option_value <$>
    last (filter (fun o => option_user_id o = user_id user
                           ∧ option_key o = "workflow:notifications"
                           ∧ option_project_id o = project)
                 (UserOption_objects st)).

(** The preference in force for a project: the project's own stored
    preference, or else the stored null-project default, or else
    [all_conversations]. *)
Definition effective_preference (env : Env) (st : Store) (user : User)
    (pid : Z) : string :=
  default (default (all_conversations env) (stored_preference st user None))
          (stored_preference st user (Some pid)).


(** The loop over [projects.items()] of [_get_subscriptions], with the flag
    of a project as a function of its id. *)
Definition assign_projects (is_subscribed : Z -> bool)
    (r : gmap Z subscription_entry)
    (items : list (Z * gset Z)) : gmap Z subscription_entry :=
  foldl (fun (r : gmap Z subscription_entry) '(pid, group_ids) =>
           foldl (fun (r : gmap Z subscription_entry) (gid : Z) =>
                    <[gid := Some (is_subscribed pid, None)]> r)
                 r (elements group_ids))
        r items.


(** ** The stages of [_get_subscriptions]

    The values the local variables of [_get_subscriptions] take, named so
    that the properties can speak about them. *)

Section SubscriptionStages.

Variable env : Env.
Variable st : Store.
Variable item_list : list Group.
Variable user : User.

(** The seeded [results]: every group of the batch unknown. *)
Definition seeded_results : gmap Z subscription_entry :=
  dict_of group_id (fun _ => None) item_list.

(** The subscription rows fetched for the batch. *)
Definition subscription_rows : list GroupSubscription :=
  filter (fun s => subscription_group_id s ∈ dom seeded_results
                   ∧ subscription_user_id s = user_id user)
         (GroupSubscription_objects st).

(** [results] after the loop over the subscription rows. *)
Definition recorded_results : gmap Z subscription_entry :=
  foldl (fun (r : gmap Z subscription_entry) (s : GroupSubscription) =>
           <[subscription_group_id s := Some (subscription_is_active s, Some s)]> r)
        seeded_results subscription_rows.

(** [projects] after the loop over the groups [l]. *)
Definition collect_projects (l : list Group) : gmap Z (gset Z) :=
  foldl (fun (p : gmap Z (gset Z)) (group : Group) =>
           match recorded_results !! group_id group with
           | Some None =>
               let pid := project_id (group_project group) in
               <[pid := default ∅ (p !! pid) ∪ {[group_id group]}]> p
           | _ => p
           end)
        ∅ l.

(** The [options] dictionary. *)
Definition notification_options : gmap (option Z) string :=
  dict_of option_project_id option_value
    (filter (fun o => (project_in (dom (collect_projects item_list)) (option_project_id o)
                       ∨ option_project_id o = None)
                      ∧ option_user_id o = user_id user
                      ∧ option_key o = "workflow:notifications")
            (UserOption_objects st)).

(** [is_subscribed] for a project of [projects]. *)
Definition project_flag (pid : Z) : bool :=
  bool_decide (default (default (all_conversations env) (notification_options !! None))
                       (notification_options !! Some pid)
               = all_conversations env).

End SubscriptionStages.

(** ** The dictionaries of [get_attrs] *)

(** [resolutions]: per group id, [(type, release version, actor id)]. *)
Definition resolutions_of (st : Store) (item_list : list Group)
    : gmap Z (option ResolutionType * option string * option Z) :=
  dict_of resolution_group_id
    (fun i => (resolution_type i, resolution_release_version i,
               resolution_actor_id i))
    (filter (fun i => in_item_list item_list (resolution_group_id i))
            (GroupResolution_objects st)).

(** [ignore_items]: per group id, its snooze. *)
Definition ignore_items_of (st : Store) (item_list : list Group)
    : gmap Z GroupSnooze :=
  dict_of snooze_group_id (fun g => g)
    (filter (fun g => in_item_list item_list (snooze_group_id g))
            (GroupSnooze_objects st)).

(** [actors]: per user id, the serialized active user. *)
Definition actors_of (env : Env) (st : Store) (item_list : list Group)
    (user : Viewer) : gmap Z value :=
  GroupSerializer.actors_for env st (resolutions_of st item_list)
    (ignore_items_of st item_list) user.

(** The user [aid] refers to exists and is active. *)
Definition active_user (st : Store) (aid : option Z) (u : User) : Prop :=
  u ∈ User_objects st /\ user_is_active u = true /\ aid = Some (user_id u).




(** ** Vocabulary of the further properties *)

(** The keys every serialized config entry has. *)
Definition field_keys : gset string :=
  {[ "name"; "label"; "type"; "required"; "help"; "placeholder"; "choices";
     "readonly"; "defaultValue"; "value" ]}.

(** The descriptor's [type] is the text "secret". *)
Definition is_secret (field : gmap string value) : bool :=
  eq_str (dict_get field "type" VNone) "secret".

(** [six.text_type] accepts the value: it is not a byte string with a byte
    above 127. *)
Definition decodes (v : value) : bool :=
  match v with
  | VStr s => all_ascii s
  | _ => true
  end.

(** The character [c] occurs in [s]. *)
Fixpoint occurs (c : ascii) (s : string) : bool :=
  match s with
  | EmptyString => false
  | String c' rest => Ascii.eqb c' c || occurs c rest
  end.

(** The same plugin object over other stored options. *)
Definition with_options (obj : PluginObject) (options : Plugin) : PluginObject :=
  {| slug := slug obj; get_title := get_title obj;
     get_short_title := get_short_title obj;
     get_plugin_type := get_plugin_type obj; can_disable := can_disable obj;
     is_testable := is_testable obj; get_metadata := get_metadata obj;
     get_custom_contexts := get_custom_contexts obj;
     get_status := get_status obj; asset_key := asset_key obj;
     get_assets := get_assets obj;
     get_release_doc_html := get_release_doc_html obj;
     is_enabled := is_enabled obj; get_config := get_config obj;
     plugin_options := options |}.

(** The label of a status, as the chain of tests of [serialize] orders
    them. *)
Definition label_of (status : GroupStatus) : string :=
  match status with
  | RESOLVED => "resolved"
  | IGNORED => "ignored"
  | PENDING_DELETION | DELETION_IN_PROGRESS => "pending_deletion"
  | PENDING_MERGE => "pending_merge"
  | UNRESOLVED => "unresolved"
  end.

(** An unresolved status becomes resolved once the group is past its
    auto-resolve window. *)
Definition resolve_by_age (env : Env) (obj : Group) (status : GroupStatus)
    : GroupStatus :=
  match status with
  | UNRESOLVED => if is_over_resolve_age env obj then RESOLVED else UNRESOLVED
  | _ => status
  end.

(** The status the label is chosen from: the stored one, reset by a snooze
    that no longer holds, resolved by age. *)
Definition effective_status (env : Env) (obj : Group) (attrs : Attrs)
    : GroupStatus :=
  resolve_by_age env obj
    match ignore_until attrs with
    | Some snooze =>
        if is_valid env snooze obj then group_status obj else UNRESOLVED
    | None => group_status obj
    end.

(** The snapshot entries that the details of a valid snooze read are
    there: [times_seen] for a count bound without window, [users_seen] for
    a user-count bound without window. *)
Definition snapshot_available (snooze : GroupSnooze) : Prop :=
  (truthy_int (snooze_count snooze)
   && negb (truthy_int (snooze_window snooze)) = true ->
   exists state seen, snooze_state snooze = Some state
                      /\ state !! "times_seen" = Some seen)
  /\ (truthy_int (snooze_user_count snooze)
      && negb (truthy_int (snooze_user_window snooze)) = true ->
      exists state seen, snooze_state snooze = Some state
                         /\ state !! "users_seen" = Some seen).

(** The series [get_attrs] of the stream serializer asks the time-series
    store for: up to [now], from [segments - 1] intervals before, rolled up
    by interval. *)
Definition stats_series (tsdb : StreamGroupSerializer.Tsdb) (now : Z)
    (choice : StreamGroupSerializer.StatsPeriod) (item_list : list Group)
    : gmap Z value :=
  StreamGroupSerializer.get_range tsdb (group_id <$> item_list) now
    (now - (StreamGroupSerializer.segments choice - 1)
           * StreamGroupSerializer.interval choice)
    (StreamGroupSerializer.interval choice).

(** The loop of the stream [get_attrs] that attaches the series. *)
Definition attach_stats (series : gmap Z value)
    (attrs : gmap Z StreamGroupSerializer.StreamAttrs) (item_list : list Group)
    : result (gmap Z StreamGroupSerializer.StreamAttrs) :=
  foldl (fun acc item =>
           attrs ← acc;
           a ← StreamGroupSerializer.getitem_int attrs (group_id item);
           s ← StreamGroupSerializer.getitem_int series (group_id item);
           Ok (<[group_id item :=
                  {| StreamGroupSerializer.bag := StreamGroupSerializer.bag a;
                     StreamGroupSerializer.stats := Some s |}]> attrs))
        (Ok attrs) item_list.

(** * Example data *)

(** The spec's scenario: a secret API key with a saved value, and two
    plugins that store different keys. *)
Definition api_key_field : gmap string value :=
  <["has_saved_value" := VBool true]>
  (<["type" := VStr "secret"]> {["name" := VStr "api_key"]}).

Definition plugin_storing (secret : string) : Plugin :=
  {| get_option := fun _ _ => VStr secret |}.

Definition no_text : value -> string := fun _ => "".


Definition example_org : Organization :=
  {| organization_id := 7; organization_slug := "acme" |}.

Definition example_project : Project :=
  {| project_id := 3; project_name := "Backend"; project_slug := "backend";
     project_organization := example_org |}.

(** A group seen five times, with the given id and stored status. *)
Definition example_group_with (gid : Z) (status : GroupStatus) : Group :=
  {| group_id := gid; group_project := example_project; group_status := status;
     times_seen := 5; num_comments := 0; first_seen := 100; last_seen := 200;
     active_at := None; group_title := "ValueError"; culprit := "app.views";
     logger := ""; level := 40; qualified_short_id := Some "BACKEND-1";
     event_type := "error"; event_metadata := VNone |}.

Definition example_group : GroupStatus -> Group := example_group_with 1.

(** A snooze of ten occurrences taken when the group had been seen three
    times, issued by user 11. *)
Definition example_snooze (window : option Z) : GroupSnooze :=
  {| snooze_group_id := 1; snooze_until := None; snooze_count := Some 10;
     snooze_window := window; snooze_user_count := None;
     snooze_user_window := None;
     snooze_state := Some (<["users_seen" := 0]> {["times_seen" := 3]});
     snooze_actor_id := Some 11 |}.

(** An environment whose snooze check and auto-resolve check are constant,
    and whose users all belong to [orgs]. *)
Definition example_env (valid over_age : bool) (orgs : list Organization) : Env :=
  {| text_of_container := no_text;
     all_conversations := "0";
     reason_comment := 1;
     reason_assigned := 2;
     reason_bookmark := 3;
     reason_status_change := 4;
     reason_mentioned := 6;
     LOG_LEVELS := <[40 := "error"]> {[30 := "warning"]};
     is_valid := fun _ _ => valid;
     is_over_resolve_age := fun _ => over_age;
     get_orgs := fun _ => orgs;
     reverse := fun name args => "/" +:+ name +:+ "/";
     absolute_uri := fun path => "http://testserver" +:+ path;
     serialize_user := fun _ u => VDict {["id" := VStr (pretty (user_id u))]};
     get_group_values_seen := fun _ _ => ∅;
     plugins_v1 := fun _ => [];
     plugins_v2 := fun _ => [] |}.

(** A hand-made attribute bag for [example_group]. *)
Definition example_attrs (snooze : option GroupSnooze) : Attrs :=
  {| assigned_to := VNone; is_bookmarked := false;
     subscription := Some (false, None); has_seen := false;
     annotations := [VStr "JIRA-1"]; user_count := 2;
     ignore_until := snooze; ignore_actor := None; resolution := None;
     resolution_actor := None; share_id := None |}.

Definition alice : User := {| user_id := 11; user_is_active := true |}.

Definition bob : User := {| user_id := 12; user_is_active := false |}.


(** Alice has unsubscribed from group 2 and keeps the [all_conversations]
    default; group 1 is snoozed by Alice and was resolved by Bob, whose
    account is no longer active. *)
Definition example_store : Store :=
  {| GroupSubscription_objects :=
       [{| subscription_group_id := 2; subscription_user_id := 11;
           subscription_is_active := false; subscription_reason := 1 |}];
     UserOption_objects :=
       [{| option_user_id := 11; option_project_id := None;
           option_key := "workflow:notifications"; option_value := "0" |}];
     GroupBookmark_objects := [];
     GroupSeen_objects := [];
     GroupAssignee_objects := [];
     GroupSnooze_objects := [example_snooze None];
     GroupResolution_objects :=
       [{| resolution_group_id := 1; resolution_type := Some in_next_release;
           resolution_release_version := None;
           resolution_actor_id := Some 12 |}];
     User_objects := [alice; bob];
     GroupShare_objects := [] |}.

Definition example_batch : list Group :=
  [example_group_with 1 RESOLVED; example_group_with 2 UNRESOLVED].

(** A text field of a plugin whose name is "host_name". *)
Definition host_field : gmap string value :=
  <["label" := VStr "Host"]> {["name" := VStr "host_name"]}.

(** A descriptor without a name, and one whose name is a number. *)
Definition nameless_field : gmap string value := {["type" := VStr "text"]}.

Definition numbered_field : gmap string value := {["name" := VInt 7]}.

(** A descriptor whose help is the byte string of "cl" and the byte 233. *)
Definition accented_field : gmap string value :=
  <["help" := VStr (String "c" (String "l" (String (ascii_of_nat 233) "")))]>
  {["name" := VStr "key"]}.

Definition example_penv (token : option string) : PluginEnv :=
  {| plugin_text_of_container := no_text;
     plugin_absolute_uri := fun path => "http://testserver" +:+ path;
     get_asset_url := fun module path => "/_static/" +:+ module +:+ "/" +:+ path;
     get_value := fun _ _ => token;
     _get_webhook_url := fun _ plugin_slug t => "/hooks/" +:+ plugin_slug +:+ "/" +:+ t;
  |}.

(** A plugin with one asset and the given config fields, stored secret and
    release-doc capability. *)
Definition example_plugin (fields : list (gmap string value)) (secret : string)
    (render : option (string -> option string)) : PluginObject :=
  {| slug := "jira"; get_title := VStr "JIRA"; get_short_title := VStr "JIRA";
     get_plugin_type := VStr "issue-tracking"; can_disable := true;
     is_testable := None; get_metadata := VDict ∅;
     get_custom_contexts := Some None; get_status := VStr "beta";
     asset_key := None; get_assets := ["dist/jira.js"];
     get_release_doc_html := render;
     is_enabled := fun _ => true;
     get_config := fun _ _ => fields;
     plugin_options := plugin_storing secret |}.

(** A bag with a resolution in release "1.4" by a user that was found,
    under a snooze by another one. *)
Definition resolved_attrs (snooze : option GroupSnooze) : Attrs :=
  {| assigned_to := VNone; is_bookmarked := false;
     subscription := Some (false, None); has_seen := false;
     annotations := []; user_count := 2;
     ignore_until := snooze; ignore_actor := Some (VStr "snoozer");
     resolution := Some (Some in_release, Some "1.4", Some 12);
     resolution_actor := Some (VStr "resolver"); share_id := Some "abc" |}.

(** A snooze of ten occurrences and five users, both without window, with
    the given snapshot. *)
Definition user_snooze (state : option (gmap string Z)) : GroupSnooze :=
  {| snooze_group_id := 1; snooze_until := None; snooze_count := Some 10;
     snooze_window := None; snooze_user_count := Some 5;
     snooze_user_window := None; snooze_state := state;
     snooze_actor_id := None |}.

(** The same snooze with a user window of 0, which counts as not set. *)
Definition zero_window_snooze : GroupSnooze :=
  {| snooze_group_id := 1; snooze_until := None; snooze_count := Some 10;
     snooze_window := None; snooze_user_count := Some 5;
     snooze_user_window := Some 0;
     snooze_state := Some (<["users_seen" := 1]> {["times_seen" := 3]});
     snooze_actor_id := None |}.




(** The example environment with the given version-2 plugins. *)
Definition env_with_plugins (plugins : list PluginV2) : Env :=
  {| text_of_container := no_text;
     all_conversations := "0";
     reason_comment := 1;
     reason_assigned := 2;
     reason_bookmark := 3;
     reason_status_change := 4;
     reason_mentioned := 6;
     LOG_LEVELS := ∅;
     is_valid := fun _ _ => true;
     is_over_resolve_age := fun _ => false;
     get_orgs := fun _ => [];
     reverse := fun name args => name;
     absolute_uri := fun path => path;
     serialize_user := fun _ u => VInt (user_id u);
     get_group_values_seen := fun _ _ => ∅;
     plugins_v1 := fun _ => [];
     plugins_v2 := fun _ => plugins |}.

Definition failing_plugin : PluginV2 := {| get_annotations := fun _ => None |}.

Definition jira_plugin : PluginV2 :=
  {| get_annotations := fun _ => Some [VStr "JIRA-1"] |}.

(** A time-series store that knows the groups 1 and 2. *)
Definition example_tsdb : StreamGroupSerializer.Tsdb :=
  {| StreamGroupSerializer.get_range := fun keys now start rollup =>
       <[2 := VList [VInt start; VInt rollup]]>
       {[1 := VList [VInt start; VInt rollup]]} |}.

Definition daily : StreamGroupSerializer.t :=
  {| StreamGroupSerializer.stats_period := Some "24h";
     StreamGroupSerializer.matching_event_id := VStr "e1" |}.

Definition plain_stream : StreamGroupSerializer.t :=
  {| StreamGroupSerializer.stats_period := None;
     StreamGroupSerializer.matching_event_id := VNone |}.

Definition stream_attrs (stats : option value)
    : StreamGroupSerializer.StreamAttrs :=
  {| StreamGroupSerializer.bag := example_attrs None;
     StreamGroupSerializer.stats := stats |}.

(** * Properties *)

(** ** The error monad and dictionary literals *)

Lemma bind_Ok {A B} (a : A) (f : A -> result B) : (Ok a ≫= f) = f a.
Proof. reflexivity. Qed.

Lemma bind_Raise {A B} (e : exn) (f : A -> result B) : (Raise e ≫= f) = Raise e.
Proof. reflexivity. Qed.

Lemma Ok_inj {A} (a b : A) : Ok a = Ok b -> a = b.
Proof. congruence. Qed.

(** Reads a key of a dictionary literal. *)
Ltac lookup_dict :=
  repeat (rewrite lookup_insert_ne by discriminate);
  rewrite lookup_insert_eq; reflexivity.

(** ** Text *)

Lemma is_ascii_to_upper c : is_ascii c = true -> is_ascii (to_upper c) = true.
Proof. destruct c as [[] [] [] [] [] [] [] []]; vm_compute; congruence. Qed.

Lemma is_ascii_to_lower c : is_ascii c = true -> is_ascii (to_lower c) = true.
Proof. destruct c as [[] [] [] [] [] [] [] []]; vm_compute; congruence. Qed.

Lemma all_ascii_title_from b (s : string) :
  all_ascii s = true -> all_ascii (title_from b s) = true.
Proof.
  revert b. induction s as [|c s IH]; intros b; [reflexivity|].
  cbn [all_ascii title_from]. intros [Hc Hs]%andb_prop.
  destruct (is_lower c); [|destruct (is_upper c)]; cbn [all_ascii];
    rewrite IH by exact Hs; destruct b;
    rewrite ?is_ascii_to_upper, ?is_ascii_to_lower, ?Hc by exact Hc;
    reflexivity.
Qed.

Lemma all_ascii_replace a b (s : string) :
  is_ascii b = true -> all_ascii s = true -> all_ascii (replace a b s) = true.
Proof.
  intros Hb. induction s as [|c s IH]; [reflexivity|].
  cbn [all_ascii replace]. intros [Hc Hs]%andb_prop. rewrite (IH Hs).
  destruct (Ascii.eqb c a); rewrite ?Hb, ?Hc; reflexivity.
Qed.

Section TextType.

Variable text_of_container : value -> string.

(** The text of a string is the string. *)
Lemma text_type_VStr (s t : string) :
  text_type text_of_container (VStr s) = Ok t -> t = s /\ all_ascii s = true.
Proof.
  cbn [text_type]. destruct (all_ascii s); [|discriminate].
  intros [= <-]. auto.
Qed.

(** Only a byte string with a byte above 127 has no text. *)
Lemma text_type_returns (v : value) :
  (forall s, v = VStr s -> all_ascii s = true) ->
  exists t, text_type text_of_container v = Ok t.
Proof.
  intros Hv. destruct v as [|[]| |s| | |]; cbn [text_type]; eauto.
  rewrite (Hv s eq_refl). eauto.
Qed.

Lemma text_type_raises (v : value) e :
  text_type text_of_container v = Raise e ->
  e = UnicodeDecodeError /\ exists s, v = VStr s /\ all_ascii s = false.
Proof.
  destruct v as [|[]| |s| | |]; cbn [text_type]; try discriminate.
  destruct (all_ascii s) eqn:Hs; [discriminate|].
  intros [= <-]. eauto.
Qed.

Lemma text_or_none_returns (field : gmap string value) (k : string) :
  (forall s, field !! k = Some (VStr s) -> all_ascii s = true) ->
  exists v, text_or_none text_of_container field k = Ok v.
Proof.
  intros Hk. unfold text_or_none, dict_get.
  destruct (field !! k) as [v|]; cbn [from_option id]; [|cbn [truthy]; eauto].
  destruct (truthy v); [|eauto].
  destruct (text_type_returns v) as (t & ->); [|rewrite bind_Ok; eauto].
  intros s ->. apply Hk. reflexivity.
Qed.

End TextType.

Section Decodes.

Variable text_of_container : value -> string.

Lemma decodes_true (v : value) :
  decodes v = true -> exists t, text_type text_of_container v = Ok t.
Proof.
  intros Hv. apply text_type_returns. intros s ->. exact Hv.
Qed.

(** What has no text is a byte string that is not empty. *)
Lemma decodes_false (v : value) :
  decodes v = false ->
  text_type text_of_container v = Raise UnicodeDecodeError
  /\ truthy v = true /\ exists s, v = VStr s.
Proof.
  destruct v as [|[]| |s| | |]; cbn [decodes text_type]; try discriminate.
  intros Hs. rewrite Hs. split; [reflexivity|]. split; [|eauto].
  destruct s; [discriminate Hs | reflexivity].
Qed.

Lemma text_or_none_decodes (field : gmap string value) (k : string) :
  decodes (dict_get field k VNone) = true ->
  exists v, text_or_none text_of_container field k = Ok v.
Proof.
  intros Hk. unfold text_or_none.
  destruct (truthy (dict_get field k VNone)); [|eauto].
  destruct (decodes_true _ Hk) as (t & ->). rewrite bind_Ok. eauto.
Qed.

Lemma text_or_none_undecodable (field : gmap string value) (k : string) :
  decodes (dict_get field k VNone) = false ->
  text_or_none text_of_container field k = Raise UnicodeDecodeError.
Proof.
  intros Hk. unfold text_or_none.
  destruct (decodes_false _ Hk) as (-> & -> & _). reflexivity.
Qed.

End Decodes.

(** ** Plugin config fields *)

Section SerializeField.

Variable text_of_container : value -> string.
Variable project : option Project.

Lemma secret_field_branch (field : gmap string value) :
  field !! "type" = Some (VStr "secret") ->
  negb (eq_str (dict_get field "type" VNone) "secret") = false.
Proof. intros Ht. unfold dict_get. rewrite Ht. reflexivity. Qed.

(** A descriptor is serialized when its name is ASCII text and its label,
    help and placeholder, where they are text, are ASCII. *)
Lemma serialize_field_returns plugin (field : gmap string value) n :
  field !! "name" = Some (VStr n) ->
  all_ascii n = true ->
  (forall k s, k = "label" \/ k = "help" \/ k = "placeholder" ->
               field !! k = Some (VStr s) -> all_ascii s = true) ->
  exists data, serialize_field text_of_container project plugin field = Ok data.
Proof.
  intros Hn Ha Hk. unfold serialize_field, getitem.
  rewrite Hn, bind_Ok. cbn [text_type]. rewrite Ha, bind_Ok.
  assert (exists label label_text,
            (if truthy (dict_get field "label" VNone)
             then Ok (dict_get field "label" VNone)
             else t ← str_title (VStr n); Ok (VStr (replace "_" " " t)))
            = Ok label
            /\ text_type text_of_container label = Ok label_text)
    as (label & label_text & -> & Hlabel).
  { destruct (truthy (dict_get field "label" VNone)).
    - destruct (text_type_returns text_of_container
                  (dict_get field "label" VNone)) as (t & Ht); [|eauto].
      unfold dict_get.
      destruct (field !! "label") as [v|] eqn:Hl; cbn [from_option id];
        [|intros s; discriminate].
      intros s ->. apply (Hk "label"); auto.
    - cbn [str_title]. rewrite !bind_Ok.
      destruct (text_type_returns text_of_container
                  (VStr (replace "_" " " (title n)))) as (t & Ht); [|eauto].
      intros s [= <-]. apply all_ascii_replace; [reflexivity|].
      apply all_ascii_title_from, Ha. }
  rewrite bind_Ok, Hlabel, bind_Ok.
  destruct (text_or_none_returns text_of_container field "help") as (h & ->);
    [intros s; apply Hk; auto|].
  destruct (text_or_none_returns text_of_container field "placeholder")
    as (p & ->); [intros s; apply Hk; auto|].
  rewrite !bind_Ok.
  destruct (negb (eq_str (dict_get field "type" VNone) "secret")); eauto.
Qed.

(** The entry of a secret field, whatever the plugin has stored. *)
Lemma serialize_field_secret plugin (field : gmap string value) data :
  field !! "type" = Some (VStr "secret") ->
  serialize_field text_of_container project plugin field = Ok data ->
  data !! "value" = Some VNone
  /\ data !! "has_saved_value"
     = Some (VBool (truthy (dict_get field "has_saved_value" (VBool false))))
  /\ data !! "prefix" = Some (dict_get field "prefix" (VStr "")).
Proof.
  intros Ht. unfold serialize_field.
  rewrite (secret_field_branch _ Ht).
  destruct (getitem field "name") as [name|];
    [rewrite bind_Ok | discriminate].
  destruct (text_type text_of_container name) as [name_text|];
    [rewrite bind_Ok | discriminate].
  destruct (if truthy (dict_get field "label" VNone) then _ else _) as [label|];
    [rewrite bind_Ok | discriminate].
  destruct (text_type text_of_container label) as [label_text|];
    [rewrite bind_Ok | discriminate].
  destruct (text_or_none text_of_container field "help") as [help|];
    [rewrite bind_Ok | discriminate].
  destruct (text_or_none text_of_container field "placeholder")
    as [placeholder|]; [rewrite bind_Ok | discriminate].
  intros Hd. apply Ok_inj in Hd. subst data.
  split; [lookup_dict|]. split; lookup_dict.
Qed.

End SerializeField.

Example serialize_field_api_key :
  serialize_field no_text None (plugin_storing "s3cr3t") api_key_field
  = Ok (<["prefix" := VStr ""]>
        (<["has_saved_value" := VBool true]>
        (<["value" := VNone]>
        (<["defaultValue" := VNone]>
        (<["readonly" := VBool false]>
        (<["choices" := VNone]>
        (<["placeholder" := VNone]>
        (<["help" := VNone]>
        (<["required" := VBool true]>
        (<["type" := VStr "secret"]>
        (<["label" := VStr "Api Key"]>
        {["name" := VStr "api_key"]}))))))))))).
Proof. reflexivity. Qed.

(** A text field of the same plugin does carry the stored option. *)
Example serialize_field_text_value :
  (serialize_field no_text None (plugin_storing "s3cr3t")
     {["name" := VStr "host_name"]}) ≫= (fun data => getitem data "value")
  = Ok (VStr "s3cr3t").
Proof. reflexivity. Qed.

(** C6: for a field descriptor of type "secret", the serialized entry does
    not depend on what the plugin has stored (the stored-option lookup is not
    made: two plugins with different stored options give the same result);
    the entry carries [has_saved_value], the truth value of the descriptor's
    own flag, false when the flag is absent, and [prefix], the descriptor's
    own prefix, the empty string when absent; its [value] stays [None].
    Such an entry is returned whenever the descriptor's name is ASCII text
    and its label, help and placeholder, where they are text, are ASCII. *)
Theorem secret_field_never_exposes_stored_value
    (text_of_container : value -> string) (project : option Project)
    (plugin plugin' : Plugin) (field : gmap string value) :
  field !! "type" = Some (VStr "secret") ->
  serialize_field text_of_container project plugin field
  = serialize_field text_of_container project plugin' field
  /\ (forall data,
        serialize_field text_of_container project plugin field = Ok data ->
        data !! "value" = Some VNone
        /\ data !! "has_saved_value"
           = Some (VBool (truthy (default (VBool false)
                                          (field !! "has_saved_value"))))
        /\ data !! "prefix" = Some (default (VStr "") (field !! "prefix")))
  /\ (forall n,
        field !! "name" = Some (VStr n) ->
        all_ascii n = true ->
        (forall k s, k = "label" \/ k = "help" \/ k = "placeholder" ->
                     field !! k = Some (VStr s) -> all_ascii s = true) ->
        exists data,
          serialize_field text_of_container project plugin field = Ok data).
Proof.
  intros Ht. split; [|split].
  - unfold serialize_field. rewrite (secret_field_branch _ Ht). reflexivity.
  - intros data Hd. exact (serialize_field_secret _ _ _ _ _ Ht Hd).
  - intros n Hn Ha Hk. exact (serialize_field_returns _ _ _ _ n Hn Ha Hk).
Qed.

Lemma secret_field_never_exposes_stored_value_witness :
  exists data,
    api_key_field !! "type" = Some (VStr "secret")
    /\ serialize_field no_text None (plugin_storing "s3cr3t") api_key_field
       = Ok data
    /\ serialize_field no_text None (plugin_storing "other") api_key_field
       = Ok data
    /\ data !! "value" = Some VNone
    /\ data !! "has_saved_value" = Some (VBool true)
    /\ data !! "prefix" = Some (VStr "").
Proof.
  destruct (secret_field_never_exposes_stored_value no_text None
              (plugin_storing "s3cr3t") (plugin_storing "other") api_key_field
              eq_refl) as (Hsame & Hentry & Hreturns).
  destruct (Hreturns "api_key" eq_refl eq_refl) as (data & Hdata).
  - intros k s [->|[->| ->]]; discriminate.
  - exists data. split; [reflexivity|]. split; [exact Hdata|].
    split; [rewrite <- Hsame; exact Hdata|]. exact (Hentry data Hdata).
Defined.

(** C9: the serialized entry of a field descriptor of type "secret" does
    have a [value] key, and the value under it is [None]. *)
Theorem secret_field_value_key_is_none
    (text_of_container : value -> string) (project : option Project)
    (plugin : Plugin) (field : gmap string value) data :
  field !! "type" = Some (VStr "secret") ->
  serialize_field text_of_container project plugin field = Ok data ->
  "value" ∈ dom data /\ data !! "value" = Some VNone.
Proof.
  intros Ht Hd.
  destruct (serialize_field_secret _ _ _ _ _ Ht Hd) as (Hv & _).
  split; [apply elem_of_dom; rewrite Hv; eauto | exact Hv].
Qed.

Lemma secret_field_value_key_is_none_witness :
  exists data,
    api_key_field !! "type" = Some (VStr "secret")
    /\ serialize_field no_text None (plugin_storing "s3cr3t") api_key_field
       = Ok data
    /\ "value" ∈ dom data /\ data !! "value" = Some VNone.
Proof.
  eexists. split; [reflexivity|]. split; [reflexivity|].
  apply (secret_field_value_key_is_none no_text None (plugin_storing "s3cr3t")
           api_key_field); reflexivity.
Defined.

(** ** The view composer *)

Section Serialize.

Variable env : Env.

(** What a successful [serialize] has put under the keys the properties
    below are about. *)
Lemma serialize_Ok obj attrs user out :
  GroupSerializer.serialize env obj attrs user = Ok out ->
  exists s p,
    GroupSerializer.snooze_check env obj attrs = Ok s
    /\ subscription attrs = Some p
    /\ out !! "status"
       = Some (VStr (GroupSerializer.label_status attrs
                       (GroupSerializer.auto_resolve env obj s)).1)
    /\ out !! "statusDetails"
       = Some (VDict (GroupSerializer.label_status attrs
                        (GroupSerializer.auto_resolve env obj s)).2)
    /\ out !! "permalink" = Some (GroupSerializer.permalink_for env obj user)
    /\ out !! "isSubscribed" = Some (VBool p.1)
    /\ out !! "subscriptionDetails"
       = Some (if p.1 then
                 match p.2 with
                 | Some sub =>
                     VDict {["reason" :=
                       VStr (default "unknown"
                               (GroupSerializer.SUBSCRIPTION_REASON_MAP env
                                  !! subscription_reason sub))]}
                 | None => VNone
                 end
               else VNone)
    /\ out !! "annotations" = Some (VList (annotations attrs)).
Proof.
  unfold GroupSerializer.serialize.
  destruct (GroupSerializer.snooze_check env obj attrs) as [s|];
    [rewrite bind_Ok | rewrite bind_Raise; discriminate].
  destruct (GroupSerializer.label_status attrs _) as [lbl sd] eqn:Hl.
  unfold GroupSerializer.unpack_subscription.
  destruct (subscription attrs) as [p|];
    [rewrite bind_Ok | rewrite bind_Raise; discriminate].
  intros Hout. apply Ok_inj in Hout. subst out. exists s, p. rewrite Hl.
  repeat (split; [first [reflexivity | lookup_dict]|]). lookup_dict.
Qed.

(** [serialize] succeeds as soon as the snooze details can be computed and
    the bag has a subscription entry. *)
Lemma serialize_total obj attrs user s p :
  GroupSerializer.snooze_check env obj attrs = Ok s ->
  subscription attrs = Some p ->
  exists out, GroupSerializer.serialize env obj attrs user = Ok out.
Proof.
  intros Hs Hp. unfold GroupSerializer.serialize. rewrite Hs, bind_Ok.
  destruct (GroupSerializer.label_status attrs _) as [lbl sd].
  rewrite Hp. unfold GroupSerializer.unpack_subscription. rewrite bind_Ok. eauto.
Qed.

Lemma snooze_check_invalid obj attrs snooze :
  ignore_until attrs = Some snooze ->
  is_valid env snooze obj = false ->
  GroupSerializer.snooze_check env obj attrs = Ok (UNRESOLVED, ∅).
Proof.
  intros Hi Hv. unfold GroupSerializer.snooze_check. rewrite Hi, Hv. reflexivity.
Qed.

(** The label chosen for an unresolved status, by age. *)
Lemma label_of_unresolved obj attrs details :
  (GroupSerializer.label_status attrs
     (GroupSerializer.auto_resolve env obj (UNRESOLVED, details))).1
  = if is_over_resolve_age env obj then "resolved" else "unresolved".
Proof.
  unfold GroupSerializer.auto_resolve, GroupSerializer.label_status.
  destruct (is_over_resolve_age env obj); reflexivity.
Qed.

End Serialize.

(** C1: when the group has a snooze record and the validity check of that
    record is false, the status is forced to unresolved before the label is
    chosen (whatever the stored status), and the serialized [status] label is
    "resolved" or "unresolved" by the auto-resolve check, never "ignored". *)
Theorem invalid_snooze_never_ignored
    (env : Env) (obj : Group) (attrs : Attrs) (user : Viewer)
    (snooze : GroupSnooze) (out : gmap string value) :
  ignore_until attrs = Some snooze ->
  is_valid env snooze obj = false ->
  GroupSerializer.serialize env obj attrs user = Ok out ->
  GroupSerializer.snooze_check env obj attrs = Ok (UNRESOLVED, ∅)
  /\ out !! "status"
     = Some (VStr (if is_over_resolve_age env obj
                   then "resolved" else "unresolved"))
  /\ out !! "status" <> Some (VStr "ignored").
Proof.
  intros Hi Hv Hout.
  pose proof (snooze_check_invalid env _ _ _ Hi Hv) as Hs.
  destruct (serialize_Ok env _ _ _ _ Hout) as (s & p & Hs' & _ & Hst & _).
  rewrite Hs in Hs'. injection Hs' as <-.
  rewrite label_of_unresolved in Hst.
  split; [exact Hs|]. split; [exact Hst|].
  rewrite Hst. destruct (is_over_resolve_age env obj); discriminate.
Qed.

Lemma invalid_snooze_never_ignored_witness :
  exists out,
    GroupSerializer.serialize (example_env false false []) (example_group IGNORED)
      (example_attrs (Some (example_snooze None))) AnonymousUser = Ok out
    /\ out !! "status" = Some (VStr "unresolved")
    /\ out !! "status" <> Some (VStr "ignored").
Proof.
  eexists. split; [reflexivity|].
  apply (invalid_snooze_never_ignored (example_env false false [])
           (example_group IGNORED) (example_attrs (Some (example_snooze None)))
           AnonymousUser (example_snooze None)); reflexivity.
Defined.

Section StatusDetails.

Variable env : Env.

(** The status that leaves the snooze check is unresolved exactly when the
    snooze no longer holds, or the stored status is unresolved. *)
Lemma snooze_check_unresolved obj attrs details :
  GroupSerializer.snooze_check env obj attrs = Ok (UNRESOLVED, details) ->
  (exists snooze, ignore_until attrs = Some snooze
                  /\ is_valid env snooze obj = false)
  \/ group_status obj = UNRESOLVED.
Proof.
  unfold GroupSerializer.snooze_check.
  destruct (ignore_until attrs) as [snooze|];
    [|intros H; apply Ok_inj in H; right; congruence].
  destruct (is_valid env snooze obj) eqn:Hv;
    [|intros _; left; exists snooze; split; [reflexivity | exact Hv]].
  destruct (if truthy_int (snooze_count snooze) && _ then _ else _);
    [rewrite bind_Ok | rewrite bind_Raise; discriminate].
  destruct (if truthy_int (snooze_user_count snooze) && _ then _ else _);
    [rewrite bind_Ok | rewrite bind_Raise; discriminate].
  intros H. apply Ok_inj in H. right. congruence.
Qed.

(** The later stages only write [autoResolved], [inNextRelease], [inRelease]
    and [actor]: every other detail is the one the snooze check left. *)
Lemma later_stages_frame obj attrs s (k : string) :
  k <> "autoResolved" -> k <> "inNextRelease" -> k <> "inRelease" ->
  k <> "actor" ->
  (GroupSerializer.label_status attrs
     (GroupSerializer.auto_resolve env obj s)).2 !! k = s.2 !! k.
Proof.
  intros Ha Hn Hr Hc. destruct s as [status details].
  unfold GroupSerializer.auto_resolve, GroupSerializer.label_status.
  repeat first
    [ progress cbn [fst snd]
    | rewrite lookup_insert_ne by congruence
    | reflexivity
    | match goal with
      | |- context [if ?b then _ else _] => destruct b
      | |- context [match ?o with Some _ => _ | None => _ end] => destruct o
      | |- context [let '(_, _) := ?p in _] => destruct p
      end ].
Qed.

(** An unresolved group past its auto-resolve window. *)
Lemma auto_resolved_details obj attrs details :
  is_over_resolve_age env obj = true ->
  exists sd,
    GroupSerializer.label_status attrs
      (GroupSerializer.auto_resolve env obj (UNRESOLVED, details))
    = ("resolved", sd)
    /\ sd !! "autoResolved" = Some (VBool true).
Proof.
  intros Hage. unfold GroupSerializer.auto_resolve, GroupSerializer.label_status.
  rewrite Hage. eexists. split; [reflexivity|].
  repeat first
    [ progress cbn [fst snd]
    | rewrite lookup_insert_ne by discriminate
    | rewrite lookup_insert_eq; reflexivity
    | match goal with
      | |- context [if ?b then _ else _] => destruct b
      | |- context [match ?o with Some _ => _ | None => _ end] => destruct o
      | |- context [let '(_, _) := ?p in _] => destruct p
      end ].
Qed.

(** The [ignoreCount] a valid snooze contributes. *)
Lemma snooze_check_ignore_count obj attrs snooze s :
  ignore_until attrs = Some snooze ->
  is_valid env snooze obj = true ->
  GroupSerializer.snooze_check env obj attrs = Ok s ->
  exists v,
    s.2 !! "ignoreCount" = Some v
    /\ (if truthy_int (snooze_count snooze)
           && negb (truthy_int (snooze_window snooze))
        then seen ← GroupSerializer.state_getitem snooze "times_seen";
             Ok (VInt (GroupSerializer.int_of (snooze_count snooze)
                       - (times_seen obj - seen)))
        else Ok (of_option_int (snooze_count snooze)))
       = Ok v.
Proof.
  intros Hi Hv. unfold GroupSerializer.snooze_check. rewrite Hi, Hv.
  destruct (if truthy_int (snooze_count snooze) && _ then _ else _) as [v|];
    [rewrite bind_Ok | rewrite bind_Raise; discriminate].
  destruct (if truthy_int (snooze_user_count snooze) && _ then _ else _);
    [rewrite bind_Ok | rewrite bind_Raise; discriminate].
  intros H. apply Ok_inj in H. subst s. cbn [snd]. exists v.
  split; [|reflexivity].
  repeat (rewrite lookup_insert_ne by discriminate).
  apply lookup_insert_eq.
Qed.

End StatusDetails.

(** C4: when the status that leaves the snooze check is unresolved and the
    group is past its auto-resolve window, the serialized [status] is
    "resolved" and [statusDetails.autoResolved] is true. *)
Theorem unresolved_over_age_is_auto_resolved
    (env : Env) (obj : Group) (attrs : Attrs) (user : Viewer)
    (details out : gmap string value) :
  GroupSerializer.snooze_check env obj attrs = Ok (UNRESOLVED, details) ->
  is_over_resolve_age env obj = true ->
  GroupSerializer.serialize env obj attrs user = Ok out ->
  out !! "status" = Some (VStr "resolved")
  /\ exists sd, out !! "statusDetails" = Some (VDict sd)
                /\ sd !! "autoResolved" = Some (VBool true).
Proof.
  intros Hs Hage Hout.
  destruct (serialize_Ok env _ _ _ _ Hout) as (s & p & Hs' & _ & Hst & Hsd & _).
  rewrite Hs in Hs'. apply Ok_inj in Hs'. subst s.
  destruct (auto_resolved_details env obj attrs details Hage) as (sd & Hl & Ha).
  rewrite Hl in Hst, Hsd. split; [exact Hst|]. exists sd. split; assumption.
Qed.

Lemma unresolved_over_age_is_auto_resolved_witness :
  exists out,
    GroupSerializer.serialize (example_env false true []) (example_group IGNORED)
      (example_attrs (Some (example_snooze None))) AnonymousUser = Ok out
    /\ out !! "status" = Some (VStr "resolved")
    /\ exists sd, out !! "statusDetails" = Some (VDict sd)
                  /\ sd !! "autoResolved" = Some (VBool true).
Proof.
  eexists. split; [reflexivity|].
  apply (unresolved_over_age_is_auto_resolved (example_env false true [])
           (example_group IGNORED) (example_attrs (Some (example_snooze None)))
           AnonymousUser ∅); reflexivity.
Defined.

(** C5: for a group under a valid snooze with a non-zero count bound,
    [statusDetails.ignoreCount] is the bound minus the occurrences since the
    snooze (bound - (times_seen - snapshot times_seen)) when no window is
    set, and the stored bound itself when a rolling window is set.  With
    times_seen 5, bound 10 and snapshot 3 this is 10 - (5 - 3) = 8. *)
Theorem ignore_count_is_remaining_delta
    (env : Env) (obj : Group) (attrs : Attrs) (user : Viewer)
    (snooze : GroupSnooze) (bound : Z) (out : gmap string value) :
  ignore_until attrs = Some snooze ->
  is_valid env snooze obj = true ->
  snooze_count snooze = Some bound ->
  bound <> 0 ->
  GroupSerializer.serialize env obj attrs user = Ok out ->
  exists sd,
    out !! "statusDetails" = Some (VDict sd)
    /\ (snooze_window snooze = None ->
        exists state seen,
          snooze_state snooze = Some state
          /\ state !! "times_seen" = Some seen
          /\ sd !! "ignoreCount" = Some (VInt (bound - (times_seen obj - seen))))
    /\ (forall window,
          snooze_window snooze = Some window -> window <> 0 ->
          sd !! "ignoreCount" = Some (VInt bound)).
Proof.
  intros Hi Hv Hc Hb Hout.
  destruct (serialize_Ok env _ _ _ _ Hout) as (s & p & Hs & _ & _ & Hsd & _).
  eexists. split; [exact Hsd|].
  assert (Hframe := later_stages_frame env obj attrs s "ignoreCount").
  rewrite Hframe by discriminate. clear Hframe.
  destruct (snooze_check_ignore_count env _ _ _ _ Hi Hv Hs) as (v & Hv' & Hic).
  rewrite Hv'. rewrite Hc in Hic. unfold truthy_int at 1 in Hic.
  apply Z.eqb_neq in Hb. rewrite Hb in Hic. cbn [negb andb] in Hic. split.
  - intros Hw. rewrite Hw in Hic. cbn [truthy_int negb] in Hic.
    unfold GroupSerializer.state_getitem, getitem in Hic.
    destruct (snooze_state snooze) as [state|];
      [|rewrite bind_Raise in Hic; discriminate].
    destruct (state !! "times_seen") as [seen|] eqn:Hseen;
      [rewrite bind_Ok in Hic | rewrite bind_Raise in Hic; discriminate].
    exists state, seen. split; [reflexivity|]. split; [exact Hseen|].
    apply Ok_inj in Hic. subst v. reflexivity.
  - intros window Hw Hnz. rewrite Hw in Hic. cbn [truthy_int] in Hic.
    apply Z.eqb_neq in Hnz. rewrite Hnz in Hic. cbn [negb of_option_int] in Hic.
    apply Ok_inj in Hic. subst v. reflexivity.
Qed.

Lemma ignore_count_is_remaining_delta_witness :
  times_seen (example_group IGNORED) = 5
  /\ snooze_count (example_snooze None) = Some 10
  /\ snooze_window (example_snooze None) = None
  /\ snooze_state (example_snooze None) ≫= (.!! "times_seen") = Some 3
  /\ exists out sd,
       GroupSerializer.serialize (example_env true false [])
         (example_group IGNORED) (example_attrs (Some (example_snooze None)))
         AnonymousUser = Ok out
       /\ out !! "statusDetails" = Some (VDict sd)
       /\ sd !! "ignoreCount" = Some (VInt 8).
Proof.
  do 4 (split; [reflexivity|]).
  destruct (ignore_count_is_remaining_delta (example_env true false [])
              (example_group IGNORED)
              (example_attrs (Some (example_snooze None))) AnonymousUser
              (example_snooze None) 10 _
              eq_refl eq_refl eq_refl ltac:(discriminate) eq_refl)
    as (sd & Hsd & Hdelta & _).
  eexists. exists sd. split; [reflexivity|]. split; [exact Hsd|].
  destruct (Hdelta eq_refl) as (state & seen & Hstate & Hseen & Hcount).
  injection Hstate as <-. vm_compute in Hseen. injection Hseen as <-.
  exact Hcount.
Defined.

(** With a rolling window of sixty minutes the stored bound is echoed. *)
Example ignore_count_with_window :
  (GroupSerializer.snooze_check (example_env true false [])
     (example_group IGNORED) (example_attrs (Some (example_snooze (Some 60)))))
  ≫= (fun s => getitem s.2 "ignoreCount")
  = Ok (VInt 10).
Proof. reflexivity. Qed.

(** C7: the serialized [permalink] is a link when the viewer is logged in
    and belongs to the organization that owns the group, and [None] in every
    other case; so it is not [None] only for such a viewer. *)
Theorem permalink_only_for_organization_members
    (env : Env) (obj : Group) (attrs : Attrs) (user : Viewer)
    (out : gmap string value) :
  GroupSerializer.serialize env obj attrs user = Ok out ->
  (member_of_organization env user obj ->
   exists url, out !! "permalink" = Some (VStr url))
  /\ (~ member_of_organization env user obj ->
      out !! "permalink" = Some VNone)
  /\ (out !! "permalink" <> Some VNone ->
      member_of_organization env user obj).
Proof.
  intros Hout.
  destruct (serialize_Ok env _ _ _ _ Hout) as (_ & _ & _ & _ & _ & _ & Hp & _).
  rewrite Hp. unfold GroupSerializer.permalink_for, member_of_organization.
  destruct user as [|u].
  - split; [intros (u & [=] & _)|]. split; [reflexivity | congruence].
  - case_bool_decide as Hm.
    + split; [eauto|]. split; [|eauto].
      intros Hn. exfalso. apply Hn. eauto.
    + assert (~ exists u0, Authenticated u = Authenticated u0
                /\ organization_id (organization obj)
                   ∈ (organization_id <$> get_orgs env u0)) as Hno
        by (intros (u0 & [= <-] & Hin); contradiction).
      split; [intros H; contradiction|]. split; [reflexivity | congruence].
Qed.

Lemma permalink_only_for_organization_members_witness :
  exists out,
    GroupSerializer.serialize (example_env true false []) (example_group RESOLVED)
      (example_attrs None) (Authenticated alice) = Ok out
    /\ ~ member_of_organization (example_env true false [])
           (Authenticated alice) (example_group RESOLVED)
    /\ out !! "permalink" = Some VNone.
Proof.
  eexists. split; [reflexivity|].
  assert (~ member_of_organization (example_env true false [])
              (Authenticated alice) (example_group RESOLVED)) as Hno
    by (intros (u & _ & Hin); vm_compute in Hin; inversion Hin).
  split; [exact Hno|].
  apply (permalink_only_for_organization_members (example_env true false [])
           (example_group RESOLVED) (example_attrs None) (Authenticated alice));
    [reflexivity | exact Hno].
Defined.

(** A member of the owning organization does get the link. *)
Example permalink_of_member :
  (GroupSerializer.serialize (example_env true false [example_org])
     (example_group RESOLVED) (example_attrs None) (Authenticated alice))
  ≫= (fun out => getitem out "permalink")
  = Ok (VStr "http://testserver/sentry-group/").
Proof. reflexivity. Qed.

(** C8: the shared composer returns the record of the base composer with
    the [annotations] key deleted: the key is gone, every other key keeps its
    value, and an error of the base composer is passed on. *)
Theorem shared_view_is_base_without_annotations
    (env : Env) (obj : Group) (attrs : Attrs) (user : Viewer) :
  match GroupSerializer.serialize env obj attrs user with
  | Ok base =>
      exists shared,
        SharedGroupSerializer.serialize env obj attrs user = Ok shared
        /\ shared = delete "annotations" base
        /\ shared !! "annotations" = None
        /\ forall k : string, k <> "annotations" -> shared !! k = base !! k
  | Raise e => SharedGroupSerializer.serialize env obj attrs user = Raise e
  end.
Proof.
  unfold SharedGroupSerializer.serialize.
  destruct (GroupSerializer.serialize env obj attrs user) as [base|e] eqn:Hb;
    [rewrite bind_Ok | rewrite bind_Raise; reflexivity].
  destruct (serialize_Ok env _ _ _ _ Hb) as (_ & _ & _ & _ & _ & _ & _ & _ & _ & Ha).
  unfold delitem. rewrite Ha. eexists. split; [reflexivity|].
  split; [reflexivity|]. split; [apply lookup_delete_eq|].
  intros k Hk. apply lookup_delete_ne. congruence.
Qed.

Example shared_view_of_example_group :
  (SharedGroupSerializer.serialize (example_env true false [])
     (example_group RESOLVED) (example_attrs None) AnonymousUser)
  ≫= (fun out => Ok (out !! "annotations", out !! "status"))
  = Ok (None, Some (VStr "resolved")).
Proof. vm_compute. reflexivity. Qed.

(** ** Dictionaries built by loops *)

Section Folds.

Context `{Countable K} {A V : Type}.

(** A loop of assignments [d[key(x)] = val(x)]: a key holds the value of
    the last row that wrote it, or what it held before the loop. *)
Lemma foldl_insert_lookup (key : A -> K) (val : A -> V) (rows : list A)
    (m : gmap K V) (k : K) :
  foldl (fun d x => <[key x := val x]> d) m rows !! k
  = match last (filter (fun x => key x = k) rows) with
    | Some x => Some (val x)
    | None => m !! k
    end.
Proof.
  induction rows as [|x rows IH] using rev_ind; [reflexivity|].
  rewrite foldl_app, filter_app, filter_cons, filter_nil. cbn [foldl].
  destruct (decide (key x = k)) as [Hk|Hk].
  - rewrite last_snoc, <- Hk. apply lookup_insert_eq.
  - rewrite app_nil_r, lookup_insert_ne by exact Hk. exact IH.
Qed.

Lemma dict_of_lookup (key : A -> K) (val : A -> V) (rows : list A) (k : K) :
  dict_of key val rows !! k = val <$> last (filter (fun x => key x = k) rows).
Proof.
  unfold dict_of. rewrite foldl_insert_lookup, lookup_empty.
  destruct (last _); reflexivity.
Qed.

Lemma dict_of_lookup_Some (key : A -> K) (val : A -> V) rows k v :
  dict_of key val rows !! k = Some v ->
  exists x, x ∈ rows /\ key x = k /\ val x = v.
Proof.
  rewrite dict_of_lookup.
  destruct (last _) as [x|] eqn:Hl; [|discriminate].
  intros [= <-]. apply last_Some_elem_of, list_elem_of_filter in Hl.
  exists x. tauto.
Qed.

Lemma dict_of_lookup_elem (key : A -> K) (val : A -> V) rows x :
  x ∈ rows -> is_Some (dict_of key val rows !! key x).
Proof.
  intros Hx. rewrite dict_of_lookup.
  destruct (last _) as [y|] eqn:Hl; [eauto|].
  apply last_None in Hl.
  assert (x ∈ filter (fun y => key y = key x) rows) as Hin
    by (apply list_elem_of_filter; auto).
  rewrite Hl in Hin. inversion Hin.
Qed.

End Folds.

(** The rows of [zip l (f <$> l)] pair an element with its image. *)
Lemma elem_of_zip_fmap {A B} (f : A -> B) (l : list A) (p : A * B) :
  p ∈ zip l (f <$> l) -> p.1 ∈ l /\ p.2 = f p.1.
Proof.
  induction l as [|x l IH]; cbn; [inversion 1|].
  intros Hp. apply elem_of_cons in Hp as [->|Hp].
  - split; [left | reflexivity].
  - destruct (IH Hp). split; [right|]; assumption.
Qed.

(** ** The subscription resolver *)

(** A loop [for gid in gids: r[gid] = v]. *)
Lemma foldl_assign_lookup {V} (v : V) (gids : list Z) (r : gmap Z V) (k : Z) :
  foldl (fun r gid => <[gid := v]> r) r gids !! k
  = if decide (k ∈ gids) then Some v else r !! k.
Proof.
  revert r. induction gids as [|g gids IH]; intros r; cbn [foldl].
  - rewrite decide_False by apply not_elem_of_nil. reflexivity.
  - rewrite IH. destruct (decide (k ∈ gids)) as [Hin|Hin].
    + rewrite decide_True by (right; exact Hin). reflexivity.
    + destruct (decide (k = g)) as [->|Hne].
      * rewrite decide_True by left. apply lookup_insert_eq.
      * rewrite decide_False by (rewrite elem_of_cons; tauto).
        apply lookup_insert_ne. congruence.
Qed.

Section ProjectLoop.

Variable is_subscribed : Z -> bool.

Local Abbreviation assign_projects := (assign_projects is_subscribed).

(** A group id that no project lists keeps its entry. *)
Lemma assign_projects_other r items gid :
  (forall pid gids, (pid, gids) ∈ items -> gid ∉ gids) ->
  assign_projects r items !! gid = r !! gid.
Proof.
  unfold assign_projects. induction items as [|[pid gids] items IH] using rev_ind;
    intros Hno; [reflexivity|].
  rewrite foldl_app. cbn [foldl]. rewrite foldl_assign_lookup.
  rewrite decide_False.
  - apply IH. intros pid' gids' Hin. apply (Hno pid' gids'), elem_of_app. now left.
  - rewrite elem_of_elements. apply (Hno pid gids), elem_of_app. right. left.
Qed.

(** A group id that some project lists gets the flag of such a project. *)
Lemma assign_projects_listed r items gid pid gids :
  (pid, gids) ∈ items -> gid ∈ gids ->
  exists pid' gids',
    (pid', gids') ∈ items /\ gid ∈ gids'
    /\ assign_projects r items !! gid = Some (Some (is_subscribed pid', None)).
Proof.
  unfold assign_projects. revert pid gids.
  induction items as [|[pid0 gids0] items IH] using rev_ind;
    intros pid gids Hin Hgid; [inversion Hin|].
  rewrite foldl_app. cbn [foldl]. rewrite foldl_assign_lookup.
  destruct (decide (gid ∈ elements gids0)) as [Hlast|Hlast].
  - exists pid0, gids0. rewrite elem_of_elements in Hlast.
    split; [apply elem_of_app; right; left|]. split; [exact Hlast | reflexivity].
  - apply elem_of_app in Hin as [Hin|Hin].
    + destruct (IH pid gids Hin Hgid) as (pid' & gids' & Hin' & Hg' & Hl).
      exists pid', gids'. split; [apply elem_of_app; now left|].
      split; assumption.
    + apply list_elem_of_singleton in Hin. injection Hin as -> ->.
      rewrite elem_of_elements in Hlast. contradiction.
Qed.

End ProjectLoop.

Section GetSubscriptions.

Variable env : Env.
Variable st : Store.
Variable item_list : list Group.
Variable user : User.

Local Abbreviation seeded := (seeded_results item_list).
Local Abbreviation records := (subscription_rows st item_list user).
Local Abbreviation recorded := (recorded_results st item_list user).
Local Abbreviation collect := (collect_projects st item_list user).
Local Abbreviation options := (notification_options st item_list user).
Local Abbreviation flag := (project_flag env st item_list user).

Lemma get_subscriptions_stages :
  GroupSerializer._get_subscriptions env st item_list user
  = if bool_decide (collect item_list = ∅) then recorded
    else assign_projects flag recorded (map_to_list (collect item_list)).
Proof. reflexivity. Qed.

Lemma seeded_lookup gid :
  in_item_list item_list gid -> seeded !! gid = Some None.
Proof.
  intros Hin. unfold seeded_results. rewrite dict_of_lookup.
  destruct (last _) as [g|] eqn:Hl; [reflexivity|].
  apply last_None in Hl. unfold in_item_list in Hin.
  apply list_elem_of_fmap in Hin as (g & -> & Hg).
  assert (g ∈ filter (fun x => group_id x = group_id g) item_list) as Hf
    by (apply list_elem_of_filter; auto).
  rewrite Hl in Hf. inversion Hf.
Qed.

Lemma seeded_lookup_None gid :
  ~ in_item_list item_list gid -> seeded !! gid = None.
Proof.
  intros Hin. unfold seeded_results. rewrite dict_of_lookup.
  destruct (last _) as [g|] eqn:Hl; [|reflexivity].
  apply last_Some_elem_of, list_elem_of_filter in Hl as [Hid Hg].
  exfalso. apply Hin. unfold in_item_list. rewrite <- Hid.
  apply list_elem_of_fmap_2, Hg.
Qed.

(** The rows that reach a group's entry are its subscription records. *)
Lemma records_of_group gid :
  in_item_list item_list gid ->
  filter (fun s => subscription_group_id s = gid) records
  = subscription_records st user gid.
Proof.
  intros Hin. unfold subscription_rows, subscription_records.
  rewrite list_filter_filter. apply list_filter_iff. intros s.
  split; [tauto|]. intros [Hg Hu]. repeat split; try assumption.
  rewrite Hg. apply elem_of_dom. rewrite (seeded_lookup _ Hin). eauto.
Qed.

(** After the loop over the subscription rows, a group holds its (last)
    record, or is still unknown. *)
Lemma recorded_lookup gid :
  in_item_list item_list gid ->
  recorded !! gid
  = Some (match last (subscription_records st user gid) with
          | Some s => Some (subscription_is_active s, Some s)
          | None => None
          end).
Proof.
  intros Hin. unfold recorded_results.
  rewrite (foldl_insert_lookup subscription_group_id
             (fun s => Some (subscription_is_active s, Some s))).
  rewrite (records_of_group _ Hin).
  destruct (last _); [reflexivity | apply seeded_lookup, Hin].
Qed.

(** [projects]: a project lists exactly the ids of its groups of the batch
    that are still unknown. *)
Lemma collect_spec (l : list Group) pid gid :
  (exists gids, collect l !! pid = Some gids /\ gid ∈ gids)
  <-> exists g, g ∈ l /\ group_id g = gid
                /\ project_id (group_project g) = pid
                /\ recorded !! gid = Some None.
Proof.
  unfold collect_projects. induction l as [|g l IH] using rev_ind.
  - cbn. split.
    + intros (gids & Hl & _). rewrite lookup_empty in Hl. discriminate.
    + intros (g & Hg & _). inversion Hg.
  - rewrite foldl_app. cbn [foldl].
    set (p := foldl _ ∅ l) in *.
    destruct (recorded !! group_id g) as [[e|]|] eqn:Hrec.
    + rewrite IH. split; intros (g' & Hg' & Hid & Hp & Hr); exists g'.
      * repeat split; try assumption. apply elem_of_app. now left.
      * repeat split; try assumption.
        apply elem_of_app in Hg' as [Hg'|Hg']; [assumption|].
        apply list_elem_of_singleton in Hg'. subst g'.
        rewrite Hid, Hr in Hrec. discriminate.
    + split.
      * intros (gids & Hl & Hgid).
        destruct (decide (project_id (group_project g) = pid)) as [Hp|Hp].
        -- rewrite Hp, lookup_insert_eq in Hl. injection Hl as <-.
           apply elem_of_union in Hgid as [Hgid|Hgid].
           ++ destruct (p !! pid) as [gids|] eqn:Hpp; cbn in Hgid;
                [|apply not_elem_of_empty in Hgid; contradiction].
              destruct (proj1 IH) as (g' & Hg' & Hrest); [eauto|].
              exists g'. split; [apply elem_of_app; now left | exact Hrest].
           ++ apply elem_of_singleton in Hgid. subst gid. exists g.
              split; [apply elem_of_app; right; left|]. auto.
        -- rewrite lookup_insert_ne in Hl by exact Hp.
           destruct (proj1 IH) as (g' & Hg' & Hrest); [eauto|].
           exists g'. split; [apply elem_of_app; now left | exact Hrest].
      * intros (g' & Hg' & Hid & Hp & Hr).
        apply elem_of_app in Hg' as [Hg'|Hg'].
        -- destruct (proj2 IH) as (gids & Hl & Hgid); [eauto 6|].
           destruct (decide (project_id (group_project g) = pid)) as [Hp'|Hp'].
           ++ rewrite Hp', lookup_insert_eq, Hl. eexists. split; [reflexivity|].
              apply elem_of_union. now left.
           ++ rewrite lookup_insert_ne by exact Hp'. eauto.
        -- apply list_elem_of_singleton in Hg'. subst g'.
           rewrite Hp, lookup_insert_eq. eexists. split; [reflexivity|].
           apply elem_of_union. right. apply elem_of_singleton. auto.
    + rewrite IH. split; intros (g' & Hg' & Hid & Hp & Hr); exists g'.
      * repeat split; try assumption. apply elem_of_app. now left.
      * repeat split; try assumption.
        apply elem_of_app in Hg' as [Hg'|Hg']; [assumption|].
        apply list_elem_of_singleton in Hg'. subst g'.
        rewrite Hid, Hr in Hrec. discriminate.
Qed.


(** The [options] dictionary holds the stored preferences of the null
    project and of the projects of [projects]. *)
Lemma options_lookup_default :
  options !! None = stored_preference st user None.
Proof.
  unfold notification_options, stored_preference. rewrite dict_of_lookup.
  rewrite list_filter_filter. f_equal. f_equal.
  apply list_filter_iff. intros o. split; [tauto|].
  intros (Hu & Hk & Hp). auto.
Qed.

Lemma options_lookup_project pid :
  pid ∈ dom (collect item_list) ->
  options !! Some pid = stored_preference st user (Some pid).
Proof.
  intros Hdom. unfold notification_options, stored_preference.
  rewrite dict_of_lookup, list_filter_filter. f_equal. f_equal.
  apply list_filter_iff. intros o. split; [tauto|].
  intros (Hu & Hk & Hp). repeat split; try assumption.
  left. rewrite Hp. exact Hdom.
Qed.

Lemma project_flag_spec pid :
  pid ∈ dom (collect item_list) ->
  flag pid
  = bool_decide (effective_preference env st user pid = all_conversations env).
Proof.
  intros Hdom. unfold project_flag, effective_preference.
  rewrite options_lookup_default, (options_lookup_project _ Hdom). reflexivity.
Qed.

(** A group with a subscription record gets that record and its flag. *)
Lemma get_subscriptions_record gid s :
  in_item_list item_list gid ->
  last (subscription_records st user gid) = Some s ->
  GroupSerializer._get_subscriptions env st item_list user !! gid
  = Some (Some (subscription_is_active s, Some s)).
Proof.
  intros Hin Hlast. rewrite get_subscriptions_stages.
  assert (recorded !! gid = Some (Some (subscription_is_active s, Some s)))
    as Hrec by (rewrite (recorded_lookup _ Hin), Hlast; reflexivity).
  case_bool_decide; [exact Hrec|].
  rewrite assign_projects_other; [exact Hrec|].
  intros pid gids Hitem Hgid. apply elem_of_map_to_list in Hitem.
  destruct (proj1 (collect_spec item_list pid gid)) as (g & _ & _ & _ & Hnone);
    [eauto|].
  rewrite Hrec in Hnone. discriminate.
Qed.

(** A group without a subscription record gets the flag of a project that
    a group of the batch with the same id belongs to. *)
Lemma get_subscriptions_no_record gid :
  in_item_list item_list gid ->
  subscription_records st user gid = [] ->
  exists g,
    g ∈ item_list /\ group_id g = gid
    /\ GroupSerializer._get_subscriptions env st item_list user !! gid
       = Some (Some
           (bool_decide (effective_preference env st user
                           (project_id (group_project g))
                         = all_conversations env), None)).
Proof.
  intros Hin Hnone. rewrite get_subscriptions_stages.
  assert (recorded !! gid = Some None) as Hrec
    by (rewrite (recorded_lookup _ Hin), Hnone; reflexivity).
  pose proof Hin as Hin'. unfold in_item_list in Hin'.
  apply list_elem_of_fmap in Hin' as (g0 & -> & Hg0).
  destruct (proj2 (collect_spec item_list (project_id (group_project g0))
                     (group_id g0))) as (gids0 & Hl0 & Hgid0); [eauto 6|].
  rewrite bool_decide_eq_false_2
    by (intros Hempty; rewrite Hempty, lookup_empty in Hl0; discriminate).
  destruct (assign_projects_listed flag recorded (map_to_list (collect item_list))
              (group_id g0) (project_id (group_project g0)) gids0)
    as (pid & gids & Hitem & Hgid & Hfinal);
    [apply elem_of_map_to_list; exact Hl0 | exact Hgid0 |].
  apply elem_of_map_to_list in Hitem.
  destruct (proj1 (collect_spec item_list pid (group_id g0)))
    as (g & Hg & Hid & Hp & _); [eauto|].
  exists g. split; [exact Hg|]. split; [exact Hid|].
  rewrite Hfinal, Hp, project_flag_spec; [reflexivity|].
  apply elem_of_dom. eauto.
Qed.

(** Every group of the batch ends with a known entry: the lookups of
    [get_attrs] and [serialize] cannot fail. *)
Lemma get_subscriptions_known gid :
  in_item_list item_list gid ->
  exists e,
    GroupSerializer._get_subscriptions env st item_list user !! gid
    = Some (Some e).
Proof.
  intros Hin.
  destruct (last (subscription_records st user gid)) as [s|] eqn:Hlast.
  - rewrite (get_subscriptions_record _ _ Hin Hlast). eauto.
  - apply last_None in Hlast.
    destruct (get_subscriptions_no_record _ Hin Hlast) as (g & _ & _ & ->). eauto.
Qed.

End GetSubscriptions.

(** ** The attribute collector *)

(** The loop [for item in item_list: result[item] = ...] when no iteration
    raises: it returns a dictionary whose entries were computed for items
    of the list, one entry per item id. *)
Lemma foldl_collect_spec {V} (F : Group -> result V) (l : list Group) :
  (forall item, item ∈ l -> exists a, F item = Ok a) ->
  exists d : gmap Z V,
    foldl (fun acc item =>
             result ← acc; attrs ← F item;
             Ok (<[group_id item := attrs]> result))
          (Ok ∅) l = Ok d
    /\ (forall gid a, d !! gid = Some a ->
          exists item, item ∈ l /\ group_id item = gid /\ F item = Ok a)
    /\ (forall item, item ∈ l -> is_Some (d !! group_id item)).
Proof.
  induction l as [|x l IH] using rev_ind; intros Hok.
  - exists ∅. split; [reflexivity|]. split.
    + intros gid a Hl. rewrite lookup_empty in Hl. discriminate.
    + intros item Hin. inversion Hin.
  - destruct IH as (d & Hd & Hfrom & Hall).
    { intros item Hin. apply Hok, elem_of_app. now left. }
    destruct (Hok x) as (a & Ha); [apply elem_of_app; right; left|].
    exists (<[group_id x := a]> d). rewrite foldl_app. cbn [foldl].
    rewrite Hd, bind_Ok, Ha, bind_Ok. split; [reflexivity|]. split.
    + intros gid b Hl. destruct (decide (group_id x = gid)) as [Hx|Hx].
      * rewrite <- Hx, lookup_insert_eq in Hl. injection Hl as <-.
        exists x. split; [apply elem_of_app; right; left | auto].
      * rewrite lookup_insert_ne in Hl by exact Hx.
        destruct (Hfrom gid b Hl) as (item & Hin & Hrest).
        exists item. split; [apply elem_of_app; now left | exact Hrest].
    + intros item Hin. destruct (decide (group_id x = group_id item)) as [Hx|Hx].
      * rewrite <- Hx, lookup_insert_eq. eauto.
      * rewrite lookup_insert_ne by exact Hx.
        apply elem_of_app in Hin as [Hin|Hin]; [apply Hall, Hin|].
        apply list_elem_of_singleton in Hin. congruence.
Qed.

Section GetAttrs.

Variable env : Env.
Variable st : Store.
Variable item_list : list Group.
Variable user : Viewer.

(** [subscriptions[item.id]] never fails for a group of the batch, and
    never holds an unknown entry. *)
Lemma subscriptions_for_spec gid :
  in_item_list item_list gid ->
  exists e,
    GroupSerializer.subscriptions_for env st item_list user gid = Ok (Some e)
    /\ match user with
       | Authenticated u =>
           GroupSerializer._get_subscriptions env st item_list u !! gid
           = Some (Some e)
       | AnonymousUser => e = (false, None)
       end.
Proof.
  intros Hin. unfold GroupSerializer.subscriptions_for.
  destruct user as [|u]; [eauto|].
  destruct item_list as [|g l] eqn:Hl.
  { unfold in_item_list in Hin. cbn in Hin. inversion Hin. }
  cbn [length Nat.eqb negb]. rewrite <- Hl in *.
  destruct (get_subscriptions_known env st item_list u gid Hin) as (e & He).
  exists e. rewrite He. auto.
Qed.

(** [get_attrs] always returns, with one bag per group of the batch; the
    subscription, resolution and snooze entries of a bag are the lookups of
    the corresponding dictionaries, and its actors those of [actors]. *)
Lemma get_attrs_spec :
  exists attrs,
    GroupSerializer.get_attrs env st item_list user = Ok attrs
    /\ (forall item, item ∈ item_list -> is_Some (attrs !! group_id item))
    /\ (forall gid a, attrs !! gid = Some a ->
          in_item_list item_list gid
          /\ GroupSerializer.subscriptions_for env st item_list user gid
             = Ok (subscription a)
          /\ resolution a = resolutions_of st item_list !! gid
          /\ ignore_until a = ignore_items_of st item_list !! gid
          /\ resolution_actor a
             = match resolution a with
               | Some r => r.2 ≫= (actors_of env st item_list user !!.)
               | None => None
               end
          /\ ignore_actor a
             = match ignore_until a with
               | Some s => snooze_actor_id s
                           ≫= (actors_of env st item_list user !!.)
               | None => None
               end).
Proof.
  unfold GroupSerializer.get_attrs.
  match goal with
  | |- context [foldl (fun acc item => result ← acc; attrs ← @?F item; _) _ _] =>
      destruct (foldl_collect_spec F item_list) as (d & Hd & Hfrom & Hall)
  end.
  - intros item Hin.
    destruct (subscriptions_for_spec (group_id item)) as (e & He & _).
    { unfold in_item_list. apply list_elem_of_fmap_2, Hin. }
    cbv zeta. rewrite He, bind_Ok. eauto.
  - exists d. split; [exact Hd|]. split; [exact Hall|].
    intros gid a Hl. destruct (Hfrom gid a Hl) as (item & Hin & <- & Ha).
    assert (in_item_list item_list (group_id item)) as Hin'
      by (unfold in_item_list; apply list_elem_of_fmap_2, Hin).
    destruct (subscriptions_for_spec (group_id item) Hin') as (e & He & _).
    cbv zeta in Ha. rewrite He, bind_Ok in Ha. apply Ok_inj in Ha. subst a.
    cbn. rewrite He. repeat split; try reflexivity. exact Hin'.
Qed.

End GetAttrs.

(** An entry of [actors] is the serialization of an active user. *)
Lemma actors_of_lookup env st item_list user (aid : Z) d :
  actors_of env st item_list user !! aid = Some d ->
  exists u, active_user st (Some aid) u /\ d = serialize_user env user u.
Proof.
  unfold actors_of, GroupSerializer.actors_for.
  case_bool_decide; [rewrite lookup_empty; discriminate|].
  intros Hl. apply dict_of_lookup_Some in Hl as ([u d'] & Hin & Hid & Hd).
  cbn in Hid, Hd. subst d' aid.
  apply elem_of_zip_fmap in Hin as [Hu Hd]. cbn in Hu, Hd.
  apply list_elem_of_filter in Hu as [[_ Hact] Hu].
  exists u. split; [|exact Hd]. repeat split; assumption.
Qed.

Lemma actor_lookup_Some env st item_list user (aid : option Z) d :
  aid ≫= (actors_of env st item_list user !!.) = Some d ->
  exists u, active_user st aid u /\ d = serialize_user env user u.
Proof.
  destruct aid as [aid|]; [|discriminate]. apply actors_of_lookup.
Qed.

(** The [actor] detail is the snooze actor of the bag or its resolution
    actor. *)
Lemma status_details_actor env obj attrs s v :
  GroupSerializer.snooze_check env obj attrs = Ok s ->
  (GroupSerializer.label_status attrs
     (GroupSerializer.auto_resolve env obj s)).2 !! "actor" = Some v ->
  (is_Some (ignore_until attrs) /\ v = of_option (ignore_actor attrs))
  \/ (is_Some (resolution attrs) /\ v = of_option (resolution_actor attrs)).
Proof.
  intros Hs. destruct s as [status details].
  assert (forall w, details !! "actor" = Some w ->
            is_Some (ignore_until attrs) /\ w = of_option (ignore_actor attrs))
    as Hsnooze.
  { revert Hs. unfold GroupSerializer.snooze_check.
    destruct (ignore_until attrs) as [snooze|];
      [|intros H w Hw; apply Ok_inj in H; injection H as _ <-;
        rewrite lookup_empty in Hw; discriminate].
    destruct (is_valid env snooze obj);
      [|intros H w Hw; apply Ok_inj in H; injection H as _ <-;
        rewrite lookup_empty in Hw; discriminate].
    destruct (if truthy_int (snooze_count snooze) && _ then _ else _);
      [rewrite bind_Ok | rewrite bind_Raise; discriminate].
    destruct (if truthy_int (snooze_user_count snooze) && _ then _ else _);
      [rewrite bind_Ok | rewrite bind_Raise; discriminate].
    intros H w Hw. apply Ok_inj in H. injection H as _ <-.
    rewrite lookup_insert_eq in Hw. injection Hw as <-. eauto. }
  unfold GroupSerializer.auto_resolve, GroupSerializer.label_status.
  repeat first
    [ progress cbn [fst snd]
    | rewrite lookup_insert_ne by discriminate
    | rewrite lookup_insert_eq
    | match goal with
      | |- context [if ?b then _ else _] => destruct b
      | |- context [match ?o with Some _ => _ | None => _ end] => destruct o
      | |- context [let '(_, _) := ?p in _] => destruct p
      end ];
  first [ intros Hv; left; exact (Hsnooze _ Hv)
        | intros [= <-]; right; eauto ].
Qed.

(** ** Subscriptions and actors, from the stores to the record *)


(** What [serialize] makes of a bag's subscription entry. *)
Lemma serialize_subscription env obj a user out e :
  GroupSerializer.serialize env obj a user = Ok out ->
  subscription a = Some e ->
  out !! "isSubscribed" = Some (VBool e.1)
  /\ (e.1 = false \/ e.2 = None -> out !! "subscriptionDetails" = Some VNone).
Proof.
  intros Hout He.
  destruct (serialize_Ok env _ _ _ _ Hout)
    as (s & p & _ & Hp & _ & _ & _ & Hsub & Hdet & _).
  rewrite He in Hp. injection Hp as <-. split; [exact Hsub|].
  rewrite Hdet. intros [-> | Hn]; [reflexivity|].
  rewrite Hn. destruct (e.1); reflexivity.
Qed.








(** C10: [get_attrs] always returns; in the bag of a group, the resolution
    actor and the snooze actor are present only as the serialization of a
    user that exists, is active and is the one the resolution or snooze
    names, and are absent when there is no such user; the [actor] that a
    serialized record carries under [statusDetails] is therefore null or the
    serialization of such a user. *)
Theorem actor_attached_only_when_active
    (env : Env) (st : Store) (item_list : list Group) (user : Viewer) :
  exists attrs,
    GroupSerializer.get_attrs env st item_list user = Ok attrs
    /\ forall obj a,
         attrs !! group_id obj = Some a ->
         (forall d, resolution_actor a = Some d ->
            exists r u, resolution a = Some r /\ active_user st r.2 u
                        /\ d = serialize_user env user u)
         /\ (forall d, ignore_actor a = Some d ->
               exists s u, ignore_until a = Some s
                           /\ active_user st (snooze_actor_id s) u
                           /\ d = serialize_user env user u)
         /\ (forall r, resolution a = Some r ->
               (forall u, ~ active_user st r.2 u) -> resolution_actor a = None)
         /\ (forall s, ignore_until a = Some s ->
               (forall u, ~ active_user st (snooze_actor_id s) u) ->
               ignore_actor a = None)
         /\ (forall out sd v,
               GroupSerializer.serialize env obj a user = Ok out ->
               out !! "statusDetails" = Some (VDict sd) ->
               sd !! "actor" = Some v ->
               v = VNone
               \/ exists u,
                    v = serialize_user env user u
                    /\ ((exists r, resolution a = Some r
                                   /\ active_user st r.2 u)
                        \/ (exists s, ignore_until a = Some s
                                      /\ active_user st (snooze_actor_id s) u))).
Proof.
  destruct (get_attrs_spec env st item_list user) as (attrs & Hattrs & _ & Hbag).
  exists attrs. split; [exact Hattrs|]. intros obj a Ha.
  destruct (Hbag _ _ Ha) as (_ & _ & _ & _ & Hract & Hiact).
  assert (forall d, resolution_actor a = Some d ->
            exists r u, resolution a = Some r /\ active_user st r.2 u
                        /\ d = serialize_user env user u) as Hres.
  { intros d Hd. rewrite Hract in Hd.
    destruct (resolution a) as [r|]; [|discriminate].
    destruct (actor_lookup_Some _ _ _ _ _ _ Hd) as (u & Hu & ->). eauto. }
  assert (forall d, ignore_actor a = Some d ->
            exists s u, ignore_until a = Some s
                        /\ active_user st (snooze_actor_id s) u
                        /\ d = serialize_user env user u) as Hign.
  { intros d Hd. rewrite Hiact in Hd.
    destruct (ignore_until a) as [s|]; [|discriminate].
    destruct (actor_lookup_Some _ _ _ _ _ _ Hd) as (u & Hu & ->). eauto. }
  split; [exact Hres|]. split; [exact Hign|]. split; [|split].
  - intros r Hr Hno. destruct (resolution_actor a) as [d|] eqn:Hd; [|reflexivity].
    destruct (Hres d eq_refl) as (r' & u & Hr' & Hu & _).
    rewrite Hr in Hr'. injection Hr' as <-. destruct (Hno u Hu).
  - intros s Hs Hno. destruct (ignore_actor a) as [d|] eqn:Hd; [|reflexivity].
    destruct (Hign d eq_refl) as (s' & u & Hs' & Hu & _).
    rewrite Hs in Hs'. injection Hs' as <-. destruct (Hno u Hu).
  - intros out sd v Hout Hsd Hv.
    destruct (serialize_Ok env _ _ _ _ Hout) as (s & p & Hs & _ & _ & Hsd' & _).
    rewrite Hsd in Hsd'. injection Hsd' as ->.
    destruct (status_details_actor env _ _ _ _ Hs Hv) as [[_ ->]|[_ ->]].
    + destruct (ignore_actor a) as [d|]; [|now left].
      destruct (Hign d eq_refl) as (s' & u & Hs' & Hu & ->).
      right. exists u. split; [reflexivity|]. right. eauto.
    + destruct (resolution_actor a) as [d|]; [|now left].
      destruct (Hres d eq_refl) as (r & u & Hr & Hu & ->).
      right. exists u. split; [reflexivity|]. left. eauto.
Qed.

(** In the example store, group 1 was resolved by an inactive user and
    snoozed by an active one: only the snooze actor is attached. *)
Example actors_of_example_batch :
  (GroupSerializer.get_attrs (example_env true false []) example_store
     example_batch (Authenticated alice))
  ≫= (fun attrs => Ok ((fun a => (resolution_actor a, ignore_actor a,
                                   subscription a)) <$> attrs !! 1))
  = Ok (Some (None, Some (VDict {["id" := VStr "11"]}), Some (true, None))).
Proof. vm_compute. reflexivity. Qed.

(** * Further properties *)

(** ** Config entries *)

Section FieldEntries.

Variable text_of_container : value -> string.
Variable project : option Project.
Variable plugin : Plugin.

(** The two shapes an entry can take, by the descriptor's type. *)
Lemma serialize_field_Ok (field : gmap string value) data :
  serialize_field text_of_container project plugin field = Ok data ->
  exists name name_text,
    field !! "name" = Some name
    /\ text_type text_of_container name = Ok name_text
    /\ data !! "name" = Some (VStr name_text)
    /\ (if is_secret field
        then data !! "value" = Some VNone
             /\ is_Some (data !! "has_saved_value")
             /\ is_Some (data !! "prefix")
             /\ dom data = field_keys ∪ {[ "has_saved_value"; "prefix" ]}
        else data !! "value" = Some (get_option plugin name project)
             /\ data !! "has_saved_value" = None
             /\ data !! "prefix" = None
             /\ dom data = field_keys).
Proof.
  unfold serialize_field, getitem, is_secret.
  destruct (field !! "name") as [name|]; [rewrite bind_Ok | discriminate].
  destruct (text_type text_of_container name) as [name_text|] eqn:Hname;
    [rewrite bind_Ok | discriminate].
  destruct (if truthy (dict_get field "label" VNone) then _ else _) as [label|];
    [rewrite bind_Ok | rewrite bind_Raise; discriminate].
  destruct (text_type text_of_container label) as [label_text|];
    [rewrite bind_Ok | discriminate].
  destruct (text_or_none text_of_container field "help") as [help|];
    [rewrite bind_Ok | discriminate].
  destruct (text_or_none text_of_container field "placeholder")
    as [placeholder|]; [rewrite bind_Ok | discriminate].
  intros H. exists name, name_text. split; [reflexivity|].
  split; [exact Hname|]. clear Hname.
  destruct (eq_str (dict_get field "type" VNone) "secret");
    cbn [negb] in H; apply Ok_inj in H; subst data.
  - split; [lookup_dict|]. split; [lookup_dict|].
    split; [eexists; lookup_dict|]. split; [eexists; lookup_dict|].
    rewrite !dom_insert_L, dom_empty_L. unfold field_keys. set_solver.
  - split; [lookup_dict|]. split; [lookup_dict|].
    split; [repeat (rewrite lookup_insert_ne by discriminate); apply lookup_empty|].
    split; [repeat (rewrite lookup_insert_ne by discriminate); apply lookup_empty|].
    rewrite !dom_insert_L, dom_empty_L. unfold field_keys. set_solver.
Qed.


(** X1: a config entry has exactly the ten keys [name], [label], [type],
    [required], [help], [placeholder], [choices], [readonly],
    [defaultValue] and [value]; a secret field has [has_saved_value] and
    [prefix] besides, and no other field has them. *)
Theorem config_entry_keys (field : gmap string value) data :
  serialize_field text_of_container project plugin field = Ok data ->
  dom data = (if is_secret field
              then field_keys ∪ {[ "has_saved_value"; "prefix" ]}
              else field_keys).
Proof.
  intros Hd.
  destruct (serialize_field_Ok _ _ Hd) as (name & nt & _ & _ & _ & Hshape).
  destruct (is_secret field); tauto.
Qed.

(** X2: for a field that is not of type "secret", [value] is the option the
    plugin has stored under the field's name for the project. *)
Theorem plain_field_carries_stored_option (field : gmap string value) name data :
  is_secret field = false ->
  field !! "name" = Some name ->
  serialize_field text_of_container project plugin field = Ok data ->
  data !! "value" = Some (get_option plugin name project).
Proof.
  intros Hs Hn Hd.
  destruct (serialize_field_Ok _ _ Hd) as (name' & nt & Hn' & _ & _ & Hshape).
  rewrite Hs in Hshape. rewrite Hn in Hn'. injection Hn' as <-. tauto.
Qed.

(** X3: [serialize_field] raises in three cases only: [KeyError] when the
    descriptor has no [name]; [AttributeError] when it has no usable label
    and its name is not text; [UnicodeDecodeError] when the name or the
    label is a byte string with a byte above 127, or the help or the
    placeholder is one and a label could be chosen. *)
Theorem serialize_field_raises (field : gmap string value) e :
  serialize_field text_of_container project plugin field = Raise e
  <-> (field !! "name" = None /\ e = KeyError "name")
      \/ (exists name, field !! "name" = Some name
                       /\ (forall s, name <> VStr s)
                       /\ truthy (dict_get field "label" VNone) = false
                       /\ e = AttributeError)
      \/ (exists name,
            field !! "name" = Some name
            /\ (decodes name = false
                \/ decodes (dict_get field "label" VNone) = false
                \/ ((truthy (dict_get field "label" VNone) = true
                     \/ exists s, name = VStr s)
                    /\ (decodes (dict_get field "help" VNone) = false
                        \/ decodes (dict_get field "placeholder" VNone)
                           = false)))
            /\ e = UnicodeDecodeError).
Proof.
  unfold serialize_field, getitem.
  destruct (field !! "name") as [name|];
    [rewrite bind_Ok | rewrite bind_Raise].
  2: { split; [intros [= <-]; left; auto|].
       intros [[_ ->] | [(n & [=] & _) | (n & [=] & _)]]. reflexivity. }
  destruct (decodes name) eqn:Hdn.
  2: { destruct (decodes_false text_of_container name Hdn) as (-> & _ & s & ->).
       rewrite bind_Raise. split.
       - intros [= <-]. right. right. exists (VStr s). auto.
       - intros [[[=] _] | [(n & [= <-] & Hn & _) | (n & _ & _ & ->)]];
           [destruct (Hn s) | ]; reflexivity. }
  destruct (decodes_true text_of_container name Hdn) as (nt & ->).
  rewrite bind_Ok.
  destruct (decodes (dict_get field "label" VNone)) eqn:Hdl.
  2: { destruct (decodes_false text_of_container _ Hdl) as (Hl & -> & _).
       rewrite bind_Ok, Hl, bind_Raise. split.
       - intros [= <-]. right. right. exists name. auto.
       - intros [[[=] _] | [(n & _ & _ & [=] & _) | (n & _ & _ & ->)]].
         reflexivity. }
  destruct (truthy (dict_get field "label" VNone)) eqn:Htl.
  - rewrite bind_Ok.
    destruct (decodes_true text_of_container _ Hdl) as (lt & ->).
    rewrite bind_Ok.
    destruct (decodes (dict_get field "help" VNone)) eqn:Hdh.
    2: { rewrite (text_or_none_undecodable _ _ _ Hdh), bind_Raise. split.
         - intros [= <-]. right. right. exists name. auto 7.
         - intros [[[=] _] | [(n & _ & _ & [=] & _) | (n & _ & _ & ->)]].
           reflexivity. }
    destruct (text_or_none_decodes text_of_container _ _ Hdh) as (h & ->).
    rewrite bind_Ok.
    destruct (decodes (dict_get field "placeholder" VNone)) eqn:Hdp.
    2: { rewrite (text_or_none_undecodable _ _ _ Hdp), bind_Raise. split.
         - intros [= <-]. right. right. exists name. auto 7.
         - intros [[[=] _] | [(n & _ & _ & [=] & _) | (n & _ & _ & ->)]].
           reflexivity. }
    destruct (text_or_none_decodes text_of_container _ _ Hdp) as (p & ->).
    rewrite bind_Ok.
    destruct (negb (eq_str (dict_get field "type" VNone) "secret")); split;
      try discriminate;
      intros [[[=] _] | [(n & _ & _ & [=] & _)
                         | (n & [= <-] & [?|[?|[_ [?|?]]]] & _)]];
      congruence.
  - destruct name as [|b| |s| | |]; cbn [str_title];
      try (rewrite bind_Raise; split;
           [ intros [= <-]; right; left; eexists; repeat split; congruence
           | intros [[[=] _] | [(n & _ & _ & _ & ->)
                                | (n & [= <-] & [?|[?|[[?|[s ?]] _]]] & _)]];
             first [reflexivity | congruence] ]).
    rewrite !bind_Ok.
    assert (decodes (VStr (replace "_" " " (title s))) = true) as Hdt
      by (apply all_ascii_replace; [reflexivity|];
          apply all_ascii_title_from, Hdn).
    destruct (decodes_true text_of_container _ Hdt) as (lt & ->).
    rewrite bind_Ok.
    destruct (decodes (dict_get field "help" VNone)) eqn:Hdh.
    2: { rewrite (text_or_none_undecodable _ _ _ Hdh), bind_Raise. split.
         - intros [= <-]. right. right. exists (VStr s).
           split; [reflexivity|]. split; [|reflexivity].
           right. right. split; [right; eauto | left; reflexivity].
         - intros [[[=] _] | [(n & [= <-] & Hn & _) | (n & _ & _ & ->)]];
             [destruct (Hn s) | ]; reflexivity. }
    destruct (text_or_none_decodes text_of_container _ _ Hdh) as (h & ->).
    rewrite bind_Ok.
    destruct (decodes (dict_get field "placeholder" VNone)) eqn:Hdp.
    2: { rewrite (text_or_none_undecodable _ _ _ Hdp), bind_Raise. split.
         - intros [= <-]. right. right. exists (VStr s).
           split; [reflexivity|]. split; [|reflexivity].
           right. right. split; [right; eauto | right; reflexivity].
         - intros [[[=] _] | [(n & [= <-] & Hn & _) | (n & _ & _ & ->)]];
             [destruct (Hn s) | ]; reflexivity. }
    destruct (text_or_none_decodes text_of_container _ _ Hdp) as (p & ->).
    rewrite bind_Ok.
    destruct (negb (eq_str (dict_get field "type" VNone) "secret")); split;
      try discriminate;
      intros [[[=] _] | [(n & [= <-] & Hn & _)
                         | (n & [= <-] & [?|[?|[_ [?|?]]]] & _)]];
      first [destruct (Hn s); reflexivity | congruence].
Qed.

End FieldEntries.

Lemma length_title_from b (s : string) :
  String.length (title_from b s) = String.length s.
Proof.
  revert b. induction s as [|c s IH]; intros b; [reflexivity|].
  cbn [title_from]. destruct (is_lower c); [|destruct (is_upper c)];
    cbn [String.length]; rewrite IH; reflexivity.
Qed.

Lemma length_replace a b (s : string) :
  String.length (replace a b s) = String.length s.
Proof.
  induction s as [|c s IH]; [reflexivity|]. cbn. rewrite IH. reflexivity.
Qed.

Lemma occurs_replace a b (s : string) :
  a <> b -> occurs a (replace a b s) = false.
Proof.
  intros Hab. induction s as [|c s IH]; [reflexivity|].
  cbn [replace occurs]. rewrite IH, orb_false_r.
  destruct (Ascii.eqb c a) eqn:Hc; [|exact Hc].
  apply Ascii.eqb_neq. congruence.
Qed.

(** X4: when the descriptor gives no label (or an empty one) and its name
    is text, the label is made from the name: it has the length of the name
    and no underscore. *)
Theorem default_label_has_no_underscore
    (text_of_container : value -> string) (project : option Project)
    (plugin : Plugin) (field : gmap string value) (name : string) data :
  field !! "name" = Some (VStr name) ->
  truthy (dict_get field "label" VNone) = false ->
  serialize_field text_of_container project plugin field = Ok data ->
  exists label,
    data !! "label" = Some (VStr label)
    /\ label = replace "_" " " (title name)
    /\ String.length label = String.length name
    /\ occurs "_" label = false.
Proof.
  intros Hn Hl. unfold serialize_field, getitem. rewrite Hn, bind_Ok, Hl.
  destruct (text_type text_of_container (VStr name)) as [name_text|];
    [rewrite bind_Ok | discriminate].
  cbn [str_title]. rewrite !bind_Ok.
  destruct (text_type text_of_container (VStr (replace "_" " " (title name))))
    as [label_text|] eqn:Hlabel; [rewrite bind_Ok | discriminate].
  apply text_type_VStr in Hlabel as [-> _].
  destruct (text_or_none text_of_container field "help") as [help|];
    [rewrite bind_Ok | discriminate].
  destruct (text_or_none text_of_container field "placeholder")
    as [placeholder|]; [rewrite bind_Ok | discriminate].
  intros Hd.
  exists (replace "_" " " (title name)).
  split; [|split; [reflexivity|split]].
  - destruct (negb (eq_str (dict_get field "type" VNone) "secret"));
      apply Ok_inj in Hd; subst data; lookup_dict.
  - unfold title. rewrite length_replace, length_title_from. reflexivity.
  - apply occurs_replace. discriminate.
Qed.

Lemma default_label_has_no_underscore_witness :
  exists data,
    api_key_field !! "name" = Some (VStr "api_key")
    /\ serialize_field no_text None (plugin_storing "s3cr3t") api_key_field
       = Ok data
    /\ data !! "label" = Some (VStr "Api Key").
Proof.
  eexists. split; [reflexivity|]. split; [reflexivity|].
  destruct (default_label_has_no_underscore no_text None
              (plugin_storing "s3cr3t") api_key_field "api_key" _
              eq_refl eq_refl eq_refl) as (label & Hl & -> & _).
  exact Hl.
Defined.

Lemma config_entry_keys_witness :
  exists data,
    serialize_field no_text None (plugin_storing "s3cr3t") host_field = Ok data
    /\ dom data = field_keys.
Proof.
  eexists. split; [reflexivity|].
  apply (config_entry_keys no_text None (plugin_storing "s3cr3t") host_field).
  reflexivity.
Defined.

Lemma plain_field_carries_stored_option_witness :
  exists data,
    is_secret host_field = false
    /\ serialize_field no_text None (plugin_storing "s3cr3t") host_field = Ok data
    /\ data !! "value" = Some (VStr "s3cr3t").
Proof.
  eexists. split; [reflexivity|]. split; [reflexivity|].
  apply (plain_field_carries_stored_option no_text None
           (plugin_storing "s3cr3t") host_field (VStr "host_name"));
    reflexivity.
Defined.

Lemma serialize_field_raises_witness :
  serialize_field no_text None (plugin_storing "s3cr3t") nameless_field
  = Raise (KeyError "name")
  /\ serialize_field no_text None (plugin_storing "s3cr3t") numbered_field
     = Raise AttributeError
  /\ serialize_field no_text None (plugin_storing "s3cr3t") accented_field
     = Raise UnicodeDecodeError.
Proof.
  split; [|split].
  - apply (serialize_field_raises no_text None (plugin_storing "s3cr3t")
             nameless_field). left. split; reflexivity.
  - apply (serialize_field_raises no_text None (plugin_storing "s3cr3t")
             numbered_field). right. left. exists (VInt 7).
    repeat split; discriminate.
  - apply (serialize_field_raises no_text None (plugin_storing "s3cr3t")
             accented_field). right. right. exists (VStr "key").
    split; [reflexivity|]. split; [|reflexivity].
    right. right. split; [right; eauto | left; reflexivity].
Defined.

(** ** Plugin views *)

Lemma map_result_Ok {A B} (f : A -> result B) (l : list A) :
  Forall (fun x => exists y, f x = Ok y) l ->
  exists ys, map_result f l = Ok ys /\ length ys = length l
             /\ (forall i x, l !! i = Some x ->
                   exists y, ys !! i = Some y /\ f x = Ok y).
Proof.
  induction 1 as [|x l (y & Hy) _ (ys & Hys & Hlen & Hnth)].
  - exists []. split; [reflexivity|]. split; [reflexivity|].
    intros i x Hi. rewrite lookup_nil in Hi. discriminate.
  - exists (y :: ys). cbn [map_result]. rewrite Hy, bind_Ok, Hys, bind_Ok.
    split; [reflexivity|]. split; [cbn; congruence|].
    intros [|i] x' Hi; cbn in Hi.
    + injection Hi as <-. exists y. split; [reflexivity | exact Hy].
    + apply Hnth, Hi.
Qed.

Lemma map_result_first_error {A B} (f : A -> result B) (l1 l2 : list A) x e :
  Forall (fun x => exists y, f x = Ok y) l1 ->
  f x = Raise e ->
  map_result f (l1 ++ x :: l2)%list = Raise e.
Proof.
  induction 1 as [|x1 l1 (y & Hy) _ IH]; intros He; cbn [map_result app].
  - rewrite He. reflexivity.
  - rewrite Hy, bind_Ok, (IH He). reflexivity.
Qed.

Lemma map_result_ext {A B} (f g : A -> result B) (l : list A) :
  Forall (fun x => f x = g x) l -> map_result f l = map_result g l.
Proof.
  induction 1 as [|x l Hx _ IH]; [reflexivity|].
  cbn [map_result]. rewrite Hx, IH. reflexivity.
Qed.

(** What a returned plugin view holds under [doc] and [enabled], and
    when it is returned. *)
Lemma plugin_serialize_Ok (penv : PluginEnv) (project : option Project)
    (obj : PluginObject) (user : Viewer) out :
  PluginSerializer.serialize penv project obj user = Ok out ->
  out !! "enabled" = (fun p => VBool (is_enabled obj p)) <$> project
  /\ out !! "doc"
     = Some (VStr
         match get_value penv project "sentry:release-token" with
         | Some token =>
             match get_release_doc_html obj with
             | Some render =>
                 default ""
                   (render (_get_webhook_url penv project (slug obj) token))
             | None => ""
             end
         | None => ""
         end).
Proof.
  unfold PluginSerializer.serialize.
  destruct (text_type _ (get_title obj)) as [name|];
    [rewrite bind_Ok | discriminate].
  destruct (text_type _ (get_short_title obj)) as [shortName|];
    [rewrite bind_Ok | discriminate].
  intros Hout. apply Ok_inj in Hout. subst out.
  destruct project as [p|]; cbn [fmap option_fmap option_map]; split.
  - apply lookup_insert_eq.
  - rewrite lookup_insert_ne by discriminate. apply lookup_insert_eq.
  - repeat (rewrite lookup_insert_ne by discriminate).
    rewrite lookup_singleton_ne by discriminate. reflexivity.
  - apply lookup_insert_eq.
Qed.

(** The plain view is returned when the two titles have a text. *)
Lemma plugin_serialize_returns (penv : PluginEnv) (project : option Project)
    (obj : PluginObject) (user : Viewer) :
  decodes (get_title obj) = true ->
  decodes (get_short_title obj) = true ->
  exists out, PluginSerializer.serialize penv project obj user = Ok out.
Proof.
  intros Ht Hs. unfold PluginSerializer.serialize.
  destruct (decodes_true (plugin_text_of_container penv) _ Ht) as (t & ->).
  destruct (decodes_true (plugin_text_of_container penv) _ Hs) as (t' & ->).
  rewrite !bind_Ok. eauto.
Qed.

(** X5: the plugin view is returned whenever the plugin's title and short
    title have a text (neither is a byte string with a byte above 127); a
    returned view has an [enabled] key exactly when the serializer was
    given a project, and it then holds the plugin's state for that
    project. *)
Theorem enabled_only_with_project
    (penv : PluginEnv) (project : option Project) (obj : PluginObject)
    (user : Viewer) :
  (decodes (get_title obj) = true ->
   decodes (get_short_title obj) = true ->
   exists out, PluginSerializer.serialize penv project obj user = Ok out)
  /\ (forall out,
        PluginSerializer.serialize penv project obj user = Ok out ->
        out !! "enabled" = (fun p => VBool (is_enabled obj p)) <$> project).
Proof.
  split.
  - apply plugin_serialize_returns.
  - intros out Hout. exact (proj1 (plugin_serialize_Ok _ _ _ _ _ Hout)).
Qed.

(** X6: the [doc] of a returned plugin view is text.  It is empty when the
    project has no release token, and when the plugin has no release
    document to render; with a token and a renderer it is the document
    rendered for the webhook URL of that token, and empty when the
    renderer is not implemented. *)
Theorem doc_needs_token_and_renderer
    (penv : PluginEnv) (project : option Project) (obj : PluginObject)
    (user : Viewer) (out : gmap string value) :
  PluginSerializer.serialize penv project obj user = Ok out ->
  exists doc,
    out !! "doc" = Some (VStr doc)
    /\ (get_value penv project "sentry:release-token" = None -> doc = "")
    /\ (get_release_doc_html obj = None -> doc = "")
    /\ (forall token render,
          get_value penv project "sentry:release-token" = Some token ->
          get_release_doc_html obj = Some render ->
          match render (_get_webhook_url penv project (slug obj) token) with
          | Some rendered => doc = rendered
          | None => doc = ""
          end).
Proof.
  intros Hout. destruct (plugin_serialize_Ok _ _ _ _ _ Hout) as [_ Hdoc].
  eexists. split; [exact Hdoc|].
  destruct (get_value penv project _) as [token|];
    [destruct (get_release_doc_html obj) as [render|]|].
  - split; [discriminate|]. split; [discriminate|].
    intros token' render' [= <-] [= <-].
    destruct (render _); reflexivity.
  - split; [discriminate|]. split; [reflexivity|]. discriminate.
  - split; [reflexivity|]. split; [reflexivity|]. discriminate.
Qed.

Section ConfigView.

Variable penv : PluginEnv.
Variable project : option Project.
Variable user : Viewer.

(** X7: when the plain plugin view is returned and every field descriptor
    of the plugin is serialized, the view with config is returned: it is
    the plain view plus a [config] list with one entry per descriptor, in
    the order of the descriptors, each the serialization of its
    descriptor. *)
Theorem config_view_extends_plugin_view (obj : PluginObject)
    (d : gmap string value) :
  PluginSerializer.serialize penv project obj user = Ok d ->
  Forall (fun field =>
            exists entry,
              serialize_field (plugin_text_of_container penv) project
                (plugin_options obj) field = Ok entry)
         (get_config obj project user) ->
  exists out config,
    PluginWithConfigSerializer.serialize penv project obj user = Ok out
    /\ out !! "config" = Some (VList (VDict <$> config))
    /\ length config = length (get_config obj project user)
    /\ (forall i field,
          get_config obj project user !! i = Some field ->
          exists entry,
            config !! i = Some entry
            /\ serialize_field (plugin_text_of_container penv) project
                 (plugin_options obj) field = Ok entry)
    /\ (forall k : string, k <> "config" -> out !! k = d !! k).
Proof.
  intros Hd Hfields. unfold PluginWithConfigSerializer.serialize.
  rewrite Hd, bind_Ok.
  destruct (map_result_Ok
              (serialize_field (plugin_text_of_container penv) project
                 (plugin_options obj)) (get_config obj project user) Hfields)
    as (config & Hc & Hlen & Hnth).
  rewrite Hc, bind_Ok. eexists. exists config. split; [reflexivity|].
  split; [apply lookup_insert_eq|]. split; [exact Hlen|]. split; [exact Hnth|].
  intros k Hk. apply lookup_insert_ne. congruence.
Qed.

(** X8: the view with config ends with the first error met: that of the
    plain plugin view, or else, the descriptors before it being
    serialized, that of the first descriptor that is not; in particular a
    descriptor without a name, after good ones, gives [KeyError]. *)
Theorem config_view_first_error (obj : PluginObject)
    (before after : list (gmap string value)) (field : gmap string value) e :
  (PluginSerializer.serialize penv project obj user = Raise e ->
   PluginWithConfigSerializer.serialize penv project obj user = Raise e)
  /\ (forall d,
        PluginSerializer.serialize penv project obj user = Ok d ->
        get_config obj project user = (before ++ field :: after)%list ->
        Forall (fun field =>
                  exists entry,
                    serialize_field (plugin_text_of_container penv) project
                      (plugin_options obj) field = Ok entry) before ->
        serialize_field (plugin_text_of_container penv) project
          (plugin_options obj) field = Raise e ->
        PluginWithConfigSerializer.serialize penv project obj user = Raise e).
Proof.
  unfold PluginWithConfigSerializer.serialize. split.
  - intros ->. reflexivity.
  - intros d -> Hfields Hbefore He.
    rewrite bind_Ok, Hfields,
      (map_result_first_error _ before after field e Hbefore He).
    reflexivity.
Qed.

(** X9: the view with config never consults the stored-option lookup
    [get_option] of a plugin whose field descriptors are all of type
    "secret": for the same descriptors, putting another lookup in its
    place leaves the view, or its error, as it is.  (The descriptors, with
    their [has_saved_value] and [prefix], are what [get_config] returns
    and are the same on both sides.) *)
Theorem config_view_hides_stored_secrets (obj : PluginObject)
    (options : Plugin) :
  Forall (fun field => is_secret field = true) (get_config obj project user) ->
  PluginWithConfigSerializer.serialize penv project (with_options obj options) user
  = PluginWithConfigSerializer.serialize penv project obj user.
Proof.
  intros Hsecret. unfold PluginWithConfigSerializer.serialize.
  cbn [get_config plugin_options with_options].
  rewrite (map_result_ext _
             (serialize_field (plugin_text_of_container penv) project
                (plugin_options obj)) (get_config obj project user)).
  - reflexivity.
  - eapply Forall_impl; [exact Hsecret|]. intros field Hs.
    unfold serialize_field. unfold is_secret in Hs. rewrite Hs. reflexivity.
Qed.

End ConfigView.

Lemma enabled_only_with_project_witness :
  exists out,
    PluginSerializer.serialize (example_penv None) (Some example_project)
      (example_plugin [] "s3cr3t" None) AnonymousUser = Ok out
    /\ out !! "enabled" = Some (VBool true).
Proof.
  destruct (enabled_only_with_project (example_penv None)
              (Some example_project) (example_plugin [] "s3cr3t" None)
              AnonymousUser) as [Hreturns Henabled].
  destruct (Hreturns eq_refl eq_refl) as (out & Hout).
  exists out. split; [exact Hout|]. exact (Henabled out Hout).
Defined.

Lemma doc_needs_token_and_renderer_witness :
  exists out,
    PluginSerializer.serialize (example_penv (Some "t0k3n")) None
      (example_plugin [] "s3cr3t" (Some (fun url => Some ("POST " +:+ url))))
      AnonymousUser = Ok out
    /\ out !! "doc" = Some (VStr "POST /hooks/jira/t0k3n").
Proof.
  eexists. split; [reflexivity|].
  destruct (doc_needs_token_and_renderer (example_penv (Some "t0k3n")) None
              (example_plugin [] "s3cr3t"
                 (Some (fun url => Some ("POST " +:+ url))))
              AnonymousUser _ eq_refl) as (doc & Hdoc & _ & _ & Hrender).
  rewrite Hdoc.
  rewrite (Hrender "t0k3n" (fun url => Some ("POST " +:+ url))
             eq_refl eq_refl).
  reflexivity.
Defined.

Lemma config_view_extends_plugin_view_witness :
  exists out config,
    PluginWithConfigSerializer.serialize (example_penv None) None
      (example_plugin [host_field; api_key_field] "s3cr3t" None) AnonymousUser
    = Ok out
    /\ out !! "config" = Some (VList (VDict <$> config))
    /\ length config = 2%nat.
Proof.
  destruct (config_view_extends_plugin_view (example_penv None) None
              AnonymousUser
              (example_plugin [host_field; api_key_field] "s3cr3t" None)
              _ eq_refl)
    as (out & config & Hout & Hc & Hlen & _).
  - repeat constructor; eexists; reflexivity.
  - exists out, config. auto.
Defined.

Lemma config_view_first_error_witness :
  PluginWithConfigSerializer.serialize (example_penv None) None
    (example_plugin [host_field; nameless_field; api_key_field] "s3cr3t" None)
    AnonymousUser
  = Raise (KeyError "name").
Proof.
  eapply (config_view_first_error (example_penv None) None AnonymousUser
            (example_plugin [host_field; nameless_field; api_key_field]
               "s3cr3t" None)
            [host_field] [api_key_field] nameless_field).
  - reflexivity.
  - reflexivity.
  - repeat constructor. eexists. reflexivity.
  - reflexivity.
Defined.

Lemma config_view_hides_stored_secrets_witness :
  PluginWithConfigSerializer.serialize (example_penv None) None
    (with_options (example_plugin [api_key_field] "s3cr3t" None)
       (plugin_storing "other")) AnonymousUser
  = PluginWithConfigSerializer.serialize (example_penv None) None
      (example_plugin [api_key_field] "s3cr3t" None) AnonymousUser.
Proof.
  apply (config_view_hides_stored_secrets (example_penv None) None AnonymousUser
           (example_plugin [api_key_field] "s3cr3t" None)
           (plugin_storing "other")).
  repeat constructor.
Defined.

(** With a release token and a renderer the document is the rendered one. *)
Example doc_of_example_plugin :
  PluginSerializer.serialize (example_penv (Some "t0k3n")) None
    (example_plugin [] "s3cr3t" (Some (fun url => Some ("POST " +:+ url))))
    AnonymousUser ≫= (fun out => getitem out "doc")
  = Ok (VStr "POST /hooks/jira/t0k3n").
Proof. vm_compute. reflexivity. Qed.

(** ** The status of a group *)

Section StatusTable.

Variable env : Env.

Lemma snooze_check_status obj attrs s :
  GroupSerializer.snooze_check env obj attrs = Ok s ->
  s.1 = match ignore_until attrs with
        | Some snooze =>
            if is_valid env snooze obj then group_status obj else UNRESOLVED
        | None => group_status obj
        end.
Proof.
  unfold GroupSerializer.snooze_check.
  destruct (ignore_until attrs) as [snooze|];
    [|intros H; apply Ok_inj in H; subst s; reflexivity].
  destruct (is_valid env snooze obj);
    [|intros H; apply Ok_inj in H; subst s; reflexivity].
  destruct (if truthy_int (snooze_count snooze) && _ then _ else _);
    [rewrite bind_Ok | rewrite bind_Raise; discriminate].
  destruct (if truthy_int (snooze_user_count snooze) && _ then _ else _);
    [rewrite bind_Ok | rewrite bind_Raise; discriminate].
  intros H. apply Ok_inj in H. subst s. reflexivity.
Qed.

Lemma label_status_label attrs obj status details :
  (GroupSerializer.label_status attrs
     (GroupSerializer.auto_resolve env obj (status, details))).1
  = label_of (resolve_by_age env obj status).
Proof.
  unfold GroupSerializer.auto_resolve, GroupSerializer.label_status,
    resolve_by_age.
  destruct status, (is_over_resolve_age env obj); reflexivity.
Qed.

(** The details the later stages add, by the status that reaches them. *)
Lemma label_status_details attrs obj status details :
  let final := resolve_by_age env obj status in
  let sd := (GroupSerializer.label_status attrs
               (GroupSerializer.auto_resolve env obj (status, details))).2 in
  (final <> RESOLVED -> sd = details)
  /\ (resolution attrs = None ->
      forall k : string, k <> "autoResolved" -> sd !! k = details !! k)
  /\ (final = RESOLVED ->
      forall ty version aid,
        resolution attrs = Some (ty, version, aid) ->
        sd !! "actor" = Some (of_option (resolution_actor attrs))
        /\ sd !! "inNextRelease"
           = (if bool_decide (ty = Some in_next_release \/ ty = None)
              then Some (VBool true) else details !! "inNextRelease")
        /\ sd !! "inRelease"
           = (if bool_decide (ty = Some in_release)
              then Some (of_option_str version) else details !! "inRelease")).
Proof.
  cbv zeta.
  unfold GroupSerializer.auto_resolve, GroupSerializer.label_status,
    resolve_by_age.
  split; [|split].
  - destruct status, (is_over_resolve_age env obj); intros Hf;
      first [reflexivity | exfalso; apply Hf; reflexivity].
  - intros Hnone k Hk. rewrite Hnone.
    destruct status, (is_over_resolve_age env obj); try reflexivity.
    apply lookup_insert_ne. congruence.
  - intros Hfinal ty version aid Hres. rewrite Hres.
    assert (forall d : gmap string value,
      (<["actor" := of_option (resolution_actor attrs)]>
         (if bool_decide (ty = Some in_next_release \/ ty = None)
          then <["inNextRelease" := VBool true]> d
          else if bool_decide (ty = Some in_release)
               then <["inRelease" := of_option_str version]> d else d))
        !! "actor" = Some (of_option (resolution_actor attrs))
      /\ (<["actor" := of_option (resolution_actor attrs)]>
           (if bool_decide (ty = Some in_next_release \/ ty = None)
            then <["inNextRelease" := VBool true]> d
            else if bool_decide (ty = Some in_release)
                 then <["inRelease" := of_option_str version]> d else d))
          !! "inNextRelease"
         = (if bool_decide (ty = Some in_next_release \/ ty = None)
            then Some (VBool true) else d !! "inNextRelease")
      /\ (<["actor" := of_option (resolution_actor attrs)]>
           (if bool_decide (ty = Some in_next_release \/ ty = None)
            then <["inNextRelease" := VBool true]> d
            else if bool_decide (ty = Some in_release)
                 then <["inRelease" := of_option_str version]> d else d))
          !! "inRelease"
         = (if bool_decide (ty = Some in_release)
            then Some (of_option_str version) else d !! "inRelease")) as Hd.
    { intros d. split; [apply lookup_insert_eq|].
      rewrite !(lookup_insert_ne _ "actor") by discriminate.
      repeat case_bool_decide; try (exfalso; intuition congruence);
        repeat first [rewrite lookup_insert_eq
                     | rewrite lookup_insert_ne by discriminate]; auto. }
    destruct status, (is_over_resolve_age env obj); try discriminate Hfinal;
      try apply Hd.
    specialize (Hd (<["autoResolved" := VBool true]> details)).
    rewrite !(lookup_insert_ne _ "autoResolved") in Hd by discriminate.
    exact Hd.
Qed.


(** The snooze check of a group under a valid snooze. *)
Lemma snooze_check_valid obj attrs snooze :
  ignore_until attrs = Some snooze ->
  is_valid env snooze obj = true ->
  GroupSerializer.snooze_check env obj attrs
  = (ignoreCount ←
       (if truthy_int (snooze_count snooze)
           && negb (truthy_int (snooze_window snooze))
        then seen ← GroupSerializer.state_getitem snooze "times_seen";
             Ok (VInt (GroupSerializer.int_of (snooze_count snooze)
                       - (times_seen obj - seen)))
        else Ok (of_option_int (snooze_count snooze)));
     ignoreUserCount ←
       (if truthy_int (snooze_user_count snooze)
           && negb (truthy_int (snooze_user_window snooze))
        then seen ← GroupSerializer.state_getitem snooze "users_seen";
             Ok (VInt (GroupSerializer.int_of (snooze_user_count snooze)
                       - (user_count attrs - seen)))
        else Ok (of_option_int (snooze_user_count snooze)));
     Ok (group_status obj,
         <["actor" := of_option (ignore_actor attrs)]>
         (<["ignoreWindow" := of_option_int (snooze_window snooze)]>
         (<["ignoreUserWindow" := of_option_int (snooze_user_window snooze)]>
         (<["ignoreUserCount" := ignoreUserCount]>
         (<["ignoreUntil" := of_option_date (snooze_until snooze)]>
         (<["ignoreCount" := ignoreCount]> ∅))))))).
Proof.
  intros Hi Hv. unfold GroupSerializer.snooze_check. rewrite Hi, Hv. reflexivity.
Qed.

(** The snooze check writes none of the keys of the later stages. *)
Lemma snooze_check_later_keys obj attrs s (k : string) :
  GroupSerializer.snooze_check env obj attrs = Ok s ->
  k = "autoResolved" \/ k = "inNextRelease" \/ k = "inRelease" ->
  s.2 !! k = None.
Proof.
  intros Hs Hk.
  assert (forall c u : value,
    (<["actor" := of_option (ignore_actor attrs)]>
       (<["ignoreWindow" := c]> (<["ignoreUserWindow" := u]>
       (<["ignoreUserCount" := c]> (<["ignoreUntil" := u]>
       (<["ignoreCount" := c]> (∅ : gmap string value)))))))
      !! k = None) as Hnone.
  { intros c u. destruct Hk as [->|[->| ->]];
      repeat (rewrite lookup_insert_ne by discriminate); apply lookup_empty. }
  revert Hs. unfold GroupSerializer.snooze_check.
  destruct (ignore_until attrs) as [snooze|];
    [|intros H; apply Ok_inj in H; subst s; apply lookup_empty].
  destruct (is_valid env snooze obj);
    [|intros H; apply Ok_inj in H; subst s; apply lookup_empty].
  destruct (if truthy_int (snooze_count snooze) && _ then _ else _);
    [rewrite bind_Ok | rewrite bind_Raise; discriminate].
  destruct (if truthy_int (snooze_user_count snooze) && _ then _ else _);
    [rewrite bind_Ok | rewrite bind_Raise; discriminate].
  intros H. apply Ok_inj in H. subst s. cbn [snd].
  destruct Hk as [->|[->| ->]];
    repeat (rewrite lookup_insert_ne by discriminate); apply lookup_empty.
Qed.

(** The status and details of a serialized record, from the snooze
    check. *)
Lemma serialize_status obj attrs user out :
  GroupSerializer.serialize env obj attrs user = Ok out ->
  exists s,
    GroupSerializer.snooze_check env obj attrs = Ok s
    /\ effective_status env obj attrs = resolve_by_age env obj s.1
    /\ out !! "status" = Some (VStr (label_of (effective_status env obj attrs)))
    /\ out !! "statusDetails"
       = Some (VDict (GroupSerializer.label_status attrs
                        (GroupSerializer.auto_resolve env obj s)).2).
Proof.
  intros Hout.
  destruct (serialize_Ok env _ _ _ _ Hout) as (s & p & Hs & _ & Hst & Hsd & _).
  exists s. split; [exact Hs|].
  assert (effective_status env obj attrs = resolve_by_age env obj s.1) as Heff.
  { unfold effective_status. rewrite <- (snooze_check_status _ _ _ Hs).
    reflexivity. }
  split; [exact Heff|]. split; [|exact Hsd].
  rewrite Hst, Heff. destruct s as [status details].
  rewrite label_status_label. reflexivity.
Qed.

End StatusTable.

(** X10: the [status] of a serialized record is the label of the effective
    status: the stored status, reset to unresolved by a snooze that no
    longer holds, and an unresolved status turned into resolved by age;
    pending deletion and deletion in progress share one label. *)
Theorem status_follows_decision_table
    (env : Env) (obj : Group) (attrs : Attrs) (user : Viewer)
    (out : gmap string value) :
  GroupSerializer.serialize env obj attrs user = Ok out ->
  out !! "status" = Some (VStr (label_of (effective_status env obj attrs))).
Proof.
  intros Hout. destruct (serialize_status env _ _ _ _ Hout) as (s & _ & _ & H & _).
  exact H.
Qed.

Lemma status_follows_decision_table_witness :
  exists out,
    GroupSerializer.serialize (example_env true false [])
      (example_group DELETION_IN_PROGRESS) (example_attrs None) AnonymousUser
    = Ok out
    /\ out !! "status" = Some (VStr "pending_deletion").
Proof.
  eexists. split; [reflexivity|].
  apply (status_follows_decision_table (example_env true false [])
           (example_group DELETION_IN_PROGRESS) (example_attrs None)
           AnonymousUser). reflexivity.
Defined.

(** X11: [statusDetails] never holds both [inNextRelease] and [inRelease],
    and holds none of [inNextRelease], [inRelease] and [autoResolved] unless
    the label is "resolved"; without a snooze it is then empty. *)
Theorem resolution_details_only_when_resolved
    (env : Env) (obj : Group) (attrs : Attrs) (user : Viewer)
    (out sd : gmap string value) :
  GroupSerializer.serialize env obj attrs user = Ok out ->
  out !! "statusDetails" = Some (VDict sd) ->
  ~ (is_Some (sd !! "inNextRelease") /\ is_Some (sd !! "inRelease"))
  /\ (out !! "status" <> Some (VStr "resolved") ->
      sd !! "inNextRelease" = None /\ sd !! "inRelease" = None
      /\ sd !! "autoResolved" = None
      /\ (ignore_until attrs = None -> sd = ∅)).
Proof.
  intros Hout Hsd.
  destruct (serialize_status env _ _ _ _ Hout) as (s & Hs & Heff & Hst & Hsd').
  rewrite Hsd in Hsd'. injection Hsd' as ->.
  destruct s as [status details]. cbn [fst] in Heff.
  assert (details !! "inNextRelease" = None) as Hn
    by (apply (snooze_check_later_keys env _ _ (status, details)
                 "inNextRelease" Hs); auto).
  assert (details !! "inRelease" = None) as Hr
    by (apply (snooze_check_later_keys env _ _ (status, details)
                 "inRelease" Hs); auto).
  assert (details !! "autoResolved" = None) as Ha
    by (apply (snooze_check_later_keys env _ _ (status, details)
                 "autoResolved" Hs); auto).
  pose proof (label_status_details env attrs obj status details) as Hlater.
  cbv zeta in Hlater. destruct Hlater as (Hkeep & Hplain & Hres).
  rewrite <- Heff in Hkeep, Hres.
  split.
  - destruct (resolution attrs) as [[[ty version] aid]|] eqn:Hresn.
    + destruct (decide (effective_status env obj attrs = RESOLVED)) as [He|He].
      * destruct (Hres He ty version aid eq_refl) as (_ & Hnext & Hrel).
        rewrite Hnext, Hrel, Hn, Hr.
        repeat case_bool_decide; intros [[? ?] [? ?]];
          try discriminate; intuition congruence.
      * rewrite (Hkeep He), Hn. intros [[? ?] _]. discriminate.
    + rewrite (Hplain eq_refl "inNextRelease"), Hn by discriminate.
      intros [[? ?] _]. discriminate.
  - intros Hlabel.
    assert (effective_status env obj attrs <> RESOLVED) as He
      by (intros He; apply Hlabel; rewrite Hst, He; reflexivity).
    rewrite (Hkeep He). rewrite Hn, Hr, Ha.
    repeat split; try reflexivity.
    intros Hnone. revert Hs. unfold GroupSerializer.snooze_check.
    rewrite Hnone. intros H. apply Ok_inj in H. congruence.
Qed.

Lemma resolution_details_only_when_resolved_witness :
  exists out,
    GroupSerializer.serialize (example_env true false [])
      (example_group UNRESOLVED) (example_attrs None) AnonymousUser = Ok out
    /\ out !! "status" = Some (VStr "unresolved")
    /\ out !! "statusDetails" = Some (VDict ∅).
Proof.
  eexists. split; [reflexivity|]. split; [reflexivity|].
  destruct (resolution_details_only_when_resolved (example_env true false [])
              (example_group UNRESOLVED) (example_attrs None) AnonymousUser
              _ ∅ eq_refl eq_refl) as [_ Hplain].
  reflexivity.
Defined.

(** X12: when the label is "resolved" and the bag has a resolution, the
    details name the resolution's actor (also over the actor of a valid
    snooze) and tell the release: [inNextRelease] for the type
    in_next_release or no type, [inRelease] with the version for the type
    in_release, neither for another type. *)
Theorem resolution_details_by_type
    (env : Env) (obj : Group) (attrs : Attrs) (user : Viewer)
    (out sd : gmap string value) ty version aid :
  GroupSerializer.serialize env obj attrs user = Ok out ->
  out !! "statusDetails" = Some (VDict sd) ->
  out !! "status" = Some (VStr "resolved") ->
  resolution attrs = Some (ty, version, aid) ->
  sd !! "actor" = Some (of_option (resolution_actor attrs))
  /\ sd !! "inNextRelease"
     = (if bool_decide (ty = Some in_next_release \/ ty = None)
        then Some (VBool true) else None)
  /\ sd !! "inRelease"
     = (if bool_decide (ty = Some in_release)
        then Some (of_option_str version) else None).
Proof.
  intros Hout Hsd Hlabel Hres.
  destruct (serialize_status env _ _ _ _ Hout) as (s & Hs & Heff & Hst & Hsd').
  rewrite Hsd in Hsd'. injection Hsd' as ->.
  assert (effective_status env obj attrs = RESOLVED) as He.
  { rewrite Hst in Hlabel.
    destruct (effective_status env obj attrs); cbn in Hlabel;
      first [reflexivity | discriminate]. }
  destruct s as [status details]. cbn [fst] in Heff.
  pose proof (label_status_details env attrs obj status details) as Hlater.
  cbv zeta in Hlater. destruct Hlater as (_ & _ & Hdet).
  rewrite <- Heff in Hdet.
  destruct (Hdet He ty version aid Hres) as (Hact & Hnext & Hrel).
  assert (details !! "inNextRelease" = None) as Hn
    by (apply (snooze_check_later_keys env _ _ (status, details)
                 "inNextRelease" Hs); auto).
  assert (details !! "inRelease" = None) as Hr
    by (apply (snooze_check_later_keys env _ _ (status, details)
                 "inRelease" Hs); auto).
  rewrite Hn in Hnext. rewrite Hr in Hrel. auto.
Qed.

Lemma resolution_details_by_type_witness :
  exists out sd,
    GroupSerializer.serialize (example_env true false [])
      (example_group RESOLVED) (resolved_attrs (Some (example_snooze None)))
      AnonymousUser = Ok out
    /\ out !! "statusDetails" = Some (VDict sd)
    /\ sd !! "actor" = Some (VStr "resolver")
    /\ sd !! "inNextRelease" = None
    /\ sd !! "inRelease" = Some (VStr "1.4").
Proof.
  eexists. eexists. split; [reflexivity|]. split; [reflexivity|].
  eapply (resolution_details_by_type (example_env true false [])
            (example_group RESOLVED) (resolved_attrs (Some (example_snooze None)))
            AnonymousUser _ _ (Some in_release) (Some "1.4") (Some 12));
    reflexivity.
Defined.

(** X13: under a valid snooze with a non-zero user-count bound,
    [statusDetails.ignoreUserCount] is the bound minus the users seen since
    the snooze (bound - (user_count - snapshot users_seen)) when no user
    window is set, that is when the window is null or 0, and the stored
    bound when one is set. *)
Theorem ignore_user_count_is_remaining_delta
    (env : Env) (obj : Group) (attrs : Attrs) (user : Viewer)
    (snooze : GroupSnooze) (bound : Z) (out : gmap string value) :
  ignore_until attrs = Some snooze ->
  is_valid env snooze obj = true ->
  snooze_user_count snooze = Some bound ->
  bound <> 0 ->
  GroupSerializer.serialize env obj attrs user = Ok out ->
  exists sd,
    out !! "statusDetails" = Some (VDict sd)
    /\ (snooze_user_window snooze = None
        \/ snooze_user_window snooze = Some 0 ->
        exists state seen,
          snooze_state snooze = Some state
          /\ state !! "users_seen" = Some seen
          /\ sd !! "ignoreUserCount"
             = Some (VInt (bound - (user_count attrs - seen))))
    /\ (forall window,
          snooze_user_window snooze = Some window -> window <> 0 ->
          sd !! "ignoreUserCount" = Some (VInt bound)).
Proof.
  intros Hi Hv Hc Hb Hout.
  destruct (serialize_Ok env _ _ _ _ Hout) as (s & p & Hs & _ & _ & Hsd & _).
  eexists. split; [exact Hsd|].
  rewrite (later_stages_frame env obj attrs s "ignoreUserCount") by discriminate.
  rewrite (snooze_check_valid env _ _ _ Hi Hv) in Hs.
  destruct (if truthy_int (snooze_count snooze) && _ then _ else _) as [c|];
    [rewrite bind_Ok in Hs | rewrite bind_Raise in Hs; discriminate].
  rewrite Hc in Hs. unfold truthy_int at 1 in Hs.
  apply Z.eqb_neq in Hb. rewrite Hb in Hs. cbn [negb andb] in Hs.
  split.
  - intros Hw.
    assert (truthy_int (snooze_user_window snooze) = false) as Hfalsy
      by (destruct Hw as [-> | ->]; reflexivity).
    rewrite Hfalsy in Hs. cbn [negb] in Hs.
    unfold GroupSerializer.state_getitem, getitem in Hs.
    destruct (snooze_state snooze) as [state|];
      [|rewrite !bind_Raise in Hs; discriminate].
    destruct (state !! "users_seen") as [seen|] eqn:Hseen;
      [rewrite !bind_Ok in Hs | rewrite !bind_Raise in Hs; discriminate].
    exists state, seen. split; [reflexivity|]. split; [exact Hseen|].
    apply Ok_inj in Hs. subst s. cbn [snd].
    repeat (rewrite lookup_insert_ne by discriminate). apply lookup_insert_eq.
  - intros window Hw Hnz. rewrite Hw in Hs. cbn [truthy_int] in Hs.
    apply Z.eqb_neq in Hnz. rewrite Hnz in Hs. cbn [negb of_option_int] in Hs.
    rewrite bind_Ok in Hs. apply Ok_inj in Hs. subst s. cbn [snd].
    repeat (rewrite lookup_insert_ne by discriminate). apply lookup_insert_eq.
Qed.

Lemma ignore_user_count_is_remaining_delta_witness :
  (exists out sd,
     GroupSerializer.serialize (example_env true false [])
       (example_group IGNORED)
       (example_attrs
          (Some (user_snooze
                   (Some (<["users_seen" := 1]> {["times_seen" := 3]})))))
       AnonymousUser = Ok out
     /\ out !! "statusDetails" = Some (VDict sd)
     /\ sd !! "ignoreUserCount" = Some (VInt 4))
  /\ (exists out sd,
        GroupSerializer.serialize (example_env true false [])
          (example_group IGNORED) (example_attrs (Some zero_window_snooze))
          AnonymousUser = Ok out
        /\ out !! "statusDetails" = Some (VDict sd)
        /\ sd !! "ignoreUserCount" = Some (VInt 4)).
Proof.
  split.
  - destruct (ignore_user_count_is_remaining_delta (example_env true false [])
                (example_group IGNORED)
                (example_attrs
                   (Some (user_snooze
                            (Some (<["users_seen" := 1]> {["times_seen" := 3]})))))
                AnonymousUser
                (user_snooze (Some (<["users_seen" := 1]> {["times_seen" := 3]})))
                5 _ eq_refl eq_refl eq_refl ltac:(discriminate) eq_refl)
      as (sd & Hsd & Hdelta & _).
    eexists. exists sd. split; [reflexivity|]. split; [exact Hsd|].
    destruct (Hdelta (or_introl eq_refl))
      as (state & seen & Hstate & Hseen & Hcount).
    injection Hstate as <-. vm_compute in Hseen. injection Hseen as <-.
    exact Hcount.
  - destruct (ignore_user_count_is_remaining_delta (example_env true false [])
                (example_group IGNORED)
                (example_attrs (Some zero_window_snooze))
                AnonymousUser zero_window_snooze
                5 _ eq_refl eq_refl eq_refl ltac:(discriminate) eq_refl)
      as (sd & Hsd & Hdelta & _).
    eexists. exists sd. split; [reflexivity|]. split; [exact Hsd|].
    destruct (Hdelta (or_intror eq_refl))
      as (state & seen & Hstate & Hseen & Hcount).
    injection Hstate as <-. vm_compute in Hseen. injection Hseen as <-.
    exact Hcount.
Defined.

(** ** When the view composer raises *)

Section SerializeErrors.

Variable env : Env.

Lemma state_getitem_Ok snooze (k : string) v :
  GroupSerializer.state_getitem snooze k = Ok v
  <-> exists state, snooze_state snooze = Some state /\ state !! k = Some v.
Proof.
  unfold GroupSerializer.state_getitem, getitem.
  destruct (snooze_state snooze) as [state|].
  - destruct (state !! k) as [w|] eqn:Hk; split.
    + intros [= <-]. eauto.
    + intros (state' & [= <-] & Hv). congruence.
    + discriminate.
    + intros (state' & [= <-] & Hv). congruence.
  - split; [discriminate | intros (state & [=] & _)].
Qed.

(** The snooze check returns exactly when the snapshot entries it reads
    are there. *)
Lemma snooze_check_Ok_iff obj attrs :
  (exists s, GroupSerializer.snooze_check env obj attrs = Ok s)
  <-> (forall snooze,
         ignore_until attrs = Some snooze ->
         is_valid env snooze obj = true -> snapshot_available snooze).
Proof.
  destruct (ignore_until attrs) as [snooze|] eqn:Hi.
  - destruct (is_valid env snooze obj) eqn:Hv.
    + rewrite (snooze_check_valid env _ _ _ Hi Hv). split.
      * intros (s & Hs) snooze' [= <-] _. unfold snapshot_available.
        destruct (truthy_int (snooze_count snooze)
                  && negb (truthy_int (snooze_window snooze))).
        -- destruct (GroupSerializer.state_getitem snooze "times_seen")
             as [seen|] eqn:Hseen;
             [rewrite !bind_Ok in Hs | rewrite !bind_Raise in Hs; discriminate].
           apply state_getitem_Ok in Hseen as (state & Hst & Hseen).
           split; [eauto|].
           destruct (truthy_int (snooze_user_count snooze)
                     && negb (truthy_int (snooze_user_window snooze)));
             [|discriminate].
           destruct (GroupSerializer.state_getitem snooze "users_seen")
             as [useen|] eqn:Huseen;
             [|rewrite !bind_Raise in Hs; discriminate].
           apply state_getitem_Ok in Huseen as (state' & Hst' & Huseen).
           eauto.
        -- split; [discriminate|]. rewrite bind_Ok in Hs.
           destruct (truthy_int (snooze_user_count snooze)
                     && negb (truthy_int (snooze_user_window snooze)));
             [|discriminate].
           destruct (GroupSerializer.state_getitem snooze "users_seen")
             as [useen|] eqn:Huseen;
             [|rewrite !bind_Raise in Hs; discriminate].
           apply state_getitem_Ok in Huseen as (state' & Hst' & Huseen).
           eauto.
      * intros Havail. destruct (Havail snooze eq_refl Hv) as [Hc Hu].
        destruct (truthy_int (snooze_count snooze)
                  && negb (truthy_int (snooze_window snooze))).
        -- destruct (Hc eq_refl) as (state & seen & Hst & Hseen).
           rewrite (proj2 (state_getitem_Ok snooze "times_seen" seen))
             by eauto.
           rewrite !bind_Ok.
           destruct (truthy_int (snooze_user_count snooze)
                     && negb (truthy_int (snooze_user_window snooze))).
           ++ destruct (Hu eq_refl) as (state' & useen & Hst' & Huseen).
              rewrite (proj2 (state_getitem_Ok snooze "users_seen" useen))
                by eauto.
              rewrite !bind_Ok. eauto.
           ++ rewrite bind_Ok. eauto.
        -- rewrite bind_Ok.
           destruct (truthy_int (snooze_user_count snooze)
                     && negb (truthy_int (snooze_user_window snooze))).
           ++ destruct (Hu eq_refl) as (state' & useen & Hst' & Huseen).
              rewrite (proj2 (state_getitem_Ok snooze "users_seen" useen))
                by eauto.
              rewrite !bind_Ok. eauto.
           ++ rewrite bind_Ok. eauto.
    + rewrite (snooze_check_invalid env _ _ _ Hi Hv). split; [|eauto].
      intros _ snooze' [= <-] Hv'. congruence.
  - unfold GroupSerializer.snooze_check. rewrite Hi. split; [|eauto].
    intros _ snooze' [=].
Qed.

(** More of what a successful [serialize] returns. *)
Lemma serialize_Ok_flags obj attrs user out :
  GroupSerializer.serialize env obj attrs user = Ok out ->
  out !! "isPublic" = Some (VBool (bool_decide (is_Some (share_id attrs))))
  /\ out !! "shareId" = Some (of_option_str (share_id attrs))
  /\ out !! "isBookmarked" = Some (VBool (is_bookmarked attrs))
  /\ out !! "hasSeen" = Some (VBool (has_seen attrs)).
Proof.
  unfold GroupSerializer.serialize.
  destruct (GroupSerializer.snooze_check env obj attrs) as [s|];
    [rewrite bind_Ok | rewrite bind_Raise; discriminate].
  destruct (GroupSerializer.label_status attrs _) as [lbl sd].
  unfold GroupSerializer.unpack_subscription.
  destruct (subscription attrs) as [p|];
    [rewrite bind_Ok | rewrite bind_Raise; discriminate].
  intros Hout. apply Ok_inj in Hout. subst out.
  repeat (split; [lookup_dict|]). lookup_dict.
Qed.

End SerializeErrors.

(** X14: [serialize] returns a record exactly when the bag has a
    subscription entry and, for a group under a valid snooze, the snapshot
    holds the entries the details read ([times_seen] for a count bound
    without window, [users_seen] for a user-count bound without window);
    without a snooze, or with one that no longer holds, only the entry
    matters. *)
Theorem serialize_returns_iff
    (env : Env) (obj : Group) (attrs : Attrs) (user : Viewer) :
  (exists out, GroupSerializer.serialize env obj attrs user = Ok out)
  <-> is_Some (subscription attrs)
      /\ (forall snooze,
            ignore_until attrs = Some snooze ->
            is_valid env snooze obj = true -> snapshot_available snooze).
Proof.
  split.
  - intros (out & Hout).
    destruct (serialize_Ok env _ _ _ _ Hout) as (s & p & Hs & Hp & _).
    split; [rewrite Hp; eauto|]. apply snooze_check_Ok_iff. eauto.
  - intros [[p Hp] Hsnap]. apply snooze_check_Ok_iff in Hsnap as (s & Hs).
    exact (serialize_total env obj attrs user s p Hs Hp).
Qed.

Lemma serialize_returns_iff_witness :
  exists out,
    GroupSerializer.serialize (example_env true false [])
      (example_group IGNORED) (example_attrs (Some (example_snooze None)))
      AnonymousUser = Ok out.
Proof.
  apply (serialize_returns_iff (example_env true false [])
           (example_group IGNORED) (example_attrs (Some (example_snooze None)))
           AnonymousUser).
  split; [eexists; reflexivity|].
  intros snooze [= <-] _. split.
  - intros _. exists (<["users_seen" := 0]> {["times_seen" := 3]}), 3.
    split; reflexivity.
  - discriminate.
Defined.

(** X15: under a valid snooze with a count bound and no window, a snapshot
    that is missing makes [serialize] raise [TypeError], and a snapshot
    without [times_seen] makes it raise [KeyError], whatever else the bag
    holds. *)
Theorem missing_snapshot_raises
    (env : Env) (obj : Group) (attrs : Attrs) (user : Viewer)
    (snooze : GroupSnooze) :
  ignore_until attrs = Some snooze ->
  is_valid env snooze obj = true ->
  truthy_int (snooze_count snooze) = true ->
  truthy_int (snooze_window snooze) = false ->
  (snooze_state snooze = None ->
   GroupSerializer.serialize env obj attrs user = Raise TypeError)
  /\ (forall state,
        snooze_state snooze = Some state ->
        state !! "times_seen" = None ->
        GroupSerializer.serialize env obj attrs user
        = Raise (KeyError "times_seen")).
Proof.
  intros Hi Hv Hc Hw. unfold GroupSerializer.serialize.
  rewrite (snooze_check_valid env _ _ _ Hi Hv), Hc, Hw. cbn [negb andb].
  unfold GroupSerializer.state_getitem, getitem. split.
  - intros ->. rewrite !bind_Raise. reflexivity.
  - intros state -> ->. rewrite !bind_Raise. reflexivity.
Qed.

Lemma missing_snapshot_raises_witness :
  GroupSerializer.serialize (example_env true false [])
    (example_group IGNORED) (example_attrs (Some (user_snooze None)))
    AnonymousUser = Raise TypeError
  /\ GroupSerializer.serialize (example_env true false [])
       (example_group IGNORED)
       (example_attrs (Some (user_snooze (Some {["users_seen" := 1]}))))
       AnonymousUser = Raise (KeyError "times_seen").
Proof.
  split.
  - apply (missing_snapshot_raises (example_env true false [])
             (example_group IGNORED) (example_attrs (Some (user_snooze None)))
             AnonymousUser (user_snooze None)); reflexivity.
  - apply (missing_snapshot_raises (example_env true false [])
             (example_group IGNORED)
             (example_attrs (Some (user_snooze (Some {["users_seen" := 1]}))))
             AnonymousUser (user_snooze (Some {["users_seen" := 1]}))
             eq_refl eq_refl eq_refl eq_refl) with (state := {["users_seen" := 1]});
      reflexivity.
Defined.

(** X16: [isPublic] is true exactly when [shareId] is not null, and
    [shareId] is then the share id of the bag. *)
Theorem public_iff_shared
    (env : Env) (obj : Group) (attrs : Attrs) (user : Viewer)
    (out : gmap string value) :
  GroupSerializer.serialize env obj attrs user = Ok out ->
  (out !! "isPublic" = Some (VBool true) <-> out !! "shareId" <> Some VNone)
  /\ (out !! "isPublic" = Some (VBool false) <-> out !! "shareId" = Some VNone)
  /\ (forall uuid, share_id attrs = Some uuid ->
        out !! "shareId" = Some (VStr uuid)).
Proof.
  intros Hout.
  destruct (serialize_Ok_flags env _ _ _ _ Hout) as (Hpub & Hshare & _).
  rewrite Hpub, Hshare.
  destruct (share_id attrs) as [uuid|]; cbn [of_option_str].
  - case_bool_decide as Hs; [|exfalso; apply Hs; eauto].
    repeat split; intros; try discriminate; congruence.
  - case_bool_decide as Hs; [destruct Hs as [? [=]]|].
    repeat split; intros; try discriminate; congruence.
Qed.

Lemma public_iff_shared_witness :
  exists out,
    GroupSerializer.serialize (example_env true false [])
      (example_group RESOLVED) (resolved_attrs None) AnonymousUser = Ok out
    /\ out !! "shareId" = Some (VStr "abc")
    /\ out !! "isPublic" = Some (VBool true).
Proof.
  eexists. split; [reflexivity|].
  destruct (public_iff_shared (example_env true false [])
              (example_group RESOLVED) (resolved_attrs None) AnonymousUser _
              eq_refl) as (Hpub & _ & Hid).
  split; [apply Hid; reflexivity|].
  apply Hpub. rewrite (Hid "abc" eq_refl). discriminate.
Defined.

(** ** The attribute collector, entry by entry *)

Section Collector.

Variable env : Env.
Variable st : Store.
Variable item_list : list Group.
Variable user : Viewer.

(** The bag of a group id was computed for a group of the batch with that
    id, from the sets and dictionaries of the batch. *)
Lemma get_attrs_entries attrs gid a :
  GroupSerializer.get_attrs env st item_list user = Ok attrs ->
  attrs !! gid = Some a ->
  exists item,
    item ∈ item_list /\ group_id item = gid
    /\ is_bookmarked a
       = bool_decide (gid ∈ GroupSerializer.bookmarks_for st item_list user)
    /\ has_seen a
       = Z.ltb (default (first_seen item) (active_at item))
               (default (default (first_seen item) (active_at item))
                        (GroupSerializer.seen_groups_for st item_list user
                           !! gid))
    /\ annotations a = GroupSerializer.annotations_for env item.
Proof.
  unfold GroupSerializer.get_attrs.
  match goal with
  | |- context [foldl (fun acc item => result ← acc; attrs ← @?F item; _) _ _] =>
      destruct (foldl_collect_spec F item_list) as (d & Hd & Hfrom & Hall)
  end.
  - intros item Hin.
    destruct (subscriptions_for_spec env st item_list user (group_id item))
      as (e & He & _).
    { unfold in_item_list. apply list_elem_of_fmap_2, Hin. }
    cbv zeta. rewrite He, bind_Ok. eauto.
  - rewrite Hd. intros Hattrs Ha. apply Ok_inj in Hattrs. subst attrs.
    destruct (Hfrom gid a Ha) as (item & Hin & <- & Hitem).
    exists item. split; [exact Hin|]. split; [reflexivity|].
    destruct (subscriptions_for_spec env st item_list user (group_id item))
      as (e & He & _).
    { unfold in_item_list. apply list_elem_of_fmap_2, Hin. }
    cbv zeta in Hitem. rewrite He, bind_Ok in Hitem.
    apply Ok_inj in Hitem. subst a. repeat split.
Qed.

(** The keys of the result are the ids of the batch. *)
Lemma get_attrs_keys attrs :
  GroupSerializer.get_attrs env st item_list user = Ok attrs ->
  forall gid, is_Some (attrs !! gid) <-> in_item_list item_list gid.
Proof.
  intros Hattrs gid.
  destruct (get_attrs_spec env st item_list user) as (attrs' & Hattrs' & Hall & Hbag).
  rewrite Hattrs in Hattrs'. apply Ok_inj in Hattrs'. subst attrs'. split.
  - intros [a Ha]. destruct (Hbag _ _ Ha) as (Hin & _). exact Hin.
  - intros Hin. unfold in_item_list in Hin.
    apply list_elem_of_fmap in Hin as (item & -> & Hitem). apply Hall, Hitem.
Qed.

End Collector.

(** X17: [get_attrs] always returns, with exactly one bag per group id of
    the batch; an empty batch gives an empty result. *)
Theorem get_attrs_one_bag_per_group
    (env : Env) (st : Store) (item_list : list Group) (user : Viewer) :
  exists attrs,
    GroupSerializer.get_attrs env st item_list user = Ok attrs
    /\ dom attrs = list_to_set (group_id <$> item_list)
    /\ (item_list = [] -> attrs = ∅).
Proof.
  destruct (get_attrs_spec env st item_list user) as (attrs & Hattrs & _).
  exists attrs. split; [exact Hattrs|].
  assert (dom attrs = list_to_set (group_id <$> item_list)) as Hdom.
  { apply set_eq. intros gid.
    rewrite elem_of_dom, elem_of_list_to_set.
    apply (get_attrs_keys env st item_list user attrs Hattrs). }
  split; [exact Hdom|].
  intros ->. apply dom_empty_iff_L. rewrite Hdom. reflexivity.
Qed.

(** X18: for an anonymous viewer no group is bookmarked, seen or subscribed:
    every bag says so, and every record serialized from a bag has
    [isBookmarked], [hasSeen] and [isSubscribed] false,
    [subscriptionDetails] and [permalink] null. *)
Theorem anonymous_viewer_sees_no_personal_state
    (env : Env) (st : Store) (item_list : list Group)
    (attrs : gmap Z Attrs) (gid : Z) (a : Attrs) :
  GroupSerializer.get_attrs env st item_list AnonymousUser = Ok attrs ->
  attrs !! gid = Some a ->
  is_bookmarked a = false /\ has_seen a = false
  /\ subscription a = Some (false, None)
  /\ forall obj out,
       GroupSerializer.serialize env obj a AnonymousUser = Ok out ->
       out !! "isBookmarked" = Some (VBool false)
       /\ out !! "hasSeen" = Some (VBool false)
       /\ out !! "isSubscribed" = Some (VBool false)
       /\ out !! "subscriptionDetails" = Some VNone
       /\ out !! "permalink" = Some VNone.
Proof.
  intros Hattrs Ha.
  destruct (get_attrs_entries env st item_list AnonymousUser _ _ _ Hattrs Ha)
    as (item & _ & _ & Hbook & Hseen & _).
  destruct (get_attrs_spec env st item_list AnonymousUser)
    as (attrs' & Hattrs' & _ & Hbag).
  rewrite Hattrs in Hattrs'. apply Ok_inj in Hattrs'. subst attrs'.
  destruct (Hbag _ _ Ha) as (_ & Hsub & _).
  cbn in Hsub. apply Ok_inj in Hsub. symmetry in Hsub.
  cbn [GroupSerializer.bookmarks_for] in Hbook.
  rewrite bool_decide_eq_false_2 in Hbook by apply not_elem_of_empty.
  cbn [GroupSerializer.seen_groups_for] in Hseen.
  rewrite lookup_empty in Hseen. cbn [default] in Hseen.
  rewrite Z.ltb_irrefl in Hseen.
  split; [exact Hbook|]. split; [exact Hseen|]. split; [exact Hsub|].
  intros obj out Hout.
  destruct (serialize_Ok_flags env _ _ _ _ Hout) as (_ & _ & Hb & Hs).
  destruct (serialize_subscription env _ _ _ _ _ Hout Hsub) as [Hsubd Hdet].
  destruct (serialize_Ok env _ _ _ _ Hout) as (_ & _ & _ & _ & _ & _ & Hp & _).
  rewrite Hb, Hs, Hbook, Hseen.
  repeat split; try reflexivity; [exact Hsubd | apply Hdet; now left | exact Hp].
Qed.

Lemma anonymous_viewer_sees_no_personal_state_witness :
  exists attrs a,
    GroupSerializer.get_attrs (example_env true false []) example_store
      example_batch AnonymousUser = Ok attrs
    /\ attrs !! 2 = Some a
    /\ is_bookmarked a = false /\ has_seen a = false
    /\ subscription a = Some (false, None).
Proof.
  destruct (get_attrs_spec (example_env true false []) example_store
              example_batch AnonymousUser) as (attrs & Hattrs & Hall & _).
  destruct (Hall (example_group_with 2 UNRESOLVED)) as (a & Ha);
    [right; left|].
  exists attrs, a. split; [exact Hattrs|]. split; [exact Ha|].
  destruct (anonymous_viewer_sees_no_personal_state
              (example_env true false []) example_store example_batch
              attrs 2 a Hattrs Ha) as (Hb & Hs & Hsub & _).
  auto.
Defined.

(** X19: for a logged-in viewer, the bag of a group says bookmarked
    exactly when the bookmark table has a row of that viewer for that
    group. *)
Theorem bookmarked_iff_row
    (env : Env) (st : Store) (item_list : list Group) (u : User)
    (attrs : gmap Z Attrs) (gid : Z) (a : Attrs) :
  GroupSerializer.get_attrs env st item_list (Authenticated u) = Ok attrs ->
  attrs !! gid = Some a ->
  is_bookmarked a = true
  <-> exists b, b ∈ GroupBookmark_objects st
                /\ bookmark_user_id b = user_id u
                /\ bookmark_group_id b = gid.
Proof.
  intros Hattrs Ha.
  destruct (get_attrs_entries env st item_list _ _ _ _ Hattrs Ha)
    as (item & Hitem & Hid & Hbook & _).
  assert (in_item_list item_list gid) as Hin
    by (rewrite <- Hid; unfold in_item_list; apply list_elem_of_fmap_2, Hitem).
  rewrite Hbook. unfold GroupSerializer.bookmarks_for.
  destruct item_list as [|g l] eqn:Hl; [inversion Hitem|].
  cbn [length Nat.eqb negb]. rewrite <- Hl in *.
  rewrite bool_decide_eq_true, elem_of_list_to_set, list_elem_of_fmap.
  split.
  - intros (b & -> & Hb). apply list_elem_of_filter in Hb as [[Hu _] Hb]. eauto.
  - intros (b & Hb & Hu & Hg). exists b. split; [congruence|].
    apply list_elem_of_filter. rewrite Hg. auto.
Qed.

Lemma bookmarked_iff_row_witness :
  exists attrs a,
    GroupSerializer.get_attrs (example_env true false []) example_store
      example_batch (Authenticated alice) = Ok attrs
    /\ attrs !! 1 = Some a
    /\ is_bookmarked a = false.
Proof.
  destruct (get_attrs_spec (example_env true false []) example_store
              example_batch (Authenticated alice)) as (attrs & Hattrs & Hall & _).
  destruct (Hall (example_group_with 1 RESOLVED)) as (a & Ha); [left|].
  exists attrs, a. split; [exact Hattrs|]. split; [exact Ha|].
  destruct (is_bookmarked a) eqn:Hb; [|reflexivity].
  apply (bookmarked_iff_row (example_env true false []) example_store
           example_batch alice attrs 1 a Hattrs Ha) in Hb
    as (b & Hin & _).
  inversion Hin.
Defined.

(** X20: for a logged-in viewer, the bag of a group says seen only when a
    seen row of that viewer for that group is later than the date the group
    became active ([active_at], or [first_seen] without it); a viewer who
    never opened the group has not seen it. *)
Theorem has_seen_needs_later_visit
    (env : Env) (st : Store) (item_list : list Group) (u : User)
    (attrs : gmap Z Attrs) (gid : Z) (a : Attrs) :
  GroupSerializer.get_attrs env st item_list (Authenticated u) = Ok attrs ->
  attrs !! gid = Some a ->
  has_seen a = true ->
  exists item row,
    item ∈ item_list /\ group_id item = gid
    /\ row ∈ GroupSeen_objects st
    /\ seen_user_id row = user_id u /\ seen_group_id row = gid
    /\ (default (first_seen item) (active_at item) < seen_last_seen row)%Z.
Proof.
  intros Hattrs Ha Hseen.
  destruct (get_attrs_entries env st item_list _ _ _ _ Hattrs Ha)
    as (item & Hitem & Hid & _ & Hs & _).
  rewrite Hs in Hseen. apply Z.ltb_lt in Hseen.
  unfold GroupSerializer.seen_groups_for in Hseen.
  destruct item_list as [|g l] eqn:Hl; [inversion Hitem|].
  cbn [length Nat.eqb negb] in Hseen. rewrite <- Hl in *.
  destruct (dict_of seen_group_id seen_last_seen _ !! gid) as [t|] eqn:Ht;
    cbn [default] in Hseen; [|lia].
  apply dict_of_lookup_Some in Ht as (row & Hrow & Hg & Ht).
  apply list_elem_of_filter in Hrow as [[Hu _] Hrow].
  exists item, row. subst t. auto 10.
Qed.

Lemma has_seen_needs_later_visit_witness :
  exists attrs a,
    GroupSerializer.get_attrs (example_env true false []) example_store
      example_batch (Authenticated alice) = Ok attrs
    /\ attrs !! 1 = Some a
    /\ has_seen a = false.
Proof.
  destruct (get_attrs_spec (example_env true false []) example_store
              example_batch (Authenticated alice)) as (attrs & Hattrs & Hall & _).
  destruct (Hall (example_group_with 1 RESOLVED)) as (a & Ha); [left|].
  exists attrs, a. split; [exact Hattrs|]. split; [exact Ha|].
  destruct (has_seen a) eqn:Hs; [|reflexivity].
  destruct (has_seen_needs_later_visit (example_env true false [])
              example_store example_batch alice attrs 1 a Hattrs Ha Hs)
    as (item & row & _ & _ & Hin & _).
  inversion Hin.
Defined.

(** ** The subscription resolver, the other cases *)

Section ResolverKeys.

Variable env : Env.
Variable st : Store.
Variable item_list : list Group.
Variable user : User.

(** A group id outside the batch has no entry. *)
Lemma get_subscriptions_outside gid :
  ~ in_item_list item_list gid ->
  GroupSerializer._get_subscriptions env st item_list user !! gid = None.
Proof.
  intros Hout. rewrite get_subscriptions_stages.
  assert (recorded_results st item_list user !! gid = None) as Hrec.
  { unfold recorded_results.
    rewrite (foldl_insert_lookup subscription_group_id
               (fun s => Some (subscription_is_active s, Some s))).
    destruct (last _) as [s|] eqn:Hlast;
      [|apply seeded_lookup_None, Hout].
    apply last_Some_elem_of, list_elem_of_filter in Hlast as [Hg Hs].
    apply list_elem_of_filter in Hs as [[Hdom _] _].
    rewrite Hg in Hdom. apply elem_of_dom in Hdom as [e He].
    rewrite (seeded_lookup_None _ _ Hout) in He. discriminate. }
  case_bool_decide; [exact Hrec|].
  rewrite assign_projects_other; [exact Hrec|].
  intros pid gids Hitem Hgid. apply elem_of_map_to_list in Hitem.
  destruct (proj1 (collect_spec st item_list user item_list pid gid))
    as (g & Hg & Hid & _); [eauto|].
  apply Hout. rewrite <- Hid. unfold in_item_list.
  apply list_elem_of_fmap_2, Hg.
Qed.

End ResolverKeys.

(** X21: [_get_subscriptions] returns an entry for exactly the group ids of
    the batch, and no entry is left unknown: each is a flag with the record
    it came from, or with no record. *)
Theorem resolver_covers_the_batch
    (env : Env) (st : Store) (item_list : list Group) (user : User) :
  dom (GroupSerializer._get_subscriptions env st item_list user)
  = list_to_set (group_id <$> item_list)
  /\ forall gid entry,
       GroupSerializer._get_subscriptions env st item_list user !! gid
       = Some entry ->
       is_Some entry.
Proof.
  split.
  - apply set_eq. intros gid. rewrite elem_of_dom, elem_of_list_to_set.
    fold (in_item_list item_list gid). split.
    + intros [e He]. destruct (decide (in_item_list item_list gid)) as [|Hout];
        [assumption|].
      rewrite (get_subscriptions_outside env st item_list user gid Hout) in He.
      discriminate.
    + intros Hin.
      destruct (get_subscriptions_known env st item_list user gid Hin)
        as (e & ->). eauto.
  - intros gid entry He.
    destruct (decide (in_item_list item_list gid)) as [Hin|Hout].
    + destruct (get_subscriptions_known env st item_list user gid Hin)
        as (e & He'). rewrite He' in He. injection He as <-. eauto.
    + rewrite (get_subscriptions_outside env st item_list user gid Hout) in He.
      discriminate.
Qed.



(** ** Annotations and actors *)

(** X24: a version-2 plugin whose annotation hook fails or returns nothing
    contributes no annotation and does not change those of the others: the
    annotations are those of the plugin list without it. *)
Theorem failing_hook_contributes_nothing
    (env env' : Env) (item : Group) (before after : list PluginV2)
    (plugin : PluginV2) :
  plugins_v1 env' = plugins_v1 env ->
  plugins_v2 env (group_project item) = (before ++ plugin :: after)%list ->
  plugins_v2 env' (group_project item) = (before ++ after)%list ->
  get_annotations plugin item = None ->
  GroupSerializer.annotations_for env item
  = GroupSerializer.annotations_for env' item.
Proof.
  intros Hv1 Hv2 Hv2' Hfail. unfold GroupSerializer.annotations_for.
  rewrite Hv1, Hv2, Hv2', !foldl_app. cbn [foldl].
  rewrite Hfail. cbn [default]. rewrite app_nil_r. reflexivity.
Qed.

(** The version-2 annotations follow those of the version-1 hooks, plugin
    by plugin. *)
Lemma annotations_for_app (env : Env) (item : Group) :
  GroupSerializer.annotations_for env item
  = (foldl (fun ann plugin => tags plugin item ann) []
           (plugins_v1 env (group_project item))
     ++ concat ((fun plugin => default [] (get_annotations plugin item))
                <$> plugins_v2 env (group_project item)))%list.
Proof.
  unfold GroupSerializer.annotations_for.
  generalize (foldl (fun ann plugin => tags plugin item ann) []
                (plugins_v1 env (group_project item))).
  induction (plugins_v2 env (group_project item)) as [|p l IH]; intros start.
  - cbn. rewrite app_nil_r. reflexivity.
  - cbn [foldl fmap list_fmap concat]. rewrite IH, <- app_assoc. reflexivity.
Qed.

Section Actors.

Variable env : Env.
Variable st : Store.
Variable item_list : list Group.
Variable user : Viewer.

(** An id that a resolution or snooze of the batch names, and that an
    active user bears, has an entry in [actors]. *)
Lemma actors_of_active (aid : Z) u :
  active_user st (Some aid) u ->
  (exists gid r, resolutions_of st item_list !! gid = Some r /\ r.2 = Some aid)
  \/ (exists gid s, ignore_items_of st item_list !! gid = Some s
                    /\ snooze_actor_id s = Some aid) ->
  exists u', active_user st (Some aid) u'
             /\ actors_of env st item_list user !! aid
                = Some (serialize_user env user u').
Proof.
  intros (Hu & Hact & Hid) Hnamed. injection Hid as ->.
  unfold actors_of, GroupSerializer.actors_for.
  set (actor_ids :=
         list_to_set ((fun r => r.2) <$> (snd <$> map_to_list (resolutions_of st item_list)))
         ∪ list_to_set (snooze_actor_id <$> (snd <$> map_to_list (ignore_items_of st item_list)))
         : gset (option Z)).
  assert (Some (user_id u) ∈ actor_ids) as Hin.
  { unfold actor_ids. apply elem_of_union.
    destruct Hnamed as [(gid & r & Hr & Haid) | (gid & s & Hs & Haid)];
      [left | right]; rewrite elem_of_list_to_set, <- Haid.
    - apply (list_elem_of_fmap_2 (fun r => r.2)).
      apply (list_elem_of_fmap_2' snd _ (gid, r)); [|reflexivity].
      apply elem_of_map_to_list. exact Hr.
    - apply (list_elem_of_fmap_2 snooze_actor_id).
      apply (list_elem_of_fmap_2' snd _ (gid, s)); [|reflexivity].
      apply elem_of_map_to_list. exact Hs. }
  rewrite bool_decide_eq_false_2
    by (intros Hempty; rewrite Hempty in Hin; apply not_elem_of_empty in Hin;
        exact Hin).
  set (users := filter _ (User_objects st)).
  assert (u ∈ users) as Hfound
    by (apply list_elem_of_filter; split; [split; assumption | exact Hu]).
  rewrite dict_of_lookup.
  destruct (last (filter (fun ud => user_id ud.1 = user_id u)
                         (zip users (serialize_user env user <$> users))))
    as [[u' d]|] eqn:Hlast.
  - pose proof (last_Some_elem_of _ _ Hlast) as Hud.
    apply list_elem_of_filter in Hud as [Huid Hud]. cbn in Huid.
    apply elem_of_zip_fmap in Hud as [Hu' Hd]. cbn in Hu', Hd.
    apply list_elem_of_filter in Hu' as [[_ Hact'] Hu'].
    exists u'. split; [|cbn; congruence].
    split; [exact Hu'|]. split; [exact Hact' | congruence].
  - exfalso. apply last_None in Hlast.
    assert ((u, serialize_user env user u)
            ∈ zip users (serialize_user env user <$> users)) as Hz.
    { clear -Hfound. induction users as [|x l IH]; [inversion Hfound|].
      cbn. apply elem_of_cons in Hfound as [->|Hin]; [left|right; auto]. }
    assert ((u, serialize_user env user u)
            ∈ filter (fun ud => user_id ud.1 = user_id u)
                     (zip users (serialize_user env user <$> users))) as Hf
      by (apply list_elem_of_filter; split; [reflexivity | exact Hz]).
    rewrite Hlast in Hf. inversion Hf.
Qed.

End Actors.

(** X25: when the resolution of a group names a user that exists and is
    active, the bag carries the serialization of such a user as resolution
    actor; likewise for the actor of its snooze. *)
Theorem actor_attached_when_active
    (env : Env) (st : Store) (item_list : list Group) (user : Viewer)
    (attrs : gmap Z Attrs) (gid : Z) (a : Attrs) :
  GroupSerializer.get_attrs env st item_list user = Ok attrs ->
  attrs !! gid = Some a ->
  (forall r u, resolution a = Some r -> active_user st r.2 u ->
     exists u', active_user st r.2 u'
                /\ resolution_actor a = Some (serialize_user env user u'))
  /\ (forall s u, ignore_until a = Some s ->
        active_user st (snooze_actor_id s) u ->
        exists u', active_user st (snooze_actor_id s) u'
                   /\ ignore_actor a = Some (serialize_user env user u')).
Proof.
  intros Hattrs Ha.
  destruct (get_attrs_spec env st item_list user) as (attrs' & Hattrs' & _ & Hbag).
  rewrite Hattrs in Hattrs'. apply Ok_inj in Hattrs'. subst attrs'.
  destruct (Hbag _ _ Ha) as (_ & _ & Hres & Hign & Hract & Hiact).
  split.
  - intros r u Hr Hu. rewrite Hract, Hr.
    pose proof Hu as (_ & _ & Haid). rewrite Haid in Hu |- *.
    destruct (actors_of_active env st item_list user (user_id u) u Hu)
      as (u' & Hu' & Hl).
    { left. exists gid, r. split; [congruence | exact Haid]. }
    exists u'. split; [exact Hu' | exact Hl].
  - intros s u Hs Hu. rewrite Hiact, Hs.
    pose proof Hu as (_ & _ & Haid). rewrite Haid in Hu |- *.
    destruct (actors_of_active env st item_list user (user_id u) u Hu)
      as (u' & Hu' & Hl).
    { right. exists gid, s. split; [congruence | exact Haid]. }
    exists u'. split; [exact Hu' | exact Hl].
Qed.



Lemma failing_hook_contributes_nothing_witness :
  GroupSerializer.annotations_for
    (env_with_plugins [failing_plugin; jira_plugin]) (example_group RESOLVED)
  = GroupSerializer.annotations_for
      (env_with_plugins [jira_plugin]) (example_group RESOLVED).
Proof.
  apply (failing_hook_contributes_nothing
           (env_with_plugins [failing_plugin; jira_plugin])
           (env_with_plugins [jira_plugin]) (example_group RESOLVED)
           [] [jira_plugin] failing_plugin); reflexivity.
Defined.

Lemma actor_attached_when_active_witness :
  exists attrs a u',
    GroupSerializer.get_attrs (example_env true false []) example_store
      example_batch (Authenticated alice) = Ok attrs
    /\ attrs !! 1 = Some a
    /\ active_user example_store (Some 11) u'
    /\ ignore_actor a
       = Some (serialize_user (example_env true false [])
                 (Authenticated alice) u').
Proof.
  destruct (get_attrs_spec (example_env true false []) example_store
              example_batch (Authenticated alice))
    as (attrs & Hattrs & Hall & Hbag).
  destruct (Hall (example_group_with 1 RESOLVED)) as (a & Ha); [left|].
  destruct (Hbag _ _ Ha) as (_ & _ & _ & Hign & _).
  destruct (actor_attached_when_active (example_env true false [])
              example_store example_batch (Authenticated alice) attrs 1 a
              Hattrs Ha) as [_ Hsnooze].
  destruct (Hsnooze (example_snooze None) alice) as (u' & Hu' & Hactor).
  - rewrite Hign. vm_compute. reflexivity.
  - split; [left|]. split; reflexivity.
  - exists attrs, a, u'. auto.
Defined.

(** ** The stream serializers *)

Section Stream.

Variable env : Env.

(** The base record has none of the keys the stream serializers add. *)
Lemma serialize_lacks_stream_keys obj attrs user out (k : string) :
  GroupSerializer.serialize env obj attrs user = Ok out ->
  k = "stats" \/ k = "matchingEventId" \/ k = "tagLastSeen"
  \/ k = "tagFirstSeen" ->
  out !! k = None.
Proof.
  unfold GroupSerializer.serialize.
  destruct (GroupSerializer.snooze_check env obj attrs) as [s|];
    [rewrite bind_Ok | rewrite bind_Raise; discriminate].
  destruct (GroupSerializer.label_status attrs _) as [lbl sd].
  unfold GroupSerializer.unpack_subscription.
  destruct (subscription attrs) as [p|];
    [rewrite bind_Ok | rewrite bind_Raise; discriminate].
  intros Hout Hk. apply Ok_inj in Hout. subst out.
  destruct Hk as [->|[->|[->| ->]]];
    repeat (rewrite lookup_insert_ne by discriminate); apply lookup_empty.
Qed.

(** The outcome of the stream composer, from that of the base one. *)
Lemma stream_serialize_cases self obj attrs user :
  StreamGroupSerializer.serialize env self obj attrs user
  = match GroupSerializer.serialize env obj
            (StreamGroupSerializer.bag attrs) user with
    | Ok base =>
        match StreamGroupSerializer.period_of self,
              StreamGroupSerializer.stats attrs with
        | Some period, None => Raise (KeyError "stats")
        | Some period, Some s =>
            let result := <["stats" := VDict {[period := s]}]> base in
            Ok (if truthy (StreamGroupSerializer.matching_event_id self)
                then <["matchingEventId" :=
                         StreamGroupSerializer.matching_event_id self]> result
                else result)
        | None, _ =>
            Ok (if truthy (StreamGroupSerializer.matching_event_id self)
                then <["matchingEventId" :=
                         StreamGroupSerializer.matching_event_id self]> base
                else base)
        end
    | Raise e => Raise e
    end.
Proof.
  unfold StreamGroupSerializer.serialize.
  destruct (GroupSerializer.serialize env obj _ user) as [base|e];
    [rewrite bind_Ok | rewrite bind_Raise; reflexivity].
  destruct (StreamGroupSerializer.period_of self) as [period|].
  - destruct (StreamGroupSerializer.stats attrs) as [s|];
      [rewrite bind_Ok | rewrite bind_Raise; reflexivity].
    cbv zeta.
    destruct (truthy (StreamGroupSerializer.matching_event_id self));
      reflexivity.
  - rewrite bind_Ok.
    destruct (truthy (StreamGroupSerializer.matching_event_id self));
      reflexivity.
Qed.

End Stream.

(** X26: a record of the stream composer is the record of the base
    composer with at most two keys added: every other key keeps its value,
    [stats] holds the bag's series under the name of the period when a
    period is configured, and [matchingEventId] the configured id when it
    is not empty. *)
Theorem stream_record_extends_base
    (env : Env) (self : StreamGroupSerializer.t) (obj : Group)
    (attrs : StreamGroupSerializer.StreamAttrs) (user : Viewer)
    (base out : gmap string value) :
  GroupSerializer.serialize env obj (StreamGroupSerializer.bag attrs) user
  = Ok base ->
  StreamGroupSerializer.serialize env self obj attrs user = Ok out ->
  (forall k : string,
     k <> "stats" -> k <> "matchingEventId" -> out !! k = base !! k)
  /\ out !! "stats"
     = match StreamGroupSerializer.period_of self with
       | Some period =>
           (fun s => VDict {[period := s]})
           <$> StreamGroupSerializer.stats attrs
       | None => None
       end
  /\ out !! "matchingEventId"
     = (if truthy (StreamGroupSerializer.matching_event_id self)
        then Some (StreamGroupSerializer.matching_event_id self) else None).
Proof.
  intros Hbase. rewrite stream_serialize_cases, Hbase.
  pose proof (serialize_lacks_stream_keys env _ _ _ _ "stats" Hbase) as Hs.
  pose proof (serialize_lacks_stream_keys env _ _ _ _ "matchingEventId" Hbase)
    as Hm.
  destruct (StreamGroupSerializer.period_of self) as [period|];
    [destruct (StreamGroupSerializer.stats attrs) as [s|]; [|discriminate]|];
    cbv zeta;
    destruct (truthy (StreamGroupSerializer.matching_event_id self));
    intros Hout; apply Ok_inj in Hout; subst out;
    (split; [intros k Hk1 Hk2;
             repeat (rewrite lookup_insert_ne by congruence); reflexivity|]);
    (split;
     [ repeat (rewrite lookup_insert_ne by discriminate);
       first [apply lookup_insert_eq | apply Hs; auto]
     | repeat first [apply lookup_insert_eq
                    | rewrite lookup_insert_ne by discriminate];
       apply Hm; auto ]).
Qed.

Lemma stream_record_extends_base_witness :
  exists base out,
    GroupSerializer.serialize (example_env true false [])
      (example_group RESOLVED) (example_attrs None) AnonymousUser = Ok base
    /\ StreamGroupSerializer.serialize (example_env true false []) daily
         (example_group RESOLVED) (stream_attrs (Some (VList [])))
         AnonymousUser = Ok out
    /\ out !! "status" = base !! "status"
    /\ out !! "stats" = Some (VDict {["24h" := VList []]})
    /\ out !! "matchingEventId" = Some (VStr "e1").
Proof.
  eexists. eexists. split; [reflexivity|]. split; [reflexivity|].
  destruct (stream_record_extends_base (example_env true false []) daily
              (example_group RESOLVED) (stream_attrs (Some (VList [])))
              AnonymousUser _ _ eq_refl eq_refl) as (Hframe & Hstats & Hid).
  split; [apply Hframe; discriminate|]. split; [exact Hstats | exact Hid].
Defined.

(** X27: a stream serializer with no period and no matching event id
    serializes as the base serializer does; with a period, a bag without
    [stats] makes it raise [KeyError] once the base composer has
    returned. *)
Theorem stream_without_options_is_base
    (env : Env) (self : StreamGroupSerializer.t) (obj : Group)
    (attrs : StreamGroupSerializer.StreamAttrs) (user : Viewer) :
  (StreamGroupSerializer.period_of self = None ->
   truthy (StreamGroupSerializer.matching_event_id self) = false ->
   StreamGroupSerializer.serialize env self obj attrs user
   = GroupSerializer.serialize env obj (StreamGroupSerializer.bag attrs) user)
  /\ (forall period base,
        StreamGroupSerializer.period_of self = Some period ->
        StreamGroupSerializer.stats attrs = None ->
        GroupSerializer.serialize env obj (StreamGroupSerializer.bag attrs) user
        = Ok base ->
        StreamGroupSerializer.serialize env self obj attrs user
        = Raise (KeyError "stats")).
Proof.
  rewrite stream_serialize_cases. split.
  - intros -> ->.
    destruct (GroupSerializer.serialize env obj _ user); reflexivity.
  - intros period base -> -> ->. reflexivity.
Qed.

Lemma stream_without_options_is_base_witness :
  StreamGroupSerializer.serialize (example_env true false []) plain_stream
    (example_group RESOLVED) (stream_attrs None) AnonymousUser
  = GroupSerializer.serialize (example_env true false [])
      (example_group RESOLVED) (example_attrs None) AnonymousUser
  /\ StreamGroupSerializer.serialize (example_env true false []) daily
       (example_group RESOLVED) (stream_attrs None) AnonymousUser
     = Raise (KeyError "stats").
Proof.
  split.
  - apply (stream_without_options_is_base (example_env true false [])
             plain_stream (example_group RESOLVED) (stream_attrs None)
             AnonymousUser); reflexivity.
  - destruct (serialize_total (example_env true false [])
                (example_group RESOLVED) (example_attrs None) AnonymousUser
                (RESOLVED, ∅) (false, None) eq_refl eq_refl) as (base & Hbase).
    apply (stream_without_options_is_base (example_env true false [])
             daily (example_group RESOLVED) (stream_attrs None)
             AnonymousUser) with (period := "24h") (base := base);
      [reflexivity | reflexivity | exact Hbase].
Defined.

(** X28: the tag-based composer adds [tagLastSeen] and [tagFirstSeen] from
    the tag value of the group and keeps every other key of the stream
    record; for a group without tag value it raises [KeyError]. *)
Theorem tag_record_extends_stream
    (env : Env) (self : TagBasedStreamGroupSerializer.t) (obj : Group)
    (attrs : StreamGroupSerializer.StreamAttrs) (user : Viewer)
    (base : gmap string value) :
  StreamGroupSerializer.serialize env
    (TagBasedStreamGroupSerializer.stream self) obj attrs user = Ok base ->
  (TagBasedStreamGroupSerializer.tags self !! group_id obj = None ->
   TagBasedStreamGroupSerializer.serialize env self obj attrs user
   = Raise (KeyError (pretty (group_id obj))))
  /\ (forall tag,
        TagBasedStreamGroupSerializer.tags self !! group_id obj = Some tag ->
        exists out,
          TagBasedStreamGroupSerializer.serialize env self obj attrs user
          = Ok out
          /\ out !! "tagLastSeen"
             = Some (VDate (TagBasedStreamGroupSerializer.tag_last_seen tag))
          /\ out !! "tagFirstSeen"
             = Some (VDate (TagBasedStreamGroupSerializer.tag_first_seen tag))
          /\ forall k : string,
               k <> "tagLastSeen" -> k <> "tagFirstSeen" ->
               out !! k = base !! k).
Proof.
  intros Hbase. unfold TagBasedStreamGroupSerializer.serialize.
  rewrite Hbase, bind_Ok. unfold StreamGroupSerializer.getitem_int. split.
  - intros ->. rewrite bind_Raise. reflexivity.
  - intros tag ->. rewrite !bind_Ok. eexists. split; [reflexivity|].
    split; [rewrite lookup_insert_ne by discriminate; apply lookup_insert_eq|].
    split; [apply lookup_insert_eq|].
    intros k Hl Hf. rewrite !lookup_insert_ne by congruence. reflexivity.
Qed.

Lemma tag_record_extends_stream_witness :
  exists base,
    StreamGroupSerializer.serialize (example_env true false []) plain_stream
      (example_group RESOLVED) (stream_attrs None) AnonymousUser = Ok base
    /\ TagBasedStreamGroupSerializer.serialize (example_env true false [])
         {| TagBasedStreamGroupSerializer.stream := plain_stream;
            TagBasedStreamGroupSerializer.tags := ∅ |}
         (example_group RESOLVED) (stream_attrs None) AnonymousUser
       = Raise (KeyError "1").
Proof.
  eexists. split; [reflexivity|].
  destruct (tag_record_extends_stream (example_env true false [])
              {| TagBasedStreamGroupSerializer.stream := plain_stream;
                 TagBasedStreamGroupSerializer.tags := ∅ |}
              (example_group RESOLVED) (stream_attrs None) AnonymousUser
              _ eq_refl) as [Hmissing _].
  exact (Hmissing eq_refl).
Defined.

Section StreamAttrs.

Variable series : gmap Z value.

Lemma attach_stats_snoc attrs (l : list Group) item :
  attach_stats series attrs (l ++ [item])
  = (m ← attach_stats series attrs l;
     a ← StreamGroupSerializer.getitem_int m (group_id item);
     s ← StreamGroupSerializer.getitem_int series (group_id item);
     Ok (<[group_id item :=
            {| StreamGroupSerializer.bag := StreamGroupSerializer.bag a;
               StreamGroupSerializer.stats := Some s |}]> m)).
Proof. unfold attach_stats. rewrite foldl_app. reflexivity. Qed.

Lemma attach_stats_Raise e (l : list Group) :
  foldl (fun acc item =>
           attrs ← acc;
           a ← StreamGroupSerializer.getitem_int attrs (group_id item);
           s ← StreamGroupSerializer.getitem_int series (group_id item);
           Ok (<[group_id item :=
                  {| StreamGroupSerializer.bag := StreamGroupSerializer.bag a;
                     StreamGroupSerializer.stats := Some s |}]> attrs))
        (Raise e) l = Raise e.
Proof. induction l as [|x l IH]; [reflexivity | exact IH]. Qed.

(** When the groups of the list have a bag and a series, the loop gives
    each of them its bag with the series, and leaves the other bags. *)
Lemma attach_stats_Ok attrs (l : list Group) :
  (forall item, item ∈ l ->
     is_Some (attrs !! group_id item) /\ is_Some (series !! group_id item)) ->
  exists m,
    attach_stats series attrs l = Ok m
    /\ forall gid,
         m !! gid
         = (fun a => if decide (gid ∈ group_id <$> l)
                     then {| StreamGroupSerializer.bag :=
                               StreamGroupSerializer.bag a;
                             StreamGroupSerializer.stats := series !! gid |}
                     else a) <$> attrs !! gid.
Proof.
  induction l as [|x l IH] using rev_ind; intros Hcov.
  - exists attrs. split; [reflexivity|]. intros gid.
    destruct (attrs !! gid); reflexivity.
  - destruct IH as (m & Hm & Hlook).
    { intros item Hin. apply Hcov, elem_of_app. now left. }
    destruct (Hcov x) as [[a0 Ha0] [s Hs]]; [apply elem_of_app; right; left|].
    rewrite attach_stats_snoc, Hm, bind_Ok.
    unfold StreamGroupSerializer.getitem_int.
    rewrite (Hlook (group_id x)), Ha0, Hs. cbn [fmap option_fmap option_map].
    rewrite !bind_Ok. eexists. split; [reflexivity|]. intros gid.
    destruct (decide (group_id x = gid)) as [<-|Hne].
    + rewrite lookup_insert_eq, Ha0. cbn [fmap option_fmap option_map].
      f_equal.
      destruct (decide (group_id x ∈ group_id <$> (l ++ [x])%list)) as [_|Hn];
        [|exfalso; apply Hn; rewrite fmap_app, elem_of_app; right; left].
      rewrite Hs. destruct (decide _); reflexivity.
    + rewrite lookup_insert_ne by exact Hne. rewrite Hlook.
      destruct (attrs !! gid) as [a|]; [|reflexivity].
      cbn [fmap option_fmap option_map]. f_equal.
      destruct (decide (gid ∈ group_id <$> l)) as [Hin|Hnin];
        destruct (decide (gid ∈ group_id <$> (l ++ [x])%list)) as [Hin'|Hnin'];
        try reflexivity; exfalso.
      * apply Hnin'. rewrite fmap_app, elem_of_app. now left.
      * rewrite fmap_app, elem_of_app in Hin'.
        destruct Hin' as [Hin'|Hin']; [contradiction|].
        apply list_elem_of_singleton in Hin'. congruence.
Qed.

(** The first group without a series ends the loop with [KeyError]. *)
Lemma attach_stats_missing attrs (before after : list Group) item m a :
  attach_stats series attrs before = Ok m ->
  m !! group_id item = Some a ->
  series !! group_id item = None ->
  attach_stats series attrs (before ++ item :: after)
  = Raise (KeyError (pretty (group_id item))).
Proof.
  intros Hm Ha Hmiss. rewrite cons_middle, app_assoc.
  unfold attach_stats. rewrite foldl_app.
  fold (attach_stats series attrs (before ++ [item])).
  rewrite attach_stats_snoc, Hm, bind_Ok.
  unfold StreamGroupSerializer.getitem_int.
  rewrite Ha, bind_Ok, Hmiss, bind_Raise. apply attach_stats_Raise.
Qed.

End StreamAttrs.

Lemma stream_get_attrs_with_period env st tsdb now self item_list user
    period choice base :
  StreamGroupSerializer.period_of self = Some period ->
  StreamGroupSerializer.STATS_PERIOD_CHOICES !! period = Some choice ->
  GroupSerializer.get_attrs env st item_list user = Ok base ->
  StreamGroupSerializer.get_attrs env st tsdb now self item_list user
  = attach_stats (stats_series tsdb now choice item_list)
      ((fun a => {| StreamGroupSerializer.bag := a;
                    StreamGroupSerializer.stats := None |}) <$> base)
      item_list.
Proof.
  intros Hp Hc Hbase. unfold StreamGroupSerializer.get_attrs.
  rewrite Hbase, bind_Ok, Hp. unfold getitem. rewrite Hc, bind_Ok. reflexivity.
Qed.

(** X29: with a period configured and a time-series store that has a
    series for every group of the batch, the stream [get_attrs] returns the
    bags of the base [get_attrs], each with the series of its group as
    [stats]; the series are asked for up to now, from [segments - 1]
    intervals before, rolled up by interval. *)
Theorem stream_get_attrs_attaches_series
    (env : Env) (st : Store) (tsdb : StreamGroupSerializer.Tsdb) (now : Z)
    (self : StreamGroupSerializer.t) (item_list : list Group) (user : Viewer)
    (period : string) (choice : StreamGroupSerializer.StatsPeriod)
    (base : gmap Z Attrs) :
  StreamGroupSerializer.period_of self = Some period ->
  StreamGroupSerializer.STATS_PERIOD_CHOICES !! period = Some choice ->
  GroupSerializer.get_attrs env st item_list user = Ok base ->
  (forall item, item ∈ item_list ->
     is_Some (stats_series tsdb now choice item_list !! group_id item)) ->
  exists attrs,
    StreamGroupSerializer.get_attrs env st tsdb now self item_list user
    = Ok attrs
    /\ forall gid,
         attrs !! gid
         = (fun a => {| StreamGroupSerializer.bag := a;
                        StreamGroupSerializer.stats :=
                          stats_series tsdb now choice item_list !! gid |})
           <$> base !! gid.
Proof.
  intros Hp Hc Hbase Hcov.
  rewrite (stream_get_attrs_with_period _ _ _ _ _ _ _ _ _ _ Hp Hc Hbase).
  destruct (attach_stats_Ok (stats_series tsdb now choice item_list)
              ((fun a => {| StreamGroupSerializer.bag := a;
                            StreamGroupSerializer.stats := None |}) <$> base)
              item_list) as (m & Hm & Hlook).
  { intros item Hin. split; [|apply Hcov, Hin].
    rewrite lookup_fmap.
    destruct (proj2 (get_attrs_keys env st item_list user base Hbase
                       (group_id item))) as [a Ha].
    - unfold in_item_list. apply list_elem_of_fmap_2, Hin.
    - rewrite Ha. eauto. }
  exists m. split; [exact Hm|]. intros gid. rewrite Hlook, lookup_fmap.
  destruct (base !! gid) as [a|] eqn:Ha; [|reflexivity].
  cbn [fmap option_fmap option_map]. rewrite decide_True; [reflexivity|].
  apply (get_attrs_keys env st item_list user base Hbase gid). eauto.
Qed.

Lemma stream_get_attrs_attaches_series_witness :
  exists base attrs,
    GroupSerializer.get_attrs (example_env true false []) example_store
      example_batch AnonymousUser = Ok base
    /\ StreamGroupSerializer.get_attrs (example_env true false [])
         example_store example_tsdb 100000 daily example_batch AnonymousUser
       = Ok attrs
    /\ StreamGroupSerializer.stats <$> attrs !! 2
       = (fun _ => Some (VList [VInt 17200; VInt 3600])) <$> base !! 2.
Proof.
  destruct (get_attrs_spec (example_env true false []) example_store
              example_batch AnonymousUser) as (base & Hbase & _).
  destruct (stream_get_attrs_attaches_series (example_env true false [])
              example_store example_tsdb 100000 daily example_batch
              AnonymousUser "24h"
              {| StreamGroupSerializer.segments := 24;
                 StreamGroupSerializer.interval := 3600 |}
              base eq_refl eq_refl Hbase) as (attrs & Hattrs & Hlook).
  - intros item Hin. apply elem_of_cons in Hin as [->|Hin];
      [eexists; reflexivity|].
    apply list_elem_of_singleton in Hin. subst item. eexists. reflexivity.
  - exists base, attrs. split; [exact Hbase|]. split; [exact Hattrs|].
    rewrite Hlook. destruct (base !! 2); reflexivity.
Defined.

(** X30: when the time-series store has no series for a group of the
    batch, the stream [get_attrs] raises [KeyError] for the first such
    group. *)
Theorem stream_get_attrs_missing_series
    (env : Env) (st : Store) (tsdb : StreamGroupSerializer.Tsdb) (now : Z)
    (self : StreamGroupSerializer.t) (user : Viewer)
    (before after : list Group) (item : Group)
    (period : string) (choice : StreamGroupSerializer.StatsPeriod) :
  StreamGroupSerializer.period_of self = Some period ->
  StreamGroupSerializer.STATS_PERIOD_CHOICES !! period = Some choice ->
  (forall g, g ∈ before ->
     is_Some (stats_series tsdb now choice (before ++ item :: after)
                !! group_id g)) ->
  stats_series tsdb now choice (before ++ item :: after) !! group_id item
  = None ->
  StreamGroupSerializer.get_attrs env st tsdb now self
    (before ++ item :: after) user
  = Raise (KeyError (pretty (group_id item))).
Proof.
  intros Hp Hc Hcov Hmiss.
  destruct (get_attrs_spec env st (before ++ item :: after) user)
    as (base & Hbase & Hall & _).
  rewrite (stream_get_attrs_with_period _ _ _ _ _ _ _ _ _ _ Hp Hc Hbase).
  set (series := stats_series tsdb now choice (before ++ item :: after)) in *.
  set (wrapped := (fun a => {| StreamGroupSerializer.bag := a;
                               StreamGroupSerializer.stats := None |})
                  <$> base).
  assert (forall g, g ∈ (before ++ item :: after)%list ->
            is_Some (wrapped !! group_id g)) as Hbag.
  { intros g Hg. unfold wrapped. rewrite lookup_fmap.
    destruct (Hall g Hg) as [a ->]. eauto. }
  destruct (attach_stats_Ok series wrapped before) as (m & Hm & Hlook).
  { intros g Hg. split; [apply Hbag, elem_of_app; now left | apply Hcov, Hg]. }
  destruct (Hbag item) as [a Ha]; [apply elem_of_app; right; left|].
  apply (attach_stats_missing series wrapped before after item m
           (if decide (group_id item ∈ group_id <$> before)
            then {| StreamGroupSerializer.bag := StreamGroupSerializer.bag a;
                    StreamGroupSerializer.stats := series !! group_id item |}
            else a) Hm); [|exact Hmiss].
  rewrite Hlook, Ha. reflexivity.
Qed.

Lemma stream_get_attrs_missing_series_witness :
  StreamGroupSerializer.get_attrs (example_env true false []) example_store
    example_tsdb 100000 daily
    ([example_group_with 1 RESOLVED] ++ example_group_with 3 RESOLVED
       :: [example_group_with 2 UNRESOLVED]) AnonymousUser
  = Raise (KeyError "3").
Proof.
  apply (stream_get_attrs_missing_series (example_env true false [])
           example_store example_tsdb 100000 daily AnonymousUser
           [example_group_with 1 RESOLVED] [example_group_with 2 UNRESOLVED]
           (example_group_with 3 RESOLVED) "24h"
           {| StreamGroupSerializer.segments := 24;
              StreamGroupSerializer.interval := 3600 |});
    [reflexivity | reflexivity | | reflexivity].
  intros g Hg. apply list_elem_of_singleton in Hg. subst g.
  eexists. reflexivity.
Defined.
